(** * The group-entities step (step-function/05.group-entities/index.py)

    A shallow embedding of [lambda_handler] and [create_edge], and the
    properties of the grouping-and-edge-derivation step proved about
    them.

    The handler is Python: values are dynamically typed JSON trees,
    dictionaries keep insertion order, every operation may raise, and the
    event object is mutated in place.  The embedding keeps all four:
    - [json] is the tree type of events, stored payloads and summaries;
    - a dictionary is an association list read by its first match;
    - the handler runs in a state-and-exception monad [M] whose state
      survives an exception (records written before a fatal error stay
      written);
    - the event lives in the state and the variables [summary] and
      [attributes] are paths into it, so an assignment through one alias
      is seen through every other. *)

From Stdlib Require Import List ZArith NArith String Ascii Bool Lia DecimalString.
From Stdlib Require Import Relations RelationClasses.
Import ListNotations.

Set Implicit Arguments.
Set Warnings "-register-all".

(** ** Strings

    A Python [str] is a sequence of Unicode code points. *)

Definition pystr := list N.

(** An ASCII literal of the source text. *)
Definition lit (s : string) : pystr :=
  map N_of_ascii (list_ascii_of_string s).

Fixpoint pystr_eqb (a b : pystr) : bool :=
  match a, b with
  | [], [] => true
  | x :: a', y :: b' => N.eqb x y && pystr_eqb a' b'
  | _, _ => false
  end.

(** [sep.join(parts)] *)
Fixpoint str_join (sep : pystr) (parts : list pystr) : pystr :=
  match parts with
  | [] => []
  | [p] => p
  | p :: rest => p ++ sep ++ str_join sep rest
  end.

(** ** JSON values

    What [json.loads] and the Lambda runtime hand to the code: [None],
    [bool], [int], [str], [list] and [dict] with string keys.  Numbers
    are the integers; the handler never computes with a number. *)

Inductive json : Type :=
| JNull
| JBool (b : bool)
| JInt (n : Z)
| JStr (s : pystr)
| JList (l : list json)
| JDict (d : list (pystr * json)).

Definition dict := list (pystr * json).

(** ** Exceptions *)

Inductive exn : Type :=
| ValueError (msg : pystr)
| KeyError (key : json)
| TypeError
| AttributeError
| IndexError
| JSONDecodeError
| ClientError (code : pystr)
| OtherError (name : pystr).

Inductive outcome (A : Type) : Type :=
| Ok (a : A)
| Raise (e : exn).
Arguments Ok {A} a.
Arguments Raise {A} e.

(** ** Python primitives on JSON values *)

Module Py.

(** [bool(v)] *)
Definition truthy (v : json) : bool :=
  match v with
  | JNull => false
  | JBool b => b
  | JInt n => negb (Z.eqb n 0)
  | JStr s => match s with [] => false | _ => true end
  | JList l => match l with [] => false | _ => true end
  | JDict d => match d with [] => false | _ => true end
  end.

(** [len(v)] *)
Definition len (v : json) : outcome nat :=
  match v with
  | JStr s => Ok (List.length s)
  | JList l => Ok (List.length l)
  | JDict d => Ok (List.length d)
  | _ => Raise TypeError
  end.

(** Lookup in a dictionary. *)
Fixpoint dict_get (k : pystr) (d : dict) : option json :=
  match d with
  | [] => None
  | (k', v) :: d' => if pystr_eqb k k' then Some v else dict_get k d'
  end.

(** [d[k] = v] on a dictionary: an existing key keeps its position. *)
Fixpoint dict_set (k : pystr) (v : json) (d : dict) : dict :=
  match d with
  | [] => [(k, v)]
  | (k', v') :: d' =>
      if pystr_eqb k k' then (k', v) :: d' else (k', v') :: dict_set k v d'
  end.

(** [o.get(k)]: [None] when the key is absent; only a [dict] has the
    method. *)
Definition get (o : json) (k : pystr) : outcome json :=
  match o with
  | JDict d => Ok (match dict_get k d with Some v => v | None => JNull end)
  | _ => Raise AttributeError
  end.

(** [o.get(k, default)] *)
Definition get_default (o : json) (k : pystr) (dflt : json) : outcome json :=
  match o with
  | JDict d => Ok (match dict_get k d with Some v => v | None => dflt end)
  | _ => Raise AttributeError
  end.

(** [l[i]] on a list, with Python's negative indices. *)
Definition list_index (l : list json) (i : Z) : outcome json :=
  let n := Z.of_nat (List.length l) in
  let j := if Z.ltb i 0 then Z.add i n else i in
  if Z.ltb j 0 then Raise IndexError
  else match nth_error l (Z.to_nat j) with
       | Some v => Ok v
       | None => Raise IndexError
       end.

(** [o[k]] *)
Definition subscript (o k : json) : outcome json :=
  match o with
  | JDict d =>
      match k with
      | JStr s => match dict_get s d with
                  | Some v => Ok v
                  | None => Raise (KeyError k)
                  end
      | JList _ | JDict _ => Raise TypeError
      | _ => Raise (KeyError k)
      end
  | JList l =>
      match k with
      | JInt i => list_index l i
      | JBool b => list_index l (if b then 1%Z else 0%Z)
      | _ => Raise TypeError
      end
  | JStr s =>
      match k with
      | JInt i => list_index (map (fun c => JStr [c]) s) i
      | JBool b => list_index (map (fun c => JStr [c]) s) (if b then 1%Z else 0%Z)
      | _ => Raise TypeError
      end
  | _ => Raise TypeError
  end.

(** [for x in v]: the elements of a list, the keys of a dictionary,
    the characters of a string. *)
Definition iter (v : json) : outcome (list json) :=
  match v with
  | JList l => Ok l
  | JDict d => Ok (map (fun kv => JStr (fst kv)) d)
  | JStr s => Ok (map (fun c => JStr [c]) s)
  | _ => Raise TypeError
  end.

(** The strings of a sequence, when every element is one. *)
Fixpoint all_str (l : list json) : option (list pystr) :=
  match l with
  | [] => Some []
  | JStr s :: l' =>
      match all_str l' with Some r => Some (s :: r) | None => None end
  | _ :: _ => None
  end.

(** [sep.join(v)] *)
Definition join (sep : pystr) (v : json) : outcome pystr :=
  match iter v with
  | Raise _ => Raise TypeError
  | Ok elems =>
      match all_str elems with
      | Some parts => Ok (str_join sep parts)
      | None => Raise TypeError
      end
  end.

(** [isinstance(v, list)] *)
Definition is_list (v : json) : bool :=
  match v with JList _ => true | _ => false end.

End Py.

(** ** The Python library

    The handler calls four library functions whose tables are not part of
    the repository: [str.isalpha] and [str.upper] beyond ASCII, the text
    an f-string gives a value that is not a string, and [json.loads].
    They are the operations of [PyLib]; everything below holds for every
    implementation of them. *)

Class PyLib : Type := {
  (** [chr(c).isalpha()] for a code point above 127 *)
  unicode_isalpha : N -> bool;
  (** [chr(c).upper()] for a code point above 127 *)
  unicode_upper : N -> pystr;
  (** [str(v)] for a value that is not a string *)
  py_repr : json -> pystr;
  (** [json.loads(s)]; [None] stands for [JSONDecodeError] *)
  json_loads : pystr -> option json
}.

Section StrMethods.
Context {lib : PyLib}.

Definition char_isalpha (c : N) : bool :=
  if N.ltb c 128
  then (N.leb 65 c && N.leb c 90) || (N.leb 97 c && N.leb c 122)
  else unicode_isalpha c.

Definition char_upper (c : N) : pystr :=
  if N.ltb c 128
  then (if N.leb 97 c && N.leb c 122 then [N.sub c 32] else [c])
  else unicode_upper c.

(** [s.isalpha()] *)
Definition str_isalpha (s : pystr) : bool :=
  match s with
  | [] => false
  | _ => forallb char_isalpha s
  end.

(** [s.upper()] *)
Definition str_upper (s : pystr) : pystr := flat_map char_upper s.

(** [v.isalpha()] and [v.upper()]: only a [str] has the methods. *)
Definition isalpha (v : json) : outcome bool :=
  match v with
  | JStr s => Ok (str_isalpha s)
  | _ => Raise AttributeError
  end.

Definition upper (v : json) : outcome pystr :=
  match v with
  | JStr s => Ok (str_upper s)
  | _ => Raise AttributeError
  end.

(** A value interpolated in an f-string. *)
Definition format (v : json) : pystr :=
  match v with
  | JStr s => s
  | _ => py_repr v
  end.

(** [json.loads(v)] *)
Definition loads (v : json) : outcome json :=
  match v with
  | JStr s => match json_loads s with
              | Some j => Ok j
              | None => Raise JSONDecodeError
              end
  | _ => Raise TypeError
  end.

End StrMethods.

(** ** [json.dumps]

    With the default arguments: [", "] and [": "] as separators and every
    character outside printable ASCII escaped. *)

Module Dumps.

Definition hex_digit (n : N) : N :=
  if N.ltb n 10 then N.add 48 n else N.add 87 n.

(** [format(n, "04x")] for [n] below 65536 *)
Definition hex4 (n : N) : pystr :=
  [hex_digit (N.modulo (N.div n 4096) 16);
   hex_digit (N.modulo (N.div n 256) 16);
   hex_digit (N.modulo (N.div n 16) 16);
   hex_digit (N.modulo n 16)].

Definition backslash : N := 92.
Definition quote : N := 34.

Definition escape_u (n : N) : pystr := backslash :: 117%N :: hex4 n.

Definition escape_char (c : N) : pystr :=
  if N.eqb c quote then [backslash; quote]
  else if N.eqb c backslash then [backslash; backslash]
  else if N.eqb c 8 then [backslash; 98%N]
  else if N.eqb c 12 then [backslash; 102%N]
  else if N.eqb c 10 then [backslash; 110%N]
  else if N.eqb c 13 then [backslash; 114%N]
  else if N.eqb c 9 then [backslash; 116%N]
  else if N.leb 32 c && N.leb c 126 then [c]
  else if N.ltb c 65536 then escape_u c
  else
    let n := N.sub c 65536 in
    escape_u (N.lor 55296 (N.land (N.shiftr n 10) 1023))
    ++ escape_u (N.lor 56320 (N.land n 1023)).

Definition encode_str (s : pystr) : pystr :=
  quote :: flat_map escape_char s ++ [quote].

Definition encode_int (n : Z) : pystr :=
  lit (NilZero.string_of_int (Z.to_int n)).

Fixpoint json_dumps (v : json) : pystr :=
  match v with
  | JNull => lit "null"
  | JBool true => lit "true"
  | JBool false => lit "false"
  | JInt n => encode_int n
  | JStr s => encode_str s
  | JList l => lit "[" ++ str_join (lit ", ") (map json_dumps l) ++ lit "]"
  | JDict d =>
      lit "{"
      ++ str_join (lit ", ")
           (map (fun kv : pystr * json => let (k, x) := kv in
                           encode_str k ++ lit ": " ++ json_dumps x) d)
      ++ lit "}"
  end.

End Dumps.

(** ** References into the event

    The event arrives as one tree, so an object inside it is named by the
    path from the root, and two variables alias when one path extends the
    other. *)

Inductive sel : Type :=
| Key (k : pystr)
| Idx (i : nat).

Definition path := list sel.

Fixpoint list_update (i : nat) (f : json -> json) (l : list json) : list json :=
  match l, i with
  | [], _ => []
  | x :: l', O => f x :: l'
  | x :: l', S i' => x :: list_update i' f l'
  end.

Fixpoint dict_update (k : pystr) (f : json -> json) (d : dict) : dict :=
  match d with
  | [] => []
  | (k', v) :: d' =>
      if pystr_eqb k k' then (k', f v) :: d' else (k', v) :: dict_update k f d'
  end.

(** The object at the end of a path. *)
Fixpoint lookup_path (p : path) (v : json) : option json :=
  match p with
  | [] => Some v
  | Key k :: p' =>
      match v with
      | JDict d => match Py.dict_get k d with
                   | Some c => lookup_path p' c
                   | None => None
                   end
      | _ => None
      end
  | Idx i :: p' =>
      match v with
      | JList l => match nth_error l i with
                   | Some c => lookup_path p' c
                   | None => None
                   end
      | _ => None
      end
  end.

(** The object a reference names; a bound reference always names one. *)
Definition value_at (p : path) (v : json) : json :=
  match lookup_path p v with
  | Some x => x
  | None => JNull
  end.

(** The tree after the object at the end of a path is changed by [f]. *)
Fixpoint update_path (p : path) (f : json -> json) (v : json) : json :=
  match p with
  | [] => f v
  | Key k :: p' =>
      match v with
      | JDict d => JDict (dict_update k (update_path p' f) d)
      | _ => v
      end
  | Idx i :: p' =>
      match v with
      | JList l => JList (list_update i (update_path p' f) l)
      | _ => v
      end
  end.

(** [o[k] = x] where [o] is the dictionary at [p]. *)
Definition assign_key (p : path) (k : pystr) (x : json) (v : json) : json :=
  update_path p (fun o => match o with
                          | JDict d => JDict (Py.dict_set k x d)
                          | _ => o
                          end) v.

(** ** What the handler talks to *)

Inductive level : Type := INFO | WARNING | ERROR.

(** The records the logger emits at the configured level ([INFO]), one
    constructor per [logger] call of that level or above, carrying the
    values its message interpolates. *)
Inductive message : Type :=
| ProcessingEvent (n : nat)
| MissingRequiredFields
| ProcessingMainEntity (main_entity_name : json)
| NoItemFound (item_id : json)
| DynamoDBError (item_id : json) (e : exn)
| JSONDecodeFailure (item_id : json) (e : exn)
| EstablishingConnection
| CreatingMainEntity
| MainEntityCreated (main_entity_id : json)
| NeptuneFailed (e : exn)
| StoringResults (n : nat)
| StoreFailed (key : pystr) (e : exn)
| ProcessedGroups (n : nat)
| FatalError (e : exn)
| UnknownEntityType (entity_type : json).

(** A result record, as handed to [table.put_item]. *)
Module Item.
Record t : Type := make {
  id : pystr;
  main_entity : json;
  key : pystr;
  data : pystr;
  summary : pystr;
  main_entity_all_edges : pystr;
  main_entity_id : json;
  ttl_timestamp : Z
}.
End Item.

(** A call to the graph store, with what it answered. *)
Inductive graph_call : Type :=
| Connect (r : option exn)
| Upsert (label : pystr) (name : json) (attributes : list json)
         (edges : list pystr) (r : outcome json)
| Close (r : option exn).

(** The behaviour of the external services during one invocation.
    [connectionsinsights.neptune], boto3, [uuid] and [time] are outside
    the handler; each may answer anything, and each call may raise.  The
    [i]-th iteration of the storing loop draws [uuid4 i], reads
    [time_now i] and makes the [i]-th call of [put_item]. *)
Record services : Type := {
  (** [table.get_item(Key={'id': item_id})]: the item, if there is one *)
  get_item : json -> outcome (option dict);
  (** [table.put_item(Item=item)]: the exception, if it raises *)
  put_item : nat -> Item.t -> option exn;
  GraphConnect : option exn;
  getOrCreateID : pystr -> json -> list json -> list pystr -> outcome json;
  connection_close : option exn;
  (** [str(uuid.uuid4())] *)
  uuid4 : nat -> pystr;
  (** [int(time.time())] *)
  time_now : nat -> Z
}.

(** ** State of an invocation

    The event object, the two accumulators of the handler, and the trace
    of what reached the outside: log records, graph calls and the records
    written to the table. *)
Record state : Type := {
  event : json;
  results : list (pystr * list json);
  allEdges : list pystr;
  log : list (level * message);
  graph : list graph_call;
  table : list Item.t
}.

Definition init_state (ev : json) : state :=
  {| event := ev; results := []; allEdges := []; log := []; graph := [];
     table := [] |}.

Definition set_event (f : json -> json) (s : state) : state :=
  {| event := f (event s); results := results s; allEdges := allEdges s;
     log := log s; graph := graph s; table := table s |}.

Definition set_results (f : list (pystr * list json) -> list (pystr * list json))
    (s : state) : state :=
  {| event := event s; results := f (results s); allEdges := allEdges s;
     log := log s; graph := graph s; table := table s |}.

Definition set_allEdges (f : list pystr -> list pystr) (s : state) : state :=
  {| event := event s; results := results s; allEdges := f (allEdges s);
     log := log s; graph := graph s; table := table s |}.

Definition add_log (l : level) (m : message) (s : state) : state :=
  {| event := event s; results := results s; allEdges := allEdges s;
     log := log s ++ [(l, m)]; graph := graph s; table := table s |}.

Definition add_graph (c : graph_call) (s : state) : state :=
  {| event := event s; results := results s; allEdges := allEdges s;
     log := log s; graph := graph s ++ [c]; table := table s |}.

Definition add_item (it : Item.t) (s : state) : state :=
  {| event := event s; results := results s; allEdges := allEdges s;
     log := log s; graph := graph s; table := table s ++ [it] |}.

(** ** The monad of the handler *)

Definition M (A : Type) : Type := state -> state * outcome A.

Definition ret {A} (a : A) : M A := fun s => (s, Ok a).

Definition raise {A} (e : exn) : M A := fun s => (s, Raise e).

Definition bind {A B} (m : M A) (k : A -> M B) : M B :=
  fun s => match m s with
           | (s', Ok a) => k a s'
           | (s', Raise e) => (s', Raise e)
           end.

Notation "x <- m ;; k" := (bind m (fun x => k))
  (at level 61, m at next level, right associativity).
Notation "m ;; k" := (bind m (fun _ => k))
  (at level 61, right associativity).

(** A pure operation that may raise. *)
Definition lift {A} (o : outcome A) : M A := fun s => (s, o).

Definition gets {A} (f : state -> A) : M A := fun s => (s, Ok (f s)).

Definition modify (f : state -> state) : M unit := fun s => (f s, Ok tt).

(** [try: body except ...]: [handler e] is the clause that catches [e],
    if one does. *)
Definition try_except {A} (body : M A) (handler : exn -> option (M A)) : M A :=
  fun s => match body s with
           | (s', Ok a) => (s', Ok a)
           | (s', Raise e) =>
               match handler e with
               | Some h => h s'
               | None => (s', Raise e)
               end
           end.

(** [for x in l: body] *)
Fixpoint foreach {A} (l : list A) (body : A -> M unit) : M unit :=
  match l with
  | [] => ret tt
  | x :: l' => body x ;; foreach l' body
  end.

Definition logger (l : level) (m : message) : M unit := modify (add_log l m).

(** ** The [results] dictionary: bucket key to bucket *)

Definition buckets := list (pystr * list json).

Fixpoint bucket_get (k : pystr) (r : buckets) : option (list json) :=
  match r with
  | [] => None
  | (k', b) :: r' => if pystr_eqb k k' then Some b else bucket_get k r'
  end.

(** [results.setdefault(k, [])] *)
Definition setdefault (k : pystr) (r : buckets) : buckets :=
  match bucket_get k r with
  | Some _ => r
  | None => r ++ [(k, [])]
  end.

(** [results[k].append(x)] *)
Fixpoint bucket_append (k : pystr) (x : json) (r : buckets) : buckets :=
  match r with
  | [] => []
  | (k', b) :: r' =>
      if pystr_eqb k k' then (k', b ++ [x]) :: r'
      else (k', b) :: bucket_append k x r'
  end.

(** ** create_edge *)

Inductive entity_kind : Type := CUSTOMER | SUPPLIER | COMPETITOR | DIRECTOR.

Definition kind_name (k : entity_kind) : pystr :=
  match k with
  | CUSTOMER => lit "CUSTOMER"
  | SUPPLIER => lit "SUPPLIER"
  | COMPETITOR => lit "COMPETITOR"
  | DIRECTOR => lit "DIRECTOR"
  end.

(** The attribute each creator reads. *)
Definition kind_attribute (k : entity_kind) : pystr :=
  match k with
  | CUSTOMER => lit "PRODUCTS_USED"
  | SUPPLIER => lit "RELATIONSHIP"
  | COMPETITOR => lit "COMPETING_IN"
  | DIRECTOR => lit "ROLE"
  end.

(** The text between the key and the joined values. *)
Definition kind_prefix (k : entity_kind) : pystr :=
  match k with
  | CUSTOMER => lit " is a customer of (PRODUCTS_USED:"
  | SUPPLIER => lit " is a supplier of (RELATIONSHIP:"
  | COMPETITOR => lit " is a competitor of (COMPETING_IN:"
  | DIRECTOR => lit " is a director of (ROLE: "
  end.

(** [edge_mappings.get(entity_type)]: the lookup hashes its argument, so
    a list or a dictionary raises. *)
Definition edge_mappings_get (entity_type : json) : outcome (option entity_kind) :=
  match entity_type with
  | JStr s =>
      Ok (if pystr_eqb s (lit "CUSTOMER") then Some CUSTOMER
          else if pystr_eqb s (lit "SUPPLIER") then Some SUPPLIER
          else if pystr_eqb s (lit "COMPETITOR") then Some COMPETITOR
          else if pystr_eqb s (lit "DIRECTOR") then Some DIRECTOR
          else None)
  | JList _ | JDict _ => Raise TypeError
  | _ => Ok None
  end.

Section Handler.
Context {lib : PyLib} (svc : services).

(** The lambda stored under [kind] in [edge_mappings]. *)
Definition edge_creator (kind : entity_kind) (key data main_entity_name : json)
  : M pystr :=
  values <- lift (Py.subscript data (JStr (kind_attribute kind))) ;;
  joined <- lift (Py.join (lit ",") values) ;;
  ret (format key ++ kind_prefix kind ++ joined ++ lit ") "
       ++ format main_entity_name).

Definition create_edge (key data main_entity_name entity_type : json)
  : M (option pystr) :=
  creator <- lift (edge_mappings_get entity_type) ;;
  match creator with
  | None =>
      logger WARNING (UnknownEntityType entity_type) ;;
      ret None
  | Some kind =>
      edge <- edge_creator kind key data main_entity_name ;;
      ret (Some edge)
  end.

(** *** lambda_handler *)

(** [summary] and [attributes] are bound once and name objects of the
    event. *)
Definition summary_ref : path := [Key (lit "Summary")].
Definition attributes_ref : path :=
  [Key (lit "Summary"); Key (lit "MAIN_ENTITY"); Key (lit "ATTRIBUTES")].

(** The value of a bound reference. *)
Definition deref (p : path) : M json :=
  gets (fun s => value_at p (event s)).

(** Lines 31-36. *)
Definition validate_input : M unit :=
  ev <- gets event ;;
  output <- lift (Py.get_default ev (lit "output") (JList [])) ;;
  n <- lift (Py.len output) ;;
  logger INFO (ProcessingEvent n) ;;
  summary <- lift (Py.get ev (lit "Summary")) ;;
  missing <- (if negb (Py.truthy summary) then ret true
              else output <- lift (Py.get ev (lit "output")) ;;
                   ret (negb (Py.truthy output))) ;;
  if missing : bool then
    logger ERROR MissingRequiredFields ;;
    raise (ValueError (lit "Missing required fields in event: Summary or output"))
  else ret tt.

(** Lines 69-71, "Group records into A-Z,#".  The bucket is found or
    created before [data[key]] is evaluated. *)
Definition group_record (data key : json) : M unit :=
  c <- lift (Py.subscript key (JInt 0)) ;;
  alpha <- lift (isalpha c) ;;
  first_char <- (if alpha : bool
                 then c' <- lift (Py.subscript key (JInt 0)) ;; lift (upper c')
                 else ret (lit "#")) ;;
  modify (set_results (setdefault first_char)) ;;
  value <- lift (Py.subscript data key) ;;
  k <- lift (match key with JStr k => Ok k | _ => Raise TypeError end) ;;
  modify (set_results (bucket_append first_char (JDict [(k, value)]))).

(** Lines 73-80, "Process edges based on type". *)
Definition process_edge (main_entity_name data key : json) : M unit :=
  descriptor <- lift (Py.subscript data key) ;;
  entity_type <- lift (Py.get descriptor (lit "TYPE")) ;;
  if Py.truthy entity_type then
    descriptor' <- lift (Py.subscript data key) ;;
    edge <- create_edge key descriptor' main_entity_name entity_type ;;
    match edge with
    | Some ((_ :: _) as e) => modify (set_allEdges (fun l => l ++ [e]))
    | _ => ret tt
    end
  else ret tt.

(** Lines 64-80: one key of a stored record. *)
Definition process_key (main_entity_name data key : json) : M unit :=
  if negb (Py.truthy key) then ret tt
  else
    group_record data key ;;
    process_edge main_entity_name data key.

(** [obj[list(obj.keys())[0]]] *)
Definition first_value (obj : json) : outcome json :=
  match obj with
  | JDict [] => Raise IndexError
  | JDict ((_, v) :: _) => Ok v
  | _ => Raise AttributeError
  end.

Definition table_get_item (item_id : json) : M (option dict) :=
  lift (get_item svc item_id).

(** Lines 50-87: one element of [event["output"]].  Line 51 raises
    nothing that the two [except] clauses catch, so it is evaluated
    ahead of the protected block, where the clauses can name
    [item_id]. *)
Definition process_output_item (main_entity_name obj : json) : M unit :=
  item_id <- lift (first_value obj) ;;
  try_except
    (response <- table_get_item item_id ;;
     match response with
     | None => logger WARNING (NoItemFound item_id)
     | Some it =>
         payload <- lift (Py.subscript (JDict it) (JStr (lit "data"))) ;;
         data <- lift (loads payload) ;;
         keys <- lift (Py.iter data) ;;
         foreach keys (process_key main_entity_name data)
     end)
    (fun e => match e with
              | ClientError _ => Some (logger ERROR (DynamoDBError item_id e))
              | JSONDecodeError => Some (logger ERROR (JSONDecodeFailure item_id e))
              | _ => None
              end).

(** Lines 99-100: one item of the attribute record at [attribute]; the
    assignment goes to the event. *)
Definition join_if_list (attribute : path) (kv : pystr * json) : M unit :=
  let (key, value) := kv in
  if Py.is_list value then
    joined <- lift (Py.join (lit ",") value) ;;
    modify (set_event (assign_key attribute key (JStr joined)))
  else ret tt.

(** Lines 98-100: the items of one attribute record.  [attribute] is
    the object at [attributes[i]]. *)
Definition process_attribute (i : nat) (attribute : json) : M unit :=
  match attribute with
  | JDict items => foreach items (join_if_list (attributes_ref ++ [Idx i]))
  | _ => raise AttributeError
  end.

(** Lines 96-101: [processed_attributes] collects the very objects of
    [attributes]. *)
Fixpoint process_attributes (i : nat) (attributes : list json)
    (processed_attributes : list path) : M (list path) :=
  match attributes with
  | [] => ret processed_attributes
  | attribute :: rest =>
      process_attribute i attribute ;;
      process_attributes (S i) rest
        (processed_attributes ++ [attributes_ref ++ [Idx i]])
  end.

Fixpoint deref_all (ps : list path) : M (list json) :=
  match ps with
  | [] => ret []
  | p :: ps' => v <- deref p ;; vs <- deref_all ps' ;; ret (v :: vs)
  end.

Definition graph_connect : M unit :=
  modify (add_graph (Connect (GraphConnect svc))) ;;
  match GraphConnect svc with
  | Some e => raise e
  | None => ret tt
  end.

Definition graph_getOrCreateID (label : pystr) (name : json)
    (attributes : list json) (edges : list pystr) : M json :=
  let r := getOrCreateID svc label name attributes edges in
  modify (add_graph (Upsert label name attributes edges r)) ;;
  lift r.

Definition graph_close : M unit :=
  modify (add_graph (Close (connection_close svc))) ;;
  match connection_close svc with
  | Some e => raise e
  | None => ret tt
  end.

(** Lines 90-112. *)
Definition create_main_entity (main_entity_name : json) : M json :=
  try_except
    (logger INFO EstablishingConnection ;;
     graph_connect ;;
     attributes <- deref attributes_ref ;;
     elems <- lift (Py.iter attributes) ;;
     processed_attributes <- process_attributes 0 elems [] ;;
     logger INFO CreatingMainEntity ;;
     values <- deref_all processed_attributes ;;
     edges <- gets allEdges ;;
     main_entity_id <-
       graph_getOrCreateID (lit "COMPANY") main_entity_name values edges ;;
     logger INFO (MainEntityCreated main_entity_id) ;;
     graph_close ;;
     ret main_entity_id)
    (fun e => Some (logger ERROR (NeptuneFailed e) ;; raise e)).

Definition table_put_item (i : nat) (it : Item.t) : M unit :=
  match put_item svc i it with
  | Some e => raise e
  | None => modify (add_item it)
  end.

(** Lines 118-139: the [i]-th bucket. *)
Definition store_group (main_entity_name main_entity_id : json)
    (i : nat) (key : pystr) (uuids : list pystr) : M (list pystr) :=
  try_except
    (let id := uuid4 svc i in
     rs <- gets results ;;
     bucket <- lift (match bucket_get key rs with
                     | Some b => Ok b
                     | None => Raise (KeyError (JStr key))
                     end) ;;
     summary <- deref summary_ref ;;
     edges <- gets allEdges ;;
     table_put_item i
       (Item.make id main_entity_name key
          (Dumps.json_dumps (JList bucket))
          (Dumps.json_dumps summary)
          (Dumps.json_dumps (JList (map JStr edges)))
          main_entity_id
          (time_now svc i + 7200)%Z) ;;
     ret (uuids ++ [id]))
    (fun e => match e with
              | ClientError _ =>
                  Some (logger ERROR (StoreFailed key e) ;; ret uuids)
              | _ => None
              end).

Fixpoint store_groups (main_entity_name main_entity_id : json)
    (i : nat) (keys : list pystr) (uuids : list pystr) : M (list pystr) :=
  match keys with
  | [] => ret uuids
  | key :: rest =>
      uuids' <- store_group main_entity_name main_entity_id i key uuids ;;
      store_groups main_entity_name main_entity_id (S i) rest uuids'
  end.

(** Lines 115-142. *)
Definition store_results (main_entity_name main_entity_id : json)
  : M (list pystr) :=
  rs <- gets results ;;
  logger INFO (StoringResults (List.length rs)) ;;
  uuids <- store_groups main_entity_name main_entity_id 0 (map fst rs) [] ;;
  logger INFO (ProcessedGroups (List.length uuids)) ;;
  ret uuids.

(** Lines 38-87: bind the locals and group the stored records. *)
Definition group_entities : M json :=
  ev <- gets event ;;
  summary <- lift (Py.subscript ev (JStr (lit "Summary"))) ;;
  main_entity <- lift (Py.subscript summary (JStr (lit "MAIN_ENTITY"))) ;;
  main_entity_name <- lift (Py.subscript main_entity (JStr (lit "NAME"))) ;;
  main_entity' <- lift (Py.subscript summary (JStr (lit "MAIN_ENTITY"))) ;;
  _ <- lift (Py.subscript main_entity' (JStr (lit "ATTRIBUTES"))) ;;
  logger INFO (ProcessingMainEntity main_entity_name) ;;
  modify (set_allEdges (fun _ => [])) ;;
  modify (set_results (fun _ => [])) ;;
  output <- lift (Py.subscript ev (JStr (lit "output"))) ;;
  objs <- lift (Py.iter output) ;;
  foreach objs (process_output_item main_entity_name) ;;
  ret main_entity_name.

Definition lambda_handler : M (list pystr) :=
  try_except
    (validate_input ;;
     main_entity_name <- group_entities ;;
     main_entity_id <- create_main_entity main_entity_name ;;
     store_results main_entity_name main_entity_id)
    (fun e => Some (logger ERROR (FatalError e) ;; raise e)).

(** One invocation on [ev]. *)
Definition invoke (ev : json) : state * outcome (list pystr) :=
  lambda_handler (init_state ev).

End Handler.

(** * Vocabulary of the statements *)

(** ** What a computation leaves as it found it

    [stable R m]: every run of [m], normal or exceptional, takes a state
    to an [R]-related one. *)

Definition stable (R : relation state) A (m : M A) : Prop :=
  forall s s' r, m s = (s', r) -> R s s'.

(** The value of [f] is the same before and after. *)
Definition keeps A (f : state -> A) : relation state :=
  fun s s' => f s' = f s.

(** [P] holds after if it held before. *)
Definition preserves (P : state -> Prop) : relation state :=
  fun s s' => P s -> P s'.

(** [hoare P m Q]: from a state where [P] holds, [m] ends in a state and
    with an outcome that [Q] relates.  Every computation ends, so this
    is total correctness. *)
Definition hoare A (P : state -> Prop) (m : M A)
    (Q : state -> outcome A -> Prop) : Prop :=
  forall s s' r, P s -> m s = (s', r) -> Q s' r.

(** The exception of an outcome, if it is one. *)
Definition raised A (r : outcome A) : option exn :=
  match r with
  | Ok _ => None
  | Raise e => Some e
  end.

(** [succeeds I m]: from a state where [I] holds, [m] returns normally
    in a state where [I] holds. *)
Definition succeeds (I : state -> Prop) A (m : M A) : Prop :=
  forall s, I s -> exists s' a, m s = (s', Ok a) /\ I s'.

(** A relation that no write to one component of the state breaks. *)
Definition log_closed (R : relation state) : Prop :=
  forall l m s, R s (add_log l m s).
Definition results_closed (R : relation state) : Prop :=
  forall f s, R s (set_results f s).
Definition edges_closed (R : relation state) : Prop :=
  forall f s, R s (set_allEdges f s).
Definition event_closed (R : relation state) : Prop :=
  forall f s, R s (set_event f s).
Definition graph_closed (R : relation state) : Prop :=
  forall c s, R s (add_graph c s).
Definition table_closed (R : relation state) : Prop :=
  forall it s, R s (add_item it s).

(** ** The graph part *)

(** The graph calls of [create_main_entity], in the order they are made,
    and the outcome each sequence of calls goes with. *)
Inductive graph_trace : list graph_call -> outcome json -> Prop :=
| trace_no_connection e :
    graph_trace [Connect (Some e)] (Raise e)
| trace_attributes e :
    graph_trace [Connect None] (Raise e)
| trace_upsert_raised label name attributes edges e :
    graph_trace [Connect None; Upsert label name attributes edges (Raise e)]
                (Raise e)
| trace_close_raised label name attributes edges main_entity_id e :
    graph_trace [Connect None;
                 Upsert label name attributes edges (Ok main_entity_id);
                 Close (Some e)]
                (Raise e)
| trace_done label name attributes edges main_entity_id :
    graph_trace [Connect None;
                 Upsert label name attributes edges (Ok main_entity_id);
                 Close None]
                (Ok main_entity_id).

(** ** References that do not resolve

    [unresolved svc item_id entry]: the table has no item under
    [item_id], or has one whose payload [json.loads] rejects; [entry] is
    the log record the handler writes for it. *)

Inductive unresolved {lib : PyLib} (svc : services) (item_id : json)
  : level * message -> Prop :=
| no_record :
    get_item svc item_id = Ok None ->
    unresolved svc item_id (WARNING, NoItemFound item_id)
| bad_payload it payload :
    get_item svc item_id = Ok (Some it) ->
    Py.dict_get (lit "data") it = Some (JStr payload) ->
    json_loads payload = None ->
    unresolved svc item_id (ERROR, JSONDecodeFailure item_id JSONDecodeError).

(** ** Batches of the data model

    The shapes the specification gives to its data (section 3), as
    checks that can be run on a batch. *)

(** A sequence of strings. *)
Definition strings (v : json) : bool :=
  match v with
  | JList l => match Py.all_str l with Some _ => true | None => false end
  | _ => false
  end.

(** An entity descriptor: a mapping whose [TYPE], when it has one, is a
    string, and which has the attribute of its type, a sequence of
    strings, when the type is one of the four. *)
Definition descriptor_ok (v : json) : bool :=
  match v with
  | JDict d =>
      match Py.dict_get (lit "TYPE") d with
      | None => true
      | Some (JStr t) =>
          match edge_mappings_get (JStr t) with
          | Ok (Some kind) =>
              match Py.dict_get (kind_attribute kind) d with
              | Some values => strings values
              | None => false
              end
          | _ => true
          end
      | Some _ => false
      end
  | _ => false
  end.

(** A stored record: a mapping from entity keys to entity descriptors. *)
Definition record_ok (data : json) : bool :=
  match data with
  | JDict entities =>
      forallb (fun kv : pystr * json => descriptor_ok (snd kv)) entities
  | _ => false
  end.

(** An attribute record of the main entity: a mapping whose values are
    scalars or sequences of strings. *)
Definition attribute_ok (a : json) : bool :=
  match a with
  | JDict items =>
      forallb (fun kv : pystr * json =>
                 match snd kv with
                 | JList _ => strings (snd kv)
                 | _ => true
                 end) items
  | _ => false
  end.

(** A summary: the main entity with its name, a string, and its
    attribute records. *)
Definition summary_ok (summary : json) : bool :=
  match summary with
  | JDict d =>
      match Py.dict_get (lit "MAIN_ENTITY") d with
      | Some (JDict main_entity) =>
          match Py.dict_get (lit "NAME") main_entity,
                Py.dict_get (lit "ATTRIBUTES") main_entity with
          | Some (JStr _), Some (JList attributes) =>
              forallb attribute_ok attributes
          | _, _ => false
          end
      | _ => false
      end
  | _ => false
  end.

Section Batches.
Context {lib : PyLib} (svc : services).

(** A reference: a single-key mapping whose identifier resolves to a
    stored record (or is skipped: no item, a storage error of the client,
    or a payload that is not JSON). *)
Definition reference_ok (obj : json) : bool :=
  match first_value obj with
  | Ok item_id =>
      match get_item svc item_id with
      | Ok (Some it) =>
          match Py.dict_get (lit "data") it with
          | Some (JStr payload) =>
              match json_loads payload with
              | Some data => record_ok data
              | None => true
              end
          | _ => false
          end
      | Ok None => true
      | Raise (ClientError _) => true
      | Raise _ => false
      end
  | Raise _ => false
  end.

(** A non-empty input batch whose references all resolve. *)
Definition batch_ok (ev : json) : bool :=
  match ev with
  | JDict d =>
      match Py.dict_get (lit "Summary") d, Py.dict_get (lit "output") d with
      | Some summary, Some (JList (obj :: objs)) =>
          summary_ok summary && forallb reference_ok (obj :: objs)
      | _, _ => false
      end
  | _ => false
  end.

(** The graph store answers every call. *)
Definition graph_ok : Prop :=
  GraphConnect svc = None
  /\ (forall label name attributes edges,
         exists main_entity_id,
           getOrCreateID svc label name attributes edges = Ok main_entity_id)
  /\ connection_close svc = None.

(** The table accepts every record. *)
Definition writes_ok : Prop := forall i it, put_item svc i it = None.

End Batches.

(** Every bucket has a pair. *)
Definition buckets_nonempty (r : buckets) : Prop :=
  forall k b, In (k, b) r -> b <> [].

(** The invariant of a run that goes through: no bucket is empty. *)
Definition all_nonempty (s : state) : Prop := buckets_nonempty (results s).

(** ** Attribute flattening, as a function on values

    What lines 97-100 leave in the place of an attribute record: every
    value that is a list of strings replaced by the strings joined with
    commas. *)

Definition flatten_value (v : json) : json :=
  match v with
  | JList l =>
      match Py.all_str l with
      | Some parts => JStr (str_join (lit ",") parts)
      | None => v
      end
  | _ => v
  end.

Definition flatten_item (kv : pystr * json) : pystr * json :=
  (fst kv, flatten_value (snd kv)).

Definition flatten_attribute (a : json) : json :=
  match a with
  | JDict items => JDict (map flatten_item items)
  | _ => a
  end.

(** The event with the attribute records of its main entity flattened. *)
Definition flattened (ev : json) : json :=
  update_path attributes_ref
    (fun a => match a with
              | JList l => JList (map flatten_attribute l)
              | _ => a
              end) ev.

(** The keys of a dictionary are distinct. *)
Fixpoint distinct (l : list pystr) : bool :=
  match l with
  | [] => true
  | k :: l' => negb (existsb (pystr_eqb k) l') && distinct l'
  end.

Definition keys_distinct (a : json) : bool :=
  match a with
  | JDict items => distinct (map fst items)
  | _ => true
  end.

(** The attributes of the main entity are a list of records, each with
    distinct keys. *)
Definition attributes_distinct (ev : json) : bool :=
  match lookup_path attributes_ref ev with
  | Some (JList l) => forallb keys_distinct l
  | _ => false
  end.

(** No attribute of the main entity has a list for its value. *)
Definition no_list_value (a : json) : bool :=
  match a with
  | JDict items =>
      forallb (fun kv : pystr * json => negb (Py.is_list (snd kv))) items
  | _ => true
  end.

Definition attributes_scalar (ev : json) : bool :=
  match lookup_path attributes_ref ev with
  | Some (JList l) => forallb no_list_value l
  | _ => true
  end.

(** The event is [e], and every record written carries the summary of
    [e]. *)
Definition records_carry (e : json) (s : state) : Prop :=
  event s = e
  /\ forall it, In it (table s) ->
       Item.summary it = Dumps.json_dumps (value_at summary_ref e).

(** The frame condition as the specification words it: the batch is
    read only, and every record carries the summary as it was received. *)
Definition summary_untouched {lib : PyLib} (svc : services) : Prop :=
  forall ev summary it,
    Py.subscript ev (JStr (lit "Summary")) = Ok summary ->
    In it (table (fst (invoke svc ev))) ->
    event (fst (invoke svc ev)) = ev
    /\ Item.summary it = Dumps.json_dumps summary.

(** ** Input validation *)

Definition missing_fields_message : pystr :=
  lit "Missing required fields in event: Summary or output".

(** A field that is absent from the event, or present and empty. *)
Definition missing_or_empty (k : pystr) (d : dict) : bool :=
  match Py.dict_get k d with
  | None => true
  | Some v => negb (Py.truthy v)
  end.

(** The values that have a length: the sequences and mappings. *)
Definition sized (v : json) : bool :=
  match v with
  | JStr _ | JList _ | JDict _ => true
  | _ => false
  end.

(** ** Edges, in the words of the specification

    "<entity key> is a <relation> of (<qualifier label>:<comma-joined
    values>) <main entity name>".  The qualifier of a director is
    rendered with a space after its colon, as in the edge of the
    scenario, "Bob is a director of (ROLE: CEO) Acme". *)

Definition relation_word (k : entity_kind) : pystr :=
  match k with
  | CUSTOMER => lit "customer"
  | SUPPLIER => lit "supplier"
  | COMPETITOR => lit "competitor"
  | DIRECTOR => lit "director"
  end.

Definition qualifier (k : entity_kind) : pystr :=
  match k with
  | CUSTOMER => lit "PRODUCTS_USED:"
  | SUPPLIER => lit "RELATIONSHIP:"
  | COMPETITOR => lit "COMPETING_IN:"
  | DIRECTOR => lit "ROLE: "
  end.

Definition edge_template (key : pystr) (k : entity_kind) (values : list pystr)
    (main_entity_name : pystr) : pystr :=
  key ++ lit " is a " ++ relation_word k ++ lit " of (" ++ qualifier k
  ++ str_join (lit ",") values ++ lit ") " ++ main_entity_name.

(** The bucket key of an entity key that begins with the character [c]:
    the character upper-cased if it is alphabetic, else [#]. *)
Definition bucket_key {lib : PyLib} (c : N) : pystr :=
  if char_isalpha c then char_upper c else lit "#".

(** [results.setdefault(k, []).append(x)] *)
Definition grouped (k : pystr) (x : json) (r : buckets) : buckets :=
  bucket_append k x (setdefault k r).

(** A value that can be looked up in a dictionary. *)
Definition hashable (t : json) : bool :=
  match t with
  | JList _ | JDict _ => false
  | _ => true
  end.

(** The pair [{key: descriptor}], as appended to a bucket. *)
Definition pair (key : pystr) (descriptor : json) : json :=
  JDict [(key, descriptor)].

(** The bucket under [k], empty if there is none. *)
Definition bucket_of (k : pystr) (r : buckets) : list json :=
  match bucket_get k r with
  | Some b => b
  | None => []
  end.

(** Every pair of every bucket satisfies [P]. *)
Definition all_pairs (P : json -> Prop) (r : buckets) : Prop :=
  forall k b x, In (k, b) r -> In x b -> P x.

(** A pair with a non-empty entity key. *)
Definition keyed (x : json) : Prop :=
  exists k v, x = pair k v /\ k <> [].

(** Every pair, in the buckets and in the records written from them, has
    a non-empty entity key. *)
Definition keys_nonempty (s : state) : Prop :=
  all_pairs keyed (results s)
  /\ forall it, In it (table s) ->
       exists bucket, Item.data it = Dumps.json_dumps (JList bucket)
                      /\ Forall keyed bucket.

(** The attribute that the descriptor of a grouped pair needs for its
    edge and does not have. *)
Definition lacks (x : json) : option pystr :=
  match x with
  | JDict [(_, JDict d)] =>
      match Py.dict_get (lit "TYPE") d with
      | Some t =>
          match edge_mappings_get t with
          | Ok (Some kind) =>
              match Py.dict_get (kind_attribute kind) d with
              | None => Some (kind_attribute kind)
              | Some _ => None
              end
          | _ => None
          end
      | None => None
      end
  | _ => None
  end.

(** No grouped pair lacks the attribute of its type. *)
Definition clean (s : state) : Prop :=
  all_pairs (fun x => lacks x = None) (results s).

(** If a grouped pair lacks the attribute of its type, the computation
    has raised the [KeyError] of that attribute. *)
Definition blamed (s : state) (e : option exn) : Prop :=
  all_pairs (fun x => forall a, lacks x = Some a -> e = Some (KeyError (JStr a)))
            (results s).

(** The tolerance of unknown types as the specification words it: every
    descriptor whose [TYPE] is present and is none of the four recognized
    values passes edge derivation without an exception and without an
    edge, and a warning is logged. *)
Definition unknown_type_warns {lib : PyLib} : Prop :=
  forall main data key d t s,
    Py.dict_get key data = Some (JDict d) ->
    Py.dict_get (lit "TYPE") d = Some t ->
    (forall kind, t <> JStr (kind_name kind)) ->
    snd (process_edge main (JDict data) (JStr key) s) = Ok tt
    /\ allEdges (fst (process_edge main (JDict data) (JStr key) s)) = allEdges s
    /\ log (fst (process_edge main (JDict data) (JStr key) s))
       = log s ++ [(WARNING, UnknownEntityType t)].

(** * Sample data

    A library and a set of services small enough to run: ASCII letters
    only, [json.loads] on the documents listed in [documents], one stored
    record, and services that succeed unless a field says otherwise. *)

Module Sample.

Definition jstr (s : string) : json := JStr (lit s).

(** The descriptors of the scenario: Bob, a director; a customer whose
    name starts with a digit; an entity of unknown type. *)
Definition bob : dict :=
  [(lit "TYPE", jstr "DIRECTOR"); (lit "ROLE", JList [jstr "CEO"])].

Definition three_m : dict :=
  [(lit "TYPE", jstr "CUSTOMER");
   (lit "PRODUCTS_USED", JList (map JStr [lit "glue"; lit "tape"]))].

Definition bert : dict := [(lit "TYPE", jstr "ALIEN")].

Definition entities : dict :=
  [(lit "Bob", JDict bob); (lit "3M", JDict three_m); (lit "bert", JDict bert)].

Definition record : json := JDict entities.

(** A record whose one descriptor declares a supplier and has no
    [RELATIONSHIP]. *)
Definition zed : dict := [(lit "TYPE", jstr "SUPPLIER")].

Definition broken_record : json := JDict [(lit "Zed", JDict zed)].

Definition documents : list json := [record; broken_record].

Definition lib : PyLib := {|
  unicode_isalpha := fun _ => false;
  unicode_upper := fun c => [c];
  py_repr := Dumps.json_dumps;
  json_loads := fun s =>
    find (fun v => pystr_eqb (Dumps.json_dumps v) s) documents
|}.

(** The table: one item under [id-1], whose payload is [record]; one
    under [id-3], whose payload is not JSON; one under [id-4], whose
    payload is [broken_record]. *)
Definition lookup (item_id : json) : outcome (option dict) :=
  match item_id with
  | JStr s =>
      if pystr_eqb s (lit "id-1")
      then Ok (Some [(lit "id", jstr "id-1");
                     (lit "data", JStr (Dumps.json_dumps record))])
      else if pystr_eqb s (lit "id-3")
      then Ok (Some [(lit "id", jstr "id-3"); (lit "data", jstr "{not json")])
      else if pystr_eqb s (lit "id-4")
      then Ok (Some [(lit "id", jstr "id-4");
                     (lit "data", JStr (Dumps.json_dumps broken_record))])
      else Ok None
  | _ => Raise (ClientError (lit "ValidationException"))
  end.

Definition svc : services := {|
  get_item := lookup;
  put_item := fun _ _ => None;
  GraphConnect := None;
  getOrCreateID := fun _ _ _ _ => Ok (jstr "node-1");
  connection_close := None;
  uuid4 := fun i => lit "uuid-" ++ [N.add 48 (N.of_nat i)];
  time_now := fun _ => 1700000000%Z
|}.

(** The same services with a graph store whose upsert raises. *)
Definition svc_graph_down : services := {|
  get_item := lookup;
  put_item := fun _ _ => None;
  GraphConnect := None;
  getOrCreateID := fun _ _ _ _ => Raise (OtherError (lit "GremlinServerError"));
  connection_close := None;
  uuid4 := fun i => lit "uuid-" ++ [N.add 48 (N.of_nat i)];
  time_now := fun _ => 1700000000%Z
|}.

Definition summary : json :=
  JDict [(lit "MAIN_ENTITY",
          JDict [(lit "NAME", jstr "Acme");
                 (lit "ATTRIBUTES",
                  JList [JDict [(lit "INDUSTRY",
                                 JList [jstr "retail"; jstr "logistics"]);
                                (lit "FOUNDED", JInt 1999)]])])].

Definition reference (item_id : string) : json :=
  JDict [(lit "id", jstr item_id)].

(** The batch of the scenario: main entity Acme, one reference that
    resolves to [record]. *)
Definition batch : json :=
  JDict [(lit "Summary", summary);
         (lit "output", JList [reference "id-1"])].

(** A batch whose second reference resolves to [broken_record]. *)
Definition batch_with_broken_record : json :=
  JDict [(lit "Summary", summary);
         (lit "output", JList [reference "id-1"; reference "id-4"])].

(** A batch without its [Summary]. *)
Definition batch_without_summary : dict :=
  [(lit "output", JList [reference "id-1"])].

End Sample.

(** * Vocabulary of the further properties *)

(** The indices, from [i] on, of the calls of [put_item] that [fail] lets
    through. *)
Definition stored_indices (fail : nat -> option pystr) (i n : nat) : list nat :=
  filter (fun j => match fail j with None => true | Some _ => false end)
         (seq i n).

(** The exceptions that line 137 catches. *)
Definition is_client_error (e : exn) : bool :=
  match e with
  | ClientError _ => true
  | _ => false
  end.

(** ** One record, as functions of its keys

    What lines 64-80 add for the keys of a record, in the order of the
    keys: the pairs that go to the bucket under [first_char], and the
    edges. *)

Definition pairs_under {lib : PyLib} (first_char : pystr) (data : dict)
    (keys : list pystr) : list json :=
  flat_map (fun key =>
              match key, Py.dict_get key data with
              | c :: _, Some descriptor =>
                  if pystr_eqb (bucket_key c) first_char
                  then [pair key descriptor]
                  else []
              | _, _ => []
              end) keys.

Definition edge_of (main_entity_name : pystr) (data : dict) (key : pystr)
  : list pystr :=
  match key, Py.dict_get key data with
  | _ :: _, Some (JDict d) =>
      match Py.dict_get (lit "TYPE") d with
      | Some t =>
          match edge_mappings_get t with
          | Ok (Some kind) =>
              match Py.dict_get (kind_attribute kind) d with
              | Some (JList l) =>
                  match Py.all_str l with
                  | Some values =>
                      [edge_template key kind values main_entity_name]
                  | None => []
                  end
              | _ => []
              end
          | _ => []
          end
      | None => []
      end
  | _, _ => []
  end.

(** No two buckets under one key. *)
Definition distinct_buckets (s : state) : Prop :=
  NoDup (map fst (results s)).

(** ** References that break the invocation

    [malformed svc obj e]: processing the reference [obj] raises [e],
    which neither [except] clause of the loop catches. *)

Definition caught_per_reference (e : exn) : bool :=
  match e with
  | ClientError _ | JSONDecodeError => true
  | _ => false
  end.

Inductive malformed {lib : PyLib} (svc : services) (obj : json) : exn -> Prop :=
| bad_reference e :
    first_value obj = Raise e ->
    malformed svc obj e
| lookup_broke item_id e :
    first_value obj = Ok item_id ->
    get_item svc item_id = Raise e ->
    caught_per_reference e = false ->
    malformed svc obj e
| no_payload item_id it :
    first_value obj = Ok item_id ->
    get_item svc item_id = Ok (Some it) ->
    Py.dict_get (lit "data") it = None ->
    malformed svc obj (KeyError (JStr (lit "data")))
| payload_not_text item_id it v :
    first_value obj = Ok item_id ->
    get_item svc item_id = Ok (Some it) ->
    Py.dict_get (lit "data") it = Some v ->
    (forall payload, v <> JStr payload) ->
    malformed svc obj TypeError
| record_not_iterable item_id it payload data e :
    first_value obj = Ok item_id ->
    get_item svc item_id = Ok (Some it) ->
    Py.dict_get (lit "data") it = Some (JStr payload) ->
    json_loads payload = Some data ->
    Py.iter data = Raise e ->
    malformed svc obj e.

(** ** The footprint on the event

    [attributes_only s s']: the event of [s'] is the event of [s] with
    the object under [Summary.MAIN_ENTITY.ATTRIBUTES] changed, and
    nothing else. *)
Definition attributes_only : relation state :=
  fun s s' => exists f, event s' = update_path attributes_ref f (event s).

(** The characters of a string, as Python iterates them. *)
Definition characters (text : pystr) : list pystr :=
  map (fun c => [c]) text.

(** More services for the sample table: one that refuses the first
    record with a client error, and one whose second write breaks with
    something else. *)
Module SampleFaults.

Definition svc_throttled : services := {|
  get_item := Sample.lookup;
  put_item := fun i _ =>
    match i with
    | O => Some (ClientError (lit "ProvisionedThroughputExceededException"))
    | _ => None
    end;
  GraphConnect := None;
  getOrCreateID := fun _ _ _ _ => Ok (Sample.jstr "node-1");
  connection_close := None;
  uuid4 := fun i => lit "uuid-" ++ [N.add 48 (N.of_nat i)];
  time_now := fun _ => 1700000000%Z
|}.

Definition throttled (i : nat) : option pystr :=
  match i with
  | O => Some (lit "ProvisionedThroughputExceededException")
  | _ => None
  end.

Definition svc_broken_write : services := {|
  get_item := Sample.lookup;
  put_item := fun i _ =>
    match i with
    | 1 => Some (OtherError (lit "EndpointConnectionError"))
    | _ => None
    end;
  GraphConnect := None;
  getOrCreateID := fun _ _ _ _ => Ok (Sample.jstr "node-1");
  connection_close := None;
  uuid4 := fun i => lit "uuid-" ++ [N.add 48 (N.of_nat i)];
  time_now := fun _ => 1700000000%Z
|}.

(** A table whose item under [id-5] has no [data]. *)
Definition svc_no_payload : services := {|
  get_item := fun item_id =>
    match item_id with
    | JStr s => if pystr_eqb s (lit "id-5")
                then Ok (Some [(lit "id", Sample.jstr "id-5")])
                else Sample.lookup item_id
    | _ => Sample.lookup item_id
    end;
  put_item := fun _ _ => None;
  GraphConnect := None;
  getOrCreateID := fun _ _ _ _ => Ok (Sample.jstr "node-1");
  connection_close := None;
  uuid4 := fun i => lit "uuid-" ++ [N.add 48 (N.of_nat i)];
  time_now := fun _ => 1700000000%Z
|}.

(** A batch whose main entity has an attribute that lists a number next
    to a string. *)
Definition mixed_attributes : list json :=
  [JDict [(lit "FOUNDED", JInt 1999);
          (lit "TAGS", JList [Sample.jstr "retail"; JInt 7])]].

Definition batch_with_mixed_attribute : json :=
  JDict [(lit "Summary",
          JDict [(lit "MAIN_ENTITY",
                  JDict [(lit "NAME", Sample.jstr "Acme");
                         (lit "ATTRIBUTES", JList mixed_attributes)])]);
         (lit "output", JList [Sample.reference "id-1"])].

(** A director whose role is a string, not a list of strings. *)
Definition carol : dict :=
  [(lit "TYPE", Sample.jstr "DIRECTOR"); (lit "ROLE", Sample.jstr "CEO")].

(** The batch of the scenario with [output] present and null, and the
    same batch with [Summary] null instead. *)
Definition batch_with_null_output : dict :=
  [(lit "Summary", Sample.summary); (lit "output", JNull)].

Definition batch_with_null_summary : dict :=
  [(lit "Summary", JNull); (lit "output", JList [Sample.reference "id-1"])].

End SampleFaults.

(** The record that lines 119-131 build for the [i]-th bucket, in state
    [s]. *)
Definition record_of (svc : services) (main_entity_name main_entity_id : json)
    (i : nat) (key : pystr) (bucket : list json) (s : state) : Item.t :=
  Item.make (uuid4 svc i) main_entity_name key
    (Dumps.json_dumps (JList bucket))
    (Dumps.json_dumps (value_at summary_ref (event s)))
    (Dumps.json_dumps (JList (map JStr (allEdges s))))
    main_entity_id
    (time_now svc i + 7200)%Z.
(** * Reasoning rules *)

Lemma pystr_eqb_refl (a : pystr) : pystr_eqb a a = true.
Proof.
  induction a as [|x a IH]; simpl; [reflexivity|].
  now rewrite N.eqb_refl, IH.
Qed.

Lemma pystr_eqb_eq (a b : pystr) : pystr_eqb a b = true <-> a = b.
Proof.
  split; [|intros ->; apply pystr_eqb_refl].
  revert b; induction a as [|x a IH]; intros [|y b]; simpl; try easy.
  rewrite andb_true_iff, N.eqb_eq. intros [-> H]. now rewrite (IH _ H).
Qed.

Lemma pystr_eqb_neq (a b : pystr) : pystr_eqb a b = false <-> a <> b.
Proof.
  rewrite <- pystr_eqb_eq. destruct (pystr_eqb a b); split; congruence.
Qed.

(** ** Running a computation *)

Lemma bind_ok A B (m : M A) (k : A -> M B) s s' a :
  m s = (s', Ok a) -> bind m k s = k a s'.
Proof. unfold bind. now intros ->. Qed.

Lemma bind_raise A B (m : M A) (k : A -> M B) s s' e :
  m s = (s', Raise e) -> bind m k s = (s', Raise e).
Proof. unfold bind. now intros ->. Qed.

Lemma foreach_app A (l1 l2 : list A) (body : A -> M unit) s s1 :
  foreach l1 body s = (s1, Ok tt) ->
  foreach (l1 ++ l2) body s = foreach l2 body s1.
Proof.
  revert s. induction l1 as [|x l1 IH]; simpl; intros s H.
  - now inversion H.
  - unfold bind in *. destruct (body x s) as [s0 [[]|e]]; [|discriminate].
    now apply IH.
Qed.

(** ** Rules for [stable] *)

#[export] Instance keeps_preorder A (f : state -> A) : PreOrder (keeps f).
Proof. split; unfold keeps; [easy|]. intros x y z H1 H2. congruence. Qed.

#[export] Instance preserves_preorder P : PreOrder (preserves P).
Proof. split; unfold preserves; [easy|]. intros x y z H1 H2. tauto. Qed.

Section StableRules.
Context (R : relation state) `{!PreOrder R}.

Lemma stable_ret A (a : A) : stable R (ret a).
Proof. intros s s' r H. inversion H. reflexivity. Qed.

Lemma stable_raise A e : stable R (@raise A e).
Proof. intros s s' r H. inversion H. reflexivity. Qed.

Lemma stable_lift A (o : outcome A) : stable R (lift o).
Proof. intros s s' r H. inversion H. reflexivity. Qed.

Lemma stable_gets A (f : state -> A) : stable R (gets f).
Proof. intros s s' r H. inversion H. reflexivity. Qed.

Lemma stable_modify f : (forall s, R s (f s)) -> stable R (modify f).
Proof. intros Hf s s' r H. inversion H. apply Hf. Qed.

Lemma stable_bind A B (m : M A) (k : A -> M B) :
  stable R m -> (forall a, stable R (k a)) -> stable R (bind m k).
Proof.
  intros Hm Hk s s' r. unfold bind.
  destruct (m s) as [s1 [a|e]] eqn:E; intros H.
  - transitivity s1; [exact (Hm _ _ _ E) | exact (Hk _ _ _ _ H)].
  - inversion H; subst. exact (Hm _ _ _ E).
Qed.

Lemma stable_try A (body : M A) handler :
  stable R body ->
  (forall e, match handler e with Some h => stable R h | None => True end) ->
  stable R (try_except body handler).
Proof.
  intros Hb Hh s s' r. unfold try_except.
  destruct (body s) as [s1 [a|e]] eqn:E; intros H.
  - inversion H; subst. exact (Hb _ _ _ E).
  - specialize (Hh e). destruct (handler e) as [h|].
    + transitivity s1; [exact (Hb _ _ _ E) | exact (Hh _ _ _ H)].
    + inversion H; subst. exact (Hb _ _ _ E).
Qed.

Lemma stable_foreach A (l : list A) (body : A -> M unit) :
  (forall x, stable R (body x)) -> stable R (foreach l body).
Proof.
  intros Hb. induction l as [|x l IH]; simpl.
  - apply stable_ret.
  - apply stable_bind; [apply Hb | intros _; exact IH].
Qed.

End StableRules.

(** ** Rules for [hoare] *)

Lemma hoare_weaken A (P P' : state -> Prop) (m : M A)
    (Q Q' : state -> outcome A -> Prop) :
  hoare P' m Q' ->
  (forall s, P s -> P' s) ->
  (forall s r, Q' s r -> Q s r) ->
  hoare P m Q.
Proof. intros H HP HQ s s' r Hs E. apply HQ. exact (H _ _ _ (HP _ Hs) E). Qed.

Lemma hoare_ret A (a : A) (P : state -> Prop) Q :
  (forall s, P s -> Q s (Ok a)) -> hoare P (ret a) Q.
Proof. intros H s s' r Hs E. inversion E; subst. now apply H. Qed.

Lemma hoare_lift A (o : outcome A) (P : state -> Prop) Q :
  (forall s, P s -> Q s o) -> hoare P (lift o) Q.
Proof. intros H s s' r Hs E. inversion E; subst. now apply H. Qed.

Lemma hoare_gets A (f : state -> A) (P : state -> Prop) Q :
  (forall s, P s -> Q s (Ok (f s))) -> hoare P (gets f) Q.
Proof. intros H s s' r Hs E. inversion E; subst. now apply H. Qed.

Lemma hoare_modify f (P : state -> Prop) Q :
  (forall s, P s -> Q (f s) (Ok tt)) -> hoare P (modify f) Q.
Proof. intros H s s' r Hs E. inversion E; subst. now apply H. Qed.

Lemma hoare_bind A B (m : M A) (k : A -> M B) (P : state -> Prop)
    (mid : A -> state -> Prop) (Q : state -> outcome B -> Prop) :
  hoare P m (fun s r => match r with
                        | Ok a => mid a s
                        | Raise e => Q s (Raise e)
                        end) ->
  (forall a, hoare (mid a) (k a) Q) ->
  hoare P (bind m k) Q.
Proof.
  intros Hm Hk s s' r Hs. unfold bind.
  destruct (m s) as [s1 [a|e]] eqn:E; intros H.
  - exact (Hk a _ _ _ (Hm _ _ _ Hs E) H).
  - inversion H; subst. exact (Hm _ _ _ Hs E).
Qed.

Lemma hoare_try A (body : M A) handler (P : state -> Prop)
    (caught : exn -> state -> Prop) (Q : state -> outcome A -> Prop) :
  hoare P body (fun s r => match r with
                           | Ok a => Q s (Ok a)
                           | Raise e => match handler e with
                                        | Some _ => caught e s
                                        | None => Q s (Raise e)
                                        end
                           end) ->
  (forall e, match handler e with
             | Some h => hoare (caught e) h Q
             | None => True
             end) ->
  hoare P (try_except body handler) Q.
Proof.
  intros Hb Hh s s' r Hs. unfold try_except.
  destruct (body s) as [s1 [a|e]] eqn:E; intros H.
  - inversion H; subst. exact (Hb _ _ _ Hs E).
  - specialize (Hh e). pose proof (Hb _ _ _ Hs E) as Hc. simpl in Hc.
    destruct (handler e) as [h|].
    + exact (Hh _ _ _ Hc H).
    + inversion H; subst. exact Hc.
Qed.

Lemma hoare_foreach A (l : list A) (body : A -> M unit) (I : state -> Prop)
    (Q : state -> outcome unit -> Prop) :
  (forall x, In x l ->
             hoare I (body x) (fun s r => match r with
                                          | Ok _ => I s
                                          | Raise e => Q s (Raise e)
                                          end)) ->
  (forall s, I s -> Q s (Ok tt)) ->
  hoare I (foreach l body) Q.
Proof.
  intros Hb Hend. induction l as [|x l IH]; simpl.
  - now apply hoare_ret.
  - apply hoare_bind with (mid := fun _ => I).
    + apply Hb. now left.
    + intros _. apply IH. intros y Hy. apply Hb. now right.
Qed.

(** A computation that keeps [f] keeps whatever is said of [f] alone. *)
Lemma hoare_of_keeps A B (f : state -> B) (m : M A) (P : B -> Prop) :
  stable (keeps f) m -> hoare (fun s => P (f s)) m (fun s _ => P (f s)).
Proof. intros H s s' r Hs E. now rewrite (H _ _ _ E). Qed.

(** One rule of the above, by the shape of the computation. *)
Ltac stable_step :=
  lazymatch goal with
  | |- stable _ (ret _) => apply stable_ret; try exact _
  | |- stable _ (raise _) => apply stable_raise; try exact _
  | |- stable _ (lift _) => apply stable_lift; try exact _
  | |- stable _ (gets _) => apply stable_gets; try exact _
  | |- stable _ (logger _ _) => unfold logger; apply stable_modify; intros ?
  | |- stable _ (modify _) => apply stable_modify; intros ?
  | |- stable _ (bind _ _) => apply stable_bind; [exact _ | | intros ?]
  | |- stable _ (try_except _ _) =>
      apply stable_try; [exact _ | | let e := fresh "e" in intros e; destruct e; simpl]
  | |- stable _ (foreach _ _) => apply stable_foreach; [exact _ | intros ?]
  | |- stable _ (match ?x with _ => _ end) => destruct x
  | |- True => exact I
  end.

Ltac stable_steps := repeat stable_step.

(** ** The footprint of each part of the handler *)

Section Footprint.
Context {lib : PyLib} (svc : services).
Context (R : relation state) `{!PreOrder R}.


Lemma stable_validate_input : log_closed R -> stable R validate_input.
Proof. intros HL. unfold validate_input. stable_steps; auto. Qed.

Lemma stable_create_edge key data main entity_type :
  log_closed R -> stable R (create_edge key data main entity_type).
Proof.
  intros HL. unfold create_edge, edge_creator. stable_steps; auto.
Qed.

Lemma stable_process_edge main data key :
  log_closed R -> edges_closed R ->
  stable R (process_edge main data key).
Proof.
  intros HL HE. unfold process_edge. stable_steps; auto.
  apply stable_create_edge; assumption.
Qed.

Lemma stable_process_key main data key :
  log_closed R -> results_closed R -> edges_closed R ->
  stable R (process_key main data key).
Proof.
  intros HL HR HE. unfold process_key, group_record.
  stable_steps; auto. apply stable_process_edge; assumption.
Qed.

Lemma stable_process_output_item main obj :
  log_closed R ->
  (forall data key, stable R (process_key main data key)) ->
  stable R (process_output_item svc main obj).
Proof.
  intros HL HK. unfold process_output_item, table_get_item.
  stable_steps; auto.
Qed.

Lemma stable_group_entities :
  log_closed R -> edges_closed R ->
  (forall s, R s (set_results (fun _ => []) s)) ->
  (forall main data key, stable R (process_key main data key)) ->
  stable R (group_entities svc).
Proof.
  intros HL HE HR HK. unfold group_entities. stable_steps; auto.
  apply stable_process_output_item; auto.
Qed.

Lemma stable_process_attributes i attributes processed :
  event_closed R -> stable R (process_attributes i attributes processed).
Proof.
  intros HV. revert i processed.
  induction attributes as [|a l IH]; intros i processed; simpl.
  - stable_steps.
  - unfold process_attribute. stable_steps; auto.
    unfold join_if_list. stable_steps; auto.
Qed.

Lemma stable_deref_all ps : stable R (deref_all ps).
Proof.
  induction ps as [|p ps IH]; simpl; unfold deref; stable_steps; auto.
Qed.

Lemma stable_create_main_entity main :
  log_closed R -> event_closed R -> graph_closed R ->
  stable R (create_main_entity svc main).
Proof.
  intros HL HV HG.
  unfold create_main_entity, graph_connect, graph_getOrCreateID, graph_close,
    deref.
  stable_steps; auto.
  - apply stable_process_attributes; assumption.
  - apply stable_deref_all.
Qed.

Lemma stable_store_groups main id i keys uuids :
  log_closed R ->
  (forall i key uuids, stable R (store_group svc main id i key uuids)) ->
  stable R (store_groups svc main id i keys uuids).
Proof.
  intros HL HS. revert i uuids.
  induction keys as [|k keys IH]; intros i uuids; simpl; stable_steps; auto.
Qed.

Lemma stable_store_group main id i key uuids :
  log_closed R -> table_closed R ->
  stable R (store_group svc main id i key uuids).
Proof.
  intros HL HT. unfold store_group, table_put_item, deref.
  stable_steps; auto.
Qed.

Lemma stable_store_results main id :
  log_closed R ->
  (forall i key uuids, stable R (store_group svc main id i key uuids)) ->
  stable R (store_results svc main id).
Proof.
  intros HL HS. unfold store_results. stable_steps; auto.
  apply stable_store_groups; assumption.
Qed.

End Footprint.

(** * The claims *)

Section Validation.
Context {lib : PyLib} (svc : services).

Lemma validate_input_rejects (d : dict) s :
  event s = JDict d ->
  (forall v, Py.dict_get (lit "output") d = Some v -> sized v = true) ->
  missing_or_empty (lit "Summary") d = true
  \/ missing_or_empty (lit "output") d = true ->
  exists n,
    validate_input s
    = (add_log ERROR MissingRequiredFields (add_log INFO (ProcessingEvent n) s),
       Raise (ValueError missing_fields_message)).
Proof.
  intros Hev Hsized Hmiss.
  unfold validate_input, missing_or_empty in *.
  remember (lit "Summary") as kS eqn:EkS.
  remember (lit "output") as kO eqn:EkO. clear EkS EkO.
  unfold bind at 1. unfold gets at 1. rewrite Hev.
  unfold Py.get_default, Py.get.
  destruct (Py.dict_get kO d) as [out|] eqn:Eout.
  - specialize (Hsized out eq_refl).
    assert (Hlen : exists n, Py.len out = Ok n)
      by (destruct out; try discriminate Hsized; eexists; reflexivity).
    destruct Hlen as [n Hlen]. exists n.
    unfold bind, lift, logger, modify, ret, raise. rewrite Hlen.
    destruct (Py.dict_get kS d) as [sm|]; simpl.
    + destruct (Py.truthy sm); simpl.
      * destruct Hmiss as [H|H]; [discriminate H|]. now rewrite H.
      * reflexivity.
    + reflexivity.
  - exists 0. unfold bind, lift, logger, modify, ret, raise. simpl.
    destruct (Py.dict_get kS d) as [sm|]; simpl.
    + destruct (Py.truthy sm); reflexivity.
    + reflexivity.
Qed.

(** The validation where line 31 gets past its [len]: for every input
    batch in which [Summary] or [output] is missing or empty and whose
    [output], when present, is a sequence or a mapping, the handler
    raises the input error of line 36 ([ValueError]), which is fatal;
    no result record is written and no graph call is made. *)
Theorem invalid_input_is_fatal (d : dict) :
  (forall v, Py.dict_get (lit "output") d = Some v -> sized v = true) ->
  missing_or_empty (lit "Summary") d = true
  \/ missing_or_empty (lit "output") d = true ->
  snd (invoke svc (JDict d)) = Raise (ValueError missing_fields_message)
  /\ table (fst (invoke svc (JDict d))) = []
  /\ graph (fst (invoke svc (JDict d))) = [].
Proof.
  intros Hsized Hmiss.
  destruct (@validate_input_rejects d (init_state (JDict d)) eq_refl Hsized Hmiss)
    as [n Hv].
  unfold invoke, lambda_handler, try_except.
  rewrite bind_raise with (1 := Hv). simpl. auto.
Qed.

(** Line 31 takes the length of [output] ahead of the validation: an
    [output] that is present and has no length, null among them, ends
    the invocation there with a [TypeError], and the validation of line
    34 is never reached. *)
Lemma output_without_length_raises (d : dict) v :
  Py.dict_get (lit "output") d = Some v ->
  sized v = false ->
  snd (invoke svc (JDict d)) = Raise TypeError
  /\ table (fst (invoke svc (JDict d))) = []
  /\ graph (fst (invoke svc (JDict d))) = [].
Proof.
  intros Ho Hs.
  assert (Hv : validate_input (init_state (JDict d))
               = (init_state (JDict d), Raise TypeError)).
  { unfold validate_input. unfold bind at 1. unfold gets at 1.
    cbn [event init_state]. unfold Py.get_default. rewrite Ho.
    unfold bind, lift. destruct v; try discriminate Hs; reflexivity. }
  unfold invoke, lambda_handler, try_except.
  rewrite bind_raise with (1 := Hv). simpl. auto.
Qed.

End Validation.

(** C2.  The claim fails on a batch whose [output] is present and null,
    which the validation of line 34 counts as missing: the invocation
    is fatal and nothing is written or sent to the graph, but the
    exception is the [TypeError] of line 31, not the input error of
    line 36.  The same batch with [Summary] null instead does get the
    input error. *)
Theorem null_output_is_a_type_error :
  missing_or_empty (lit "output") SampleFaults.batch_with_null_output = true
  /\ snd (@invoke Sample.lib Sample.svc
            (JDict SampleFaults.batch_with_null_output))
     = Raise TypeError
  /\ table (fst (@invoke Sample.lib Sample.svc
                   (JDict SampleFaults.batch_with_null_output))) = []
  /\ graph (fst (@invoke Sample.lib Sample.svc
                   (JDict SampleFaults.batch_with_null_output))) = []
  /\ missing_or_empty (lit "Summary") SampleFaults.batch_with_null_summary
     = true
  /\ snd (@invoke Sample.lib Sample.svc
            (JDict SampleFaults.batch_with_null_summary))
     = Raise (ValueError missing_fields_message).
Proof.
  split; [reflexivity|].
  destruct (@output_without_length_raises Sample.lib Sample.svc
              SampleFaults.batch_with_null_output JNull eq_refl eq_refl)
    as (Hr & Ht & Hg).
  split; [exact Hr|]. split; [exact Ht|]. split; [exact Hg|].
  split; [reflexivity|]. vm_compute. reflexivity.
Qed.

Lemma invalid_input_is_fatal_witness :
  (forall v, Py.dict_get (lit "output") Sample.batch_without_summary = Some v ->
             sized v = true)
  /\ (missing_or_empty (lit "Summary") Sample.batch_without_summary = true
      \/ missing_or_empty (lit "output") Sample.batch_without_summary = true)
  /\ snd (@invoke Sample.lib Sample.svc (JDict Sample.batch_without_summary))
     = Raise (ValueError missing_fields_message)
  /\ table (fst (@invoke Sample.lib Sample.svc (JDict Sample.batch_without_summary))) = []
  /\ graph (fst (@invoke Sample.lib Sample.svc (JDict Sample.batch_without_summary))) = [].
Proof.
  assert (H1 : forall v, Py.dict_get (lit "output") Sample.batch_without_summary = Some v ->
                         sized v = true).
  { intros v H. vm_compute in H. injection H as <-. reflexivity. }
  assert (H2 : missing_or_empty (lit "Summary") Sample.batch_without_summary = true
               \/ missing_or_empty (lit "output") Sample.batch_without_summary = true).
  { left. reflexivity. }
  split; [exact H1|]. split; [exact H2|].
  exact (@invalid_input_is_fatal Sample.lib Sample.svc _ H1 H2).
Defined.

(** An [output] that is present and has no length, such as [None], stops
    the handler on line 31, ahead of the validation: the exception is a
    [TypeError], fatal all the same, and nothing is written. *)
Example output_without_length_is_fatal :
  snd (@invoke Sample.lib Sample.svc (JDict [(lit "output", JNull)]))
  = Raise TypeError
  /\ table (fst (@invoke Sample.lib Sample.svc (JDict [(lit "output", JNull)]))) = []
  /\ graph (fst (@invoke Sample.lib Sample.svc (JDict [(lit "output", JNull)]))) = [].
Proof. repeat split; vm_compute; reflexivity. Qed.

Section Edges.
Context {lib : PyLib}.

Lemma edge_mappings_get_kind kind :
  edge_mappings_get (JStr (kind_name kind)) = Ok (Some kind).
Proof. destruct kind; reflexivity. Qed.

Lemma edge_mappings_get_unknown t :
  hashable t = true ->
  (forall kind, t <> JStr (kind_name kind)) ->
  edge_mappings_get t = Ok None.
Proof.
  intros Hh Hn. destruct t; try reflexivity; try discriminate Hh.
  unfold edge_mappings_get.
  destruct (pystr_eqb s (lit "CUSTOMER")) eqn:E1;
    [apply pystr_eqb_eq in E1; subst; now destruct (Hn CUSTOMER)|].
  destruct (pystr_eqb s (lit "SUPPLIER")) eqn:E2;
    [apply pystr_eqb_eq in E2; subst; now destruct (Hn SUPPLIER)|].
  destruct (pystr_eqb s (lit "COMPETITOR")) eqn:E3;
    [apply pystr_eqb_eq in E3; subst; now destruct (Hn COMPETITOR)|].
  destruct (pystr_eqb s (lit "DIRECTOR")) eqn:E4;
    [apply pystr_eqb_eq in E4; subst; now destruct (Hn DIRECTOR)|].
  reflexivity.
Qed.

Lemma all_str_map values : Py.all_str (map JStr values) = Some values.
Proof.
  induction values as [|v l IH]; simpl; [reflexivity|]. now rewrite IH.
Qed.

Lemma join_strings sep values :
  Py.join sep (JList (map JStr values)) = Ok (str_join sep values).
Proof. unfold Py.join; simpl. now rewrite all_str_map. Qed.

Lemma template_of_kind key kind joined main :
  key ++ kind_prefix kind ++ joined ++ lit ") " ++ main
  = key ++ lit " is a " ++ relation_word kind ++ lit " of (" ++ qualifier kind
    ++ joined ++ lit ") " ++ main.
Proof.
  f_equal. destruct kind; simpl; reflexivity.
Qed.

Lemma create_edge_recognized kind key d values main s :
  Py.dict_get (kind_attribute kind) d = Some (JList (map JStr values)) ->
  create_edge (JStr key) (JDict d) (JStr main) (JStr (kind_name kind)) s
  = (s, Ok (Some (edge_template key kind values main))).
Proof.
  intros Hattr. unfold create_edge, edge_creator, bind, lift, ret.
  rewrite edge_mappings_get_kind. simpl Py.subscript. rewrite Hattr.
  rewrite join_strings. unfold format, edge_template.
  now rewrite template_of_kind.
Qed.

Lemma create_edge_missing_attribute kind key d main s :
  Py.dict_get (kind_attribute kind) d = None ->
  create_edge key (JDict d) main (JStr (kind_name kind)) s
  = (s, Raise (KeyError (JStr (kind_attribute kind)))).
Proof.
  intros Hattr. unfold create_edge, edge_creator, bind, lift, ret.
  rewrite edge_mappings_get_kind. simpl Py.subscript. now rewrite Hattr.
Qed.

Lemma create_edge_unknown key data main t s :
  hashable t = true ->
  (forall kind, t <> JStr (kind_name kind)) ->
  create_edge key data main t s
  = (add_log WARNING (UnknownEntityType t) s, Ok None).
Proof.
  intros Hh Hn. unfold create_edge, bind, lift.
  now rewrite edge_mappings_get_unknown.
Qed.

Lemma create_edge_unhashable key data main t s :
  hashable t = false ->
  create_edge key data main t s = (s, Raise TypeError).
Proof.
  intros Hh. destruct t; try discriminate Hh; reflexivity.
Qed.


Lemma edge_template_nonempty key kind values main :
  exists c rest, edge_template key kind values main = c :: rest.
Proof.
  unfold edge_template. destruct key as [|c key]; simpl; eauto.
Qed.

Lemma group_record_str data k c rest v s :
  k = c :: rest ->
  Py.dict_get k data = Some v ->
  group_record (JDict data) (JStr k) s
  = (set_results (grouped (bucket_key c) (pair k v)) s, Ok tt).
Proof.
  intros -> Hv. unfold group_record, bucket_key, grouped, pair.
  unfold bind, lift, modify, ret. simpl Py.subscript. rewrite Hv.
  cbn [Py.list_index map Z.ltb Z.compare Z.to_nat nth_error List.length].
  cbn [isalpha upper str_isalpha str_upper forallb flat_map].
  rewrite andb_true_r.
  destruct (char_isalpha c); [|reflexivity].
  simpl Py.subscript.
  cbn [Py.list_index map Z.ltb Z.compare Z.to_nat nth_error List.length].
  cbn [upper str_upper flat_map]. now rewrite app_nil_r.
Qed.

Lemma process_edge_recognized kind main data k d values s :
  Py.dict_get k data = Some (JDict d) ->
  Py.dict_get (lit "TYPE") d = Some (JStr (kind_name kind)) ->
  Py.dict_get (kind_attribute kind) d = Some (JList (map JStr values)) ->
  process_edge (JStr main) (JDict data) (JStr k) s
  = (set_allEdges (fun l => l ++ [edge_template k kind values main]) s, Ok tt).
Proof.
  intros Hk Ht Ha. unfold process_edge.
  unfold bind at 1. unfold lift at 1. simpl Py.subscript. rewrite Hk.
  unfold bind at 1. unfold lift at 1. unfold Py.get. rewrite Ht.
  replace (Py.truthy (JStr (kind_name kind))) with true by (now destruct kind).
  unfold bind at 1. unfold lift at 1.
  unfold bind. rewrite create_edge_recognized with (1 := Ha).
  destruct (edge_template_nonempty k kind values main) as (c & rest & ->).
  reflexivity.
Qed.

Lemma process_edge_missing_attribute kind main data k d s :
  Py.dict_get k data = Some (JDict d) ->
  Py.dict_get (lit "TYPE") d = Some (JStr (kind_name kind)) ->
  Py.dict_get (kind_attribute kind) d = None ->
  process_edge main (JDict data) (JStr k) s
  = (s, Raise (KeyError (JStr (kind_attribute kind)))).
Proof.
  intros Hk Ht Ha. unfold process_edge.
  unfold bind at 1. unfold lift at 1. simpl Py.subscript. rewrite Hk.
  unfold bind at 1. unfold lift at 1. unfold Py.get. rewrite Ht.
  replace (Py.truthy (JStr (kind_name kind))) with true by (now destruct kind).
  unfold bind at 1. unfold lift at 1.
  unfold bind. now rewrite create_edge_missing_attribute with (1 := Ha).
Qed.

Lemma process_edge_unknown main data k d t s :
  Py.dict_get k data = Some (JDict d) ->
  Py.dict_get (lit "TYPE") d = Some t ->
  (Py.truthy t = true -> hashable t = true) ->
  (forall kind, t <> JStr (kind_name kind)) ->
  process_edge main (JDict data) (JStr k) s
  = (if Py.truthy t then add_log WARNING (UnknownEntityType t) s else s, Ok tt).
Proof.
  intros Hk Ht Hh Hn. unfold process_edge.
  unfold bind at 1. unfold lift at 1. simpl Py.subscript. rewrite Hk.
  unfold bind at 1. unfold lift at 1. unfold Py.get. rewrite Ht.
  destruct (Py.truthy t); [|reflexivity].
  unfold bind at 1. unfold lift at 1.
  unfold bind. now rewrite create_edge_unknown with (1 := Hh eq_refl) (2 := Hn).
Qed.

Lemma process_edge_untyped main data k d s :
  Py.dict_get k data = Some (JDict d) ->
  Py.dict_get (lit "TYPE") d = None ->
  process_edge main (JDict data) (JStr k) s = (s, Ok tt).
Proof.
  intros Hk Ht. unfold process_edge.
  unfold bind at 1. unfold lift at 1. simpl Py.subscript. rewrite Hk.
  unfold bind at 1. unfold lift at 1. unfold Py.get. now rewrite Ht.
Qed.

Lemma process_key_str main data k c rest v s :
  k = c :: rest ->
  Py.dict_get k data = Some v ->
  process_key main (JDict data) (JStr k) s
  = process_edge main (JDict data) (JStr k)
      (set_results (grouped (bucket_key c) (pair k v)) s).
Proof.
  intros Hk Hv. unfold process_key. subst k. cbn [Py.truthy negb].
  unfold bind. now rewrite group_record_str with (1 := eq_refl) (2 := Hv).
Qed.

End Edges.

(** ** Buckets *)

Lemma bucket_get_app_other k k' b r :
  pystr_eqb k k' = false ->
  bucket_get k (r ++ [(k', b)]) = bucket_get k r.
Proof.
  intros Hne. induction r as [|[k0 b0] r IH]; simpl.
  - now rewrite Hne.
  - destruct (pystr_eqb k k0); [reflexivity | exact IH].
Qed.

Lemma bucket_get_setdefault k r :
  bucket_get k (setdefault k r) = Some (bucket_of k r).
Proof.
  unfold setdefault, bucket_of.
  destruct (bucket_get k r) as [b|] eqn:E; [exact E|].
  induction r as [|[k0 b0] r IH]; simpl in *.
  - now rewrite pystr_eqb_refl.
  - destruct (pystr_eqb k k0); [discriminate E | now apply IH].
Qed.

Lemma bucket_get_setdefault_other k k' r :
  k' <> k -> bucket_get k' (setdefault k r) = bucket_get k' r.
Proof.
  intros Hne. unfold setdefault. destruct (bucket_get k r); [reflexivity|].
  apply bucket_get_app_other. now apply pystr_eqb_neq.
Qed.

Lemma bucket_get_append k x r b :
  bucket_get k r = Some b ->
  bucket_get k (bucket_append k x r) = Some (b ++ [x]).
Proof.
  induction r as [|[k0 b0] r IH]; simpl; [discriminate|].
  destruct (pystr_eqb k k0) eqn:E; simpl; rewrite E.
  - now intros [= ->].
  - exact IH.
Qed.

Lemma bucket_get_append_other k k' x r :
  k' <> k -> bucket_get k' (bucket_append k x r) = bucket_get k' r.
Proof.
  intros Hne. induction r as [|[k0 b0] r IH]; simpl; [reflexivity|].
  destruct (pystr_eqb k k0) eqn:E; simpl.
  - apply pystr_eqb_eq in E. subst k0.
    apply pystr_eqb_neq in Hne. now rewrite Hne.
  - destruct (pystr_eqb k' k0); [reflexivity | exact IH].
Qed.

Lemma bucket_get_grouped k x r :
  bucket_get k (grouped k x r) = Some (bucket_of k r ++ [x]).
Proof.
  unfold grouped. apply bucket_get_append, bucket_get_setdefault.
Qed.

Lemma bucket_get_grouped_other k k' x r :
  k' <> k -> bucket_get k' (grouped k x r) = bucket_get k' r.
Proof.
  intros Hne. unfold grouped.
  rewrite bucket_get_append_other by exact Hne.
  now apply bucket_get_setdefault_other.
Qed.

Section Grouping.
Context {lib : PyLib}.

Lemma process_edge_keeps_results main data key :
  stable (keeps results) (process_edge main data key).
Proof.
  unfold process_edge. stable_steps; try reflexivity.
  apply stable_create_edge; [exact _ | intros l m s0; reflexivity].
Qed.

(** C7.  For every non-empty entity key of a resolved record, the pair is
    appended under the key's first character upper-cased when that
    character is alphabetic, and under [#] otherwise: after the key is
    processed the bucket under that bucket key is what it was, followed
    by the pair, and every other bucket is as before.  In particular the
    entity key [3M] goes under [#]. *)
Theorem bucket_key_is_initial main data key c rest v s :
  key = c :: rest ->
  Py.dict_get key data = Some v ->
  let first_char := if char_isalpha c then char_upper c else lit "#" in
  let s' := fst (process_key main (JDict data) (JStr key) s) in
  bucket_get first_char (results s')
  = Some (bucket_of first_char (results s) ++ [pair key v])
  /\ (forall k, k <> first_char -> bucket_get k (results s') = bucket_get k (results s))
  /\ (key = lit "3M" -> first_char = lit "#").
Proof.
  intros Hk Hv first_char s'.
  assert (Hres : results s' = grouped first_char (pair key v) (results s)).
  { unfold s'. rewrite process_key_str with (1 := Hk) (2 := Hv).
    destruct (process_edge main (JDict data) (JStr key)
                (set_results (grouped (bucket_key c) (pair key v)) s))
      as [s1 r] eqn:E.
    apply process_edge_keeps_results in E. exact E. }
  rewrite Hres. split; [apply bucket_get_grouped|].
  split; [intros k Hne; now apply bucket_get_grouped_other|].
  intros ->. injection Hk as <- _. reflexivity.
Qed.

End Grouping.

Lemma bucket_key_is_initial_witness :
  lit "3M" = 51%N :: [77%N]
  /\ Py.dict_get (lit "3M") [(lit "3M", JDict [])] = Some (JDict [])
  /\ bucket_get (lit "#")
       (results (fst (@process_key Sample.lib (JStr (lit "Acme"))
                        (JDict [(lit "3M", JDict [])]) (JStr (lit "3M"))
                        (init_state JNull))))
     = Some ([] ++ [pair (lit "3M") (JDict [])]).
Proof.
  split; [reflexivity|]. split; [reflexivity|].
  exact (proj1 (@bucket_key_is_initial Sample.lib (JStr (lit "Acme"))
                  [(lit "3M", JDict [])] (lit "3M") 51%N [77%N] (JDict [])
                  (init_state JNull) eq_refl eq_refl)).
Defined.

Section EdgeClaims.
Context {lib : PyLib}.

(** C3.  For every entity descriptor that declares one of the four
    recognized types (its type-specific attribute being a sequence of
    strings, as in the data model), exactly one edge string is derived
    and it is the edge of the specification's template, with the
    qualifier label of the type; the pair appends that one edge to the
    edge list.  In particular the pair Bob, director with role CEO, of
    main entity Acme yields "Bob is a director of (ROLE: CEO) Acme". *)
Theorem recognized_type_derives_one_edge kind key main data d values s :
  Py.dict_get key data = Some (JDict d) ->
  Py.dict_get (lit "TYPE") d = Some (JStr (kind_name kind)) ->
  Py.dict_get (kind_attribute kind) d = Some (JList (map JStr values)) ->
  create_edge (JStr key) (JDict d) (JStr main) (JStr (kind_name kind)) s
  = (s, Ok (Some (edge_template key kind values main)))
  /\ process_edge (JStr main) (JDict data) (JStr key) s
     = (set_allEdges (fun l => l ++ [edge_template key kind values main]) s,
        Ok tt)
  /\ create_edge (JStr (lit "Bob"))
       (JDict [(lit "TYPE", JStr (lit "DIRECTOR"));
               (lit "ROLE", JList [JStr (lit "CEO")])])
       (JStr (lit "Acme")) (JStr (lit "DIRECTOR")) s
     = (s, Ok (Some (lit "Bob is a director of (ROLE: CEO) Acme"))).
Proof.
  intros Hk Ht Ha. split; [|split].
  - now apply create_edge_recognized.
  - now apply process_edge_recognized with (d := d).
  - exact (@create_edge_recognized lib DIRECTOR (lit "Bob")
             [(lit "TYPE", JStr (lit "DIRECTOR"));
              (lit "ROLE", JList [JStr (lit "CEO")])]
             [lit "CEO"] (lit "Acme") s eq_refl).
Qed.

(** C8, as amended.  A [TYPE] value outside the four recognized ones
    never makes edge derivation raise, provided it can be hashed when it
    is truthy: the pair contributes no edge and processing goes on to the
    next key.  The warning is logged exactly when the value is truthy; a
    falsy value (the empty string, [None], [0], [False], an empty list or
    dictionary) fails the test of line 75, so [create_edge] is not called
    and nothing is logged. *)
Theorem unknown_type_contributes_no_edge main data key d t s :
  Py.dict_get key data = Some (JDict d) ->
  Py.dict_get (lit "TYPE") d = Some t ->
  (forall kind, t <> JStr (kind_name kind)) ->
  (Py.truthy t = true -> hashable t = true) ->
  snd (process_edge main (JDict data) (JStr key) s) = Ok tt
  /\ allEdges (fst (process_edge main (JDict data) (JStr key) s)) = allEdges s
  /\ log (fst (process_edge main (JDict data) (JStr key) s))
     = (if Py.truthy t then log s ++ [(WARNING, UnknownEntityType t)] else log s).
Proof.
  intros Hk Ht Hn Hh.
  rewrite process_edge_unknown with (1 := Hk) (2 := Ht) (3 := Hh) (4 := Hn).
  destruct (Py.truthy t); simpl; auto.
Qed.

End EdgeClaims.

Lemma recognized_type_derives_one_edge_witness :
  Py.dict_get (lit "3M") Sample.entities = Some (JDict Sample.three_m)
  /\ Py.dict_get (lit "TYPE") Sample.three_m = Some (JStr (kind_name CUSTOMER))
  /\ Py.dict_get (kind_attribute CUSTOMER) Sample.three_m
     = Some (JList (map JStr [lit "glue"; lit "tape"]))
  /\ @process_edge Sample.lib (JStr (lit "Acme")) (JDict Sample.entities)
       (JStr (lit "3M")) (init_state JNull)
     = (set_allEdges
          (fun l => l ++ [edge_template (lit "3M") CUSTOMER
                            [lit "glue"; lit "tape"] (lit "Acme")])
          (init_state JNull), Ok tt).
Proof.
  split; [reflexivity|]. split; [reflexivity|]. split; [reflexivity|].
  exact (proj1 (proj2 (@recognized_type_derives_one_edge Sample.lib CUSTOMER
           (lit "3M") (lit "Acme") Sample.entities Sample.three_m
           [lit "glue"; lit "tape"] (init_state JNull)
           eq_refl eq_refl eq_refl))).
Defined.

Lemma unknown_type_contributes_no_edge_witness :
  Py.dict_get (lit "bert") Sample.entities = Some (JDict Sample.bert)
  /\ Py.dict_get (lit "TYPE") Sample.bert = Some (JStr (lit "ALIEN"))
  /\ (forall kind, JStr (lit "ALIEN") <> JStr (kind_name kind))
  /\ (Py.truthy (JStr (lit "ALIEN")) = true -> hashable (JStr (lit "ALIEN")) = true)
  /\ log (fst (@process_edge Sample.lib (JStr (lit "Acme"))
                 (JDict Sample.entities) (JStr (lit "bert")) (init_state JNull)))
     = [(WARNING, UnknownEntityType (JStr (lit "ALIEN")))].
Proof.
  assert (Hn : forall kind, JStr (lit "ALIEN") <> JStr (kind_name kind))
    by (intros kind; destruct kind; discriminate).
  split; [reflexivity|]. split; [reflexivity|]. split; [exact Hn|].
  split; [reflexivity|].
  exact (proj2 (proj2 (@unknown_type_contributes_no_edge Sample.lib
           (JStr (lit "Acme")) Sample.entities (lit "bert") Sample.bert
           (JStr (lit "ALIEN")) (init_state JNull)
           eq_refl eq_refl Hn (fun _ => eq_refl)))).
Defined.

(** C8 as worded does not hold: a descriptor whose [TYPE] is the empty
    string has a [TYPE] that is present and is none of the four, and no
    warning is logged for it. *)
Lemma empty_type_is_not_warned : ~ (exists lib : PyLib, @unknown_type_warns lib).
Proof.
  intros [lib H].
  destruct (H (JStr (lit "Acme"))
              [(lit "X", JDict [(lit "TYPE", JStr [])])] (lit "X")
              [(lit "TYPE", JStr [])] (JStr []) (init_state JNull)
              eq_refl eq_refl) as (_ & _ & Hlog).
  - intros kind; destruct kind; discriminate.
  - discriminate Hlog.
Qed.

(** A [TYPE] that is a non-empty list cannot be hashed: the lookup in
    [edge_mappings] raises, and the exception is none that line 82 or
    line 85 catches. *)
Example list_type_raises :
  @process_edge Sample.lib (JStr (lit "Acme"))
    (JDict [(lit "X", JDict [(lit "TYPE", JList [JStr (lit "CUSTOMER")])])])
    (JStr (lit "X")) (init_state JNull)
  = (init_state JNull, Raise TypeError).
Proof. reflexivity. Qed.

(** ** What the buckets hold *)

Lemma in_setdefault k kb b r :
  In (kb, b) (setdefault k r) -> In (kb, b) r \/ b = [].
Proof.
  unfold setdefault. destruct (bucket_get k r); [now left|].
  rewrite in_app_iff. intros [H|[H|[]]]; [now left|]. right. congruence.
Qed.

Lemma in_bucket_append k x kb b r :
  In (kb, b) (bucket_append k x r) ->
  In (kb, b) r \/ exists b0, In (kb, b0) r /\ b = b0 ++ [x].
Proof.
  induction r as [|[k0 b0] r IH]; simpl; [tauto|].
  destruct (pystr_eqb k k0); simpl.
  - intros [H|H]; [|now left; right].
    right. exists b0. split; [left|]; congruence.
  - intros [H|H]; [now left; left|].
    destruct (IH H) as [H'|(b1 & H1 & H2)]; [now left; right|].
    right. exists b1. split; [now right | exact H2].
Qed.

Lemma all_pairs_nil P : all_pairs P [].
Proof. intros k b x []. Qed.

Lemma all_pairs_setdefault P k r : all_pairs P r -> all_pairs P (setdefault k r).
Proof.
  intros H kb b x Hb Hx. apply in_setdefault in Hb. destruct Hb as [Hb| ->].
  - eapply H; eassumption.
  - destruct Hx.
Qed.

Lemma all_pairs_grouped P k x r :
  all_pairs P r -> P x -> all_pairs P (grouped k x r).
Proof.
  intros H Hx kb b y Hb Hy. unfold grouped in Hb.
  apply (all_pairs_setdefault k) in H.
  apply in_bucket_append in Hb. destruct Hb as [Hb|(b0 & Hb0 & ->)].
  - eapply H; eassumption.
  - apply in_app_iff in Hy. destruct Hy as [Hy|[<-|[]]]; [|exact Hx].
    eapply H; eassumption.
Qed.

Lemma all_pairs_impl (P Q : json -> Prop) r :
  (forall x, P x -> Q x) -> all_pairs P r -> all_pairs Q r.
Proof. intros HPQ H k b x Hb Hx. apply HPQ. eapply H; eassumption. Qed.

Section GroupRecord.
Context {lib : PyLib}.

Lemma subscript_first_nonempty k c :
  Py.subscript (JStr k) (JInt 0) = Ok c -> k <> [].
Proof. intros H ->. discriminate H. Qed.

(** [group_record] either appends the pair of a non-empty string key, or
    raises having at most created an empty bucket. *)
Lemma group_record_cases data key s s1 r :
  group_record data key s = (s1, r) ->
  (exists fc k value,
      r = Ok tt /\ key = JStr k /\ k <> []
      /\ Py.subscript data key = Ok value
      /\ s1 = set_results (grouped fc (pair k value)) s)
  \/ (exists e, r = Raise e
                /\ (s1 = s \/ exists fc, s1 = set_results (setdefault fc) s)).
Proof.
  unfold group_record, bind, lift, modify, ret. intros H.
  destruct (Py.subscript key (JInt 0)) as [c|e] eqn:Ec;
    [|right; inversion H; eauto].
  destruct (isalpha c) as [alpha|e] eqn:Ea; [|right; inversion H; eauto].
  assert (Htail : forall fc,
             match Py.subscript data key with
             | Ok value =>
                 match match key with
                       | JStr k => Ok k
                       | _ => Raise TypeError
                       end with
                 | Ok k =>
                     (set_results (bucket_append fc (JDict [(k, value)]))
                        (set_results (setdefault fc) s), Ok tt)
                 | Raise e => (set_results (setdefault fc) s, Raise e)
                 end
             | Raise e => (set_results (setdefault fc) s, Raise e)
             end = (s1, r) ->
             (exists fc k value,
                 r = Ok tt /\ key = JStr k /\ k <> []
                 /\ Py.subscript data key = Ok value
                 /\ s1 = set_results (grouped fc (pair k value)) s)
             \/ (exists e, r = Raise e
                           /\ (s1 = s \/ exists fc, s1 = set_results (setdefault fc) s))).
  { intros fc Ht.
    destruct (Py.subscript data key) as [value|e] eqn:Ev;
      [|right; inversion Ht; eauto].
    destruct key as [| | |k| |]; try (right; inversion Ht; now eauto).
    left. exists fc, k, value. inversion Ht; subst.
    repeat split. exact (subscript_first_nonempty Ec). }
  destruct alpha; cbv beta iota in H.
  - destruct (upper c) as [fc|e]; [|right; inversion H; eauto].
    exact (Htail fc H).
  - exact (Htail (lit "#") H).
Qed.

End GroupRecord.

(** ** Non-empty entity keys *)

Section NonEmptyKeys.
Context {lib : PyLib} (svc : services).

Lemma process_key_keeps_keys main data key :
  stable (preserves keys_nonempty) (process_key main data key).
Proof.
  unfold process_key. destruct (negb (Py.truthy key)).
  - apply stable_ret; exact _.
  - apply stable_bind; [exact _ | | intros _].
    + intros s s1 r E [Hres Htab]. apply group_record_cases in E.
      destruct E as [(fc & k & value & _ & _ & Hk & _ & ->)
                    |(e & _ & [-> | (fc & ->)])].
      * split; [|exact Htab]. apply all_pairs_grouped; [exact Hres|].
        exists k, value. now split.
      * now split.
      * split; [|exact Htab]. now apply all_pairs_setdefault.
    + apply stable_process_edge; [exact _ | |]; repeat intro; assumption.
Qed.

Lemma bucket_get_in k r b : bucket_get k r = Some b -> In (k, b) r.
Proof.
  induction r as [|[k0 b0] r IH]; simpl; [discriminate|].
  destruct (pystr_eqb k k0) eqn:E.
  - apply pystr_eqb_eq in E. intros [= ->]. left. now subst.
  - intros H. right. now apply IH.
Qed.

Lemma store_group_keeps_keys main id i key uuids :
  stable (preserves keys_nonempty) (store_group svc main id i key uuids).
Proof.
  intros s s' r E [Hres Htab].
  unfold store_group, try_except, table_put_item, deref, logger in E.
  unfold bind, gets, lift, modify, raise, ret in E.
  destruct (bucket_get key (results s)) as [bucket|] eqn:Eb.
  - destruct (put_item svc i _) as [e|] eqn:Ep.
    + destruct e; inversion E; subst; now split.
    + inversion E; subst. split; [exact Hres|].
      intros it Hit. cbn in Hit. apply in_app_iff in Hit.
      destruct Hit as [Hit|[<-|[]]]; [now apply Htab|].
      exists bucket. split; [reflexivity|].
      apply Forall_forall. intros x Hx.
      apply bucket_get_in in Eb. eapply Hres; eassumption.
  - inversion E; subst. now split.
Qed.

Lemma lambda_handler_keeps_keys :
  stable (preserves keys_nonempty) (lambda_handler svc).
Proof.
  assert (HL : log_closed (preserves keys_nonempty))
    by (repeat intro; assumption).
  assert (HE : edges_closed (preserves keys_nonempty))
    by (repeat intro; assumption).
  assert (HV : event_closed (preserves keys_nonempty))
    by (repeat intro; assumption).
  assert (HG : graph_closed (preserves keys_nonempty))
    by (repeat intro; assumption).
  unfold lambda_handler. stable_steps; auto.
  - apply stable_validate_input; [exact _ | assumption].
  - apply stable_group_entities; try assumption; try exact _.
    + intros s [_ Htab]. split; [apply all_pairs_nil | exact Htab].
    + intros. apply process_key_keeps_keys.
  - apply stable_create_main_entity; try assumption; exact _.
  - apply stable_store_results; try assumption; try exact _.
    intros. apply store_group_keeps_keys.
Qed.

(** C9.  In every invocation, on every batch and whatever the stored
    records hold, a pair whose entity key is the empty string is skipped,
    and every pair of every bucket, as of every record written from a
    bucket, has a non-empty entity key. *)
Theorem empty_keys_are_never_grouped :
  (forall main data s, process_key main data (JStr []) s = (s, Ok tt))
  /\ (forall ev, keys_nonempty (fst (invoke svc ev))).
Proof.
  split; [reflexivity|]. intros ev. unfold invoke.
  destruct (lambda_handler svc (init_state ev)) as [s r] eqn:E.
  apply lambda_handler_keeps_keys in E. apply E.
  split; [apply all_pairs_nil | intros it []].
Qed.

End NonEmptyKeys.

(** ** A recognized type without its attribute *)

Section MissingAttribute.
Context {lib : PyLib} (svc : services).

Lemma clean_blamed s e : clean s -> blamed s e.
Proof.
  intros H k b x Hb Hx a Ha. rewrite (H _ _ _ Hb Hx) in Ha. discriminate.
Qed.

Lemma blamed_clean s e :
  blamed s e ->
  match e with Some (KeyError (JStr _)) => False | _ => True end ->
  clean s.
Proof.
  intros H He k b x Hb Hx. destruct (lacks x) as [a|] eqn:Ea; [|reflexivity].
  rewrite (H _ _ _ Hb Hx a Ea) in He. destruct He.
Qed.

Lemma lacks_pair key d kind :
  Py.dict_get (lit "TYPE") d = Some (JStr (kind_name kind)) ->
  Py.dict_get (kind_attribute kind) d = None ->
  lacks (pair key (JDict d)) = Some (kind_attribute kind).
Proof.
  intros Ht Ha. unfold lacks, pair. rewrite Ht, edge_mappings_get_kind.
  now rewrite Ha.
Qed.

Lemma edge_mappings_get_some t kind :
  edge_mappings_get t = Ok (Some kind) -> t = JStr (kind_name kind).
Proof.
  destruct t; try discriminate. unfold edge_mappings_get.
  destruct (pystr_eqb s (lit "CUSTOMER")) eqn:E1;
    [apply pystr_eqb_eq in E1; now intros [= <-]; subst|].
  destruct (pystr_eqb s (lit "SUPPLIER")) eqn:E2;
    [apply pystr_eqb_eq in E2; now intros [= <-]; subst|].
  destruct (pystr_eqb s (lit "COMPETITOR")) eqn:E3;
    [apply pystr_eqb_eq in E3; now intros [= <-]; subst|].
  destruct (pystr_eqb s (lit "DIRECTOR")) eqn:E4;
    [apply pystr_eqb_eq in E4; now intros [= <-]; subst|].
  discriminate.
Qed.

(** What [lacks] says of a pair is what edge derivation does with it. *)
Lemma process_edge_lacking main data k value a s :
  Py.subscript data (JStr k) = Ok value ->
  lacks (pair k value) = Some a ->
  process_edge main data (JStr k) s = (s, Raise (KeyError (JStr a))).
Proof.
  intros Hv Hl. unfold lacks, pair in Hl.
  destruct value as [| | | | |d]; try discriminate Hl.
  destruct (Py.dict_get (lit "TYPE") d) as [t|] eqn:Et; [|discriminate Hl].
  destruct (edge_mappings_get t) as [[kind|]|] eqn:Em; try discriminate Hl.
  destruct (Py.dict_get (kind_attribute kind) d) eqn:Ea; [discriminate Hl|].
  injection Hl as <-. apply edge_mappings_get_some in Em. subst t.
  unfold process_edge, bind, lift. rewrite Hv. unfold Py.get. rewrite Et.
  replace (Py.truthy (JStr (kind_name kind))) with true by (now destruct kind).
  now rewrite create_edge_missing_attribute with (1 := Ea).
Qed.

Lemma process_key_blames main data key :
  hoare clean (process_key main data key) (fun s r => blamed s (raised r)).
Proof.
  intros s s' r Hs E. unfold process_key in E.
  destruct (negb (Py.truthy key)).
  { inversion E; subst. now apply clean_blamed. }
  unfold bind in E.
  destruct (group_record data key s) as [s1 r1] eqn:Eg.
  apply group_record_cases in Eg.
  destruct Eg as [(fc & k & value & -> & -> & Hk & Hv & ->)
                 |(e & -> & [-> | (fc & ->)])].
  - destruct (lacks (pair k value)) as [a|] eqn:El.
    + rewrite process_edge_lacking with (1 := Hv) (2 := El) in E.
      inversion E; subst. cbn.
      apply all_pairs_grouped.
      * eapply all_pairs_impl; [|exact Hs]. cbv beta. intros x Hx a' Ha'.
        rewrite Hx in Ha'. discriminate.
      * intros a' Ha'. congruence.
    + apply clean_blamed.
      assert (Hc : clean (set_results (grouped fc (pair k value)) s))
        by (now apply all_pairs_grouped).
      unfold clean.
      rewrite (@process_edge_keeps_results lib main data (JStr k) _ _ _ E).
      exact Hc.
  - inversion E; subst. now apply clean_blamed.
  - inversion E; subst. apply clean_blamed. now apply all_pairs_setdefault.
Qed.

Lemma clean_of_keeps A (m : M A) :
  stable (keeps results) m -> hoare clean m (fun s _ => clean s).
Proof. intros H s s' r Hs E. unfold clean. now rewrite (H _ _ _ E). Qed.

Lemma process_output_item_blames main obj :
  hoare clean (process_output_item svc main obj)
        (fun s r => blamed s (raised r)).
Proof.
  unfold process_output_item.
  apply hoare_bind with (mid := fun _ => clean).
  { apply hoare_lift. intros s Hs. destruct (first_value obj);
      [exact Hs | now apply clean_blamed]. }
  intros item_id.
  apply hoare_try with (caught := fun _ => clean).
  2:{ intros e. destruct e; try exact I.
      - apply hoare_modify. intros s Hs. apply clean_blamed. exact Hs.
      - apply hoare_modify. intros s Hs. apply clean_blamed. exact Hs. }
  set (Q := fun (s : state) (r : outcome unit) =>
              match r with
              | Ok a => blamed s (raised (Ok a))
              | Raise e =>
                  match match e with
                        | ClientError _ =>
                            Some (logger ERROR (DynamoDBError item_id e))
                        | JSONDecodeError =>
                            Some (logger ERROR (JSONDecodeFailure item_id e))
                        | _ => None
                        end with
                  | Some _ => clean s
                  | None => blamed s (raised (@Raise unit e))
                  end
              end).
  assert (HQ : forall s r, clean s -> Q s r).
  { intros s r Hs. unfold Q. destruct r as [a|e].
    - now apply clean_blamed.
    - destruct e; try exact Hs; now apply clean_blamed. }
  change (hoare clean
            (response <- table_get_item svc item_id ;;
             match response with
             | None => logger WARNING (NoItemFound item_id)
             | Some it =>
                 payload <- lift (Py.subscript (JDict it) (JStr (lit "data"))) ;;
                 data <- lift (loads payload) ;;
                 keys <- lift (Py.iter data) ;;
                 foreach keys (process_key main data)
             end) Q).
  apply hoare_bind with (mid := fun _ => clean).
  { unfold table_get_item. apply hoare_lift. intros s Hs.
    destruct (get_item svc item_id); [exact Hs | now apply HQ]. }
  intros [it|]; [|apply hoare_modify; intros s Hs; now apply HQ].
  apply hoare_bind with (mid := fun _ => clean).
  { apply hoare_lift. intros s Hs.
    destruct (Py.subscript _ _); [exact Hs | now apply HQ]. }
  intros payload. apply hoare_bind with (mid := fun _ => clean).
  { apply hoare_lift. intros s Hs.
    destruct (loads payload); [exact Hs | now apply HQ]. }
  intros data. apply hoare_bind with (mid := fun _ => clean).
  { apply hoare_lift. intros s Hs.
    destruct (Py.iter data); [exact Hs | now apply HQ]. }
  intros keys. apply hoare_foreach; [|intros s Hs; now apply HQ].
  intros key _. eapply hoare_weaken; [apply process_key_blames | auto |].
  intros s [[]|e] Hb; cbn in Hb.
  - now apply (blamed_clean Hb).
  - unfold Q. destruct e; try exact Hb; now apply (blamed_clean Hb).
Qed.

Lemma group_entities_blames :
  hoare clean (group_entities svc) (fun s r => blamed s (raised r)).
Proof.
  unfold group_entities.
  repeat (apply hoare_bind with (mid := fun _ => clean);
          [ first [ apply hoare_gets; intros s Hs; exact Hs
                  | apply hoare_lift; intros s Hs;
                    match goal with
                    | |- match ?o with _ => _ end =>
                        destruct o; [exact Hs | now apply clean_blamed]
                    end
                  | apply hoare_modify; intros s Hs; first [exact Hs | apply all_pairs_nil] ]
          | intros ? ]).
  apply hoare_bind with (mid := fun _ => clean); [|intros _].
  - apply hoare_foreach
      with (Q := fun s (r : outcome unit) =>
                   match r with
                   | Ok _ => clean s
                   | Raise e => blamed s (Some e)
                   end);
      [|intros s Hs; exact Hs].
    intros obj _. eapply hoare_weaken;
      [apply process_output_item_blames | auto |].
    intros s [[]|e] Hb; [|exact Hb]. now apply (blamed_clean Hb).
  - apply hoare_ret. intros s Hs. now apply clean_blamed.
Qed.

Lemma validate_input_blames :
  hoare clean validate_input (fun s r => blamed s (raised r)).
Proof.
  eapply hoare_weaken;
    [apply clean_of_keeps | auto | intros s r Hs; now apply clean_blamed].
  apply stable_validate_input; [exact _ | repeat intro; reflexivity].
Qed.

End MissingAttribute.

(** ** The four parts of an invocation *)

Section Run.
Context {lib : PyLib} (svc : services).

Lemma invoke_run ev :
  invoke svc ev
  = match validate_input (init_state ev) with
    | (s0, Raise e) => (add_log ERROR (FatalError e) s0, Raise e)
    | (s0, Ok _) =>
        match group_entities svc s0 with
        | (s1, Raise e) => (add_log ERROR (FatalError e) s1, Raise e)
        | (s1, Ok main_entity_name) =>
            match create_main_entity svc main_entity_name s1 with
            | (s2, Raise e) => (add_log ERROR (FatalError e) s2, Raise e)
            | (s2, Ok main_entity_id) =>
                match store_results svc main_entity_name main_entity_id s2 with
                | (s3, Raise e) => (add_log ERROR (FatalError e) s3, Raise e)
                | (s3, Ok uuids) => (s3, Ok uuids)
                end
            end
        end
    end.
Proof.
  unfold invoke, lambda_handler, try_except, bind.
  destruct (validate_input (init_state ev)) as [s0 [[]|e]]; [|reflexivity].
  destruct (group_entities svc s0) as [s1 [name|e]]; [|reflexivity].
  destruct (create_main_entity svc name s1) as [s2 [id|e]]; [|reflexivity].
  destruct (store_results svc name id s2) as [s3 [uuids|e]]; reflexivity.
Qed.

(** Validation and grouping reach neither the graph nor the table, and
    leave the event alone. *)
Lemma validate_input_outside :
  stable (keeps (fun s => (event s, graph s, table s))) validate_input.
Proof.
  apply stable_validate_input; [exact _ | repeat intro; reflexivity].
Qed.

Lemma group_entities_outside :
  stable (keeps (fun s => (event s, graph s, table s))) (group_entities svc).
Proof.
  apply stable_group_entities; try exact _; try (repeat intro; reflexivity).
  intros. apply stable_process_key; try exact _; repeat intro; reflexivity.
Qed.

(** The graph part and the storing part leave the accumulators alone. *)
Lemma create_main_entity_accumulators main :
  stable (keeps (fun s => (results s, allEdges s, table s)))
         (create_main_entity svc main).
Proof.
  apply stable_create_main_entity; try exact _; repeat intro; reflexivity.
Qed.

Lemma store_results_accumulators main id :
  stable (keeps (fun s => (results s, allEdges s, event s, graph s)))
         (store_results svc main id).
Proof.
  apply stable_store_results; try exact _; try (repeat intro; reflexivity).
  intros. apply stable_store_group; try exact _; repeat intro; reflexivity.
Qed.

End Run.

Section MissingAttributeClaim.
Context {lib : PyLib} (svc : services).

(** C10.  A descriptor whose [TYPE] is one of the four recognized values
    and which lacks the attribute of that type makes edge derivation
    raise [KeyError].  Nothing catches it: whenever a pair with such a
    descriptor has been grouped, the invocation has ended with that
    [KeyError], raised to the caller, with no record written and no
    graph call made. *)
Theorem missing_attribute_is_fatal kind key d :
  Py.dict_get (lit "TYPE") d = Some (JStr (kind_name kind)) ->
  Py.dict_get (kind_attribute kind) d = None ->
  (forall main s,
      create_edge (JStr key) (JDict d) main (JStr (kind_name kind)) s
      = (s, Raise (KeyError (JStr (kind_attribute kind)))))
  /\ (forall ev k b,
         In (k, b) (results (fst (invoke svc ev))) ->
         In (pair key (JDict d)) b ->
         snd (invoke svc ev) = Raise (KeyError (JStr (kind_attribute kind)))
         /\ table (fst (invoke svc ev)) = []
         /\ graph (fst (invoke svc ev)) = []).
Proof.
  intros Ht Ha. split.
  { intros main s. now apply create_edge_missing_attribute. }
  intros ev k b Hb Hx.
  assert (Hl : lacks (pair key (JDict d)) = Some (kind_attribute kind))
    by (apply lacks_pair; assumption).
  rewrite invoke_run in *.
  assert (Hc0 : clean (init_state ev)) by apply all_pairs_nil.
  destruct (validate_input (init_state ev)) as [s0 r0] eqn:E0.
  pose proof (validate_input_blames Hc0 E0) as Hb0.
  pose proof E0 as Ho0. apply validate_input_outside in Ho0.
  unfold keeps in Ho0; cbn in Ho0. injection Ho0 as _ Hg0 Ht0.
  destruct r0 as [[]|e].
  2:{ cbn in *. specialize (Hb0 _ _ _ Hb Hx _ Hl). injection Hb0 as ->. auto. }
  apply blamed_clean in Hb0; [|exact I].
  destruct (group_entities svc s0) as [s1 r1] eqn:E1.
  pose proof (@group_entities_blames lib svc _ _ _ Hb0 E1) as Hb1.
  pose proof E1 as Ho1. apply group_entities_outside in Ho1.
  unfold keeps in Ho1; cbn in Ho1. injection Ho1 as _ Hg1 Ht1.
  destruct r1 as [name|e].
  2:{ cbn in *. specialize (Hb1 _ _ _ Hb Hx _ Hl). injection Hb1 as ->.
      repeat split; congruence. }
  apply blamed_clean in Hb1; [|exact I]. exfalso.
  assert (Hfinal : forall s, results s = results s1 -> In (k, b) (results s) -> False).
  { intros s Hs Hin. rewrite Hs in Hin.
    specialize (Hb1 _ _ _ Hin Hx). congruence. }
  destruct (create_main_entity svc name s1) as [s2 r2] eqn:E2.
  pose proof E2 as Ho2. apply create_main_entity_accumulators in Ho2.
  unfold keeps in Ho2; cbn in Ho2. injection Ho2 as Hr2 _ _.
  destruct r2 as [id|e]; [|exact (Hfinal _ Hr2 Hb)].
  destruct (store_results svc name id s2) as [s3 r3] eqn:E3.
  pose proof E3 as Ho3. apply store_results_accumulators in Ho3.
  unfold keeps in Ho3; cbn in Ho3. injection Ho3 as Hr3 _ _ _.
  destruct r3 as [uuids|e]; apply (Hfinal s3); cbn in *; congruence.
Qed.

End MissingAttributeClaim.

Lemma missing_attribute_is_fatal_witness :
  Py.dict_get (lit "TYPE") Sample.zed = Some (JStr (kind_name SUPPLIER))
  /\ Py.dict_get (kind_attribute SUPPLIER) Sample.zed = None
  /\ In (lit "Z", [pair (lit "Zed") (JDict Sample.zed)])
        (results (fst (@invoke Sample.lib Sample.svc Sample.batch_with_broken_record)))
  /\ snd (@invoke Sample.lib Sample.svc Sample.batch_with_broken_record)
     = Raise (KeyError (JStr (lit "RELATIONSHIP")))
  /\ table (fst (@invoke Sample.lib Sample.svc Sample.batch_with_broken_record)) = []
  /\ graph (fst (@invoke Sample.lib Sample.svc Sample.batch_with_broken_record)) = [].
Proof.
  assert (Hin : In (lit "Z", [pair (lit "Zed") (JDict Sample.zed)])
                   (results (fst (@invoke Sample.lib Sample.svc
                                    Sample.batch_with_broken_record)))).
  { vm_compute. right. right. left. reflexivity. }
  split; [reflexivity|]. split; [reflexivity|]. split; [exact Hin|].
  exact (proj2 (@missing_attribute_is_fatal Sample.lib Sample.svc SUPPLIER
                  (lit "Zed") Sample.zed eq_refl eq_refl)
               Sample.batch_with_broken_record _ _ Hin (or_introl eq_refl)).
Defined.

(** ** The graph part *)

Section GraphPart.
Context {lib : PyLib} (svc : services).

Lemma deref_all_ok ps s : exists vs, deref_all ps s = (s, Ok vs).
Proof.
  induction ps as [|p ps [vs IH]]; simpl; [now eexists|].
  unfold bind, deref, gets, ret. rewrite IH. now eexists.
Qed.

Lemma process_attributes_outside i attributes processed :
  stable (keeps (fun s => (results s, allEdges s, log s, graph s, table s)))
         (process_attributes i attributes processed).
Proof.
  apply stable_process_attributes; [exact _ | repeat intro; reflexivity].
Qed.

Lemma create_main_entity_trace main s s' r :
  create_main_entity svc main s = (s', r) ->
  exists calls, graph s' = graph s ++ calls /\ graph_trace calls r.
Proof.
  unfold create_main_entity, try_except, graph_connect, graph_getOrCreateID,
    graph_close, logger, deref.
  unfold bind, modify, gets, lift, raise, ret.
  destruct (GraphConnect svc) as [e|] eqn:Ec.
  { intros H; inversion H; subst. cbn. eexists; split; [reflexivity|]. constructor. }
  destruct (Py.iter _) as [elems|e].
  2:{ intros H; inversion H; subst. cbn. eexists; split; [reflexivity|]. constructor. }
  destruct (process_attributes 0 elems [] _) as [s1 [processed|e]] eqn:Ep;
    apply process_attributes_outside in Ep; unfold keeps in Ep; cbn in Ep;
    injection Ep as _ _ _ Hg _.
  2:{ intros H; inversion H; subst. cbn. rewrite Hg.
      eexists; split; [reflexivity|]. constructor. }
  destruct (deref_all_ok processed (add_log INFO CreatingMainEntity s1))
    as [vs ->].
  destruct (getOrCreateID svc _ _ _ _) as [id|e].
  2:{ intros H; inversion H; subst. cbn. rewrite Hg, <- app_assoc.
      eexists; split; [reflexivity|]. constructor. }
  destruct (connection_close svc) as [e|].
  - intros H; inversion H; subst. cbn. rewrite Hg, <- !app_assoc.
    eexists; split; [reflexivity|]. constructor.
  - intros H; inversion H; subst. cbn. rewrite Hg, <- !app_assoc.
    eexists; split; [reflexivity|]. constructor.
Qed.

End GraphPart.

Section GraphFailure.
Context {lib : PyLib} (svc : services).

(** C1.  If the graph upsert raises, the invocation ends with that very
    exception, raised to the caller, and no result record has been
    written, whatever buckets the grouping had built by then. *)
Theorem graph_upsert_failure_is_fatal ev label name attributes edges e :
  In (Upsert label name attributes edges (Raise e)) (graph (fst (invoke svc ev))) ->
  snd (invoke svc ev) = Raise e
  /\ table (fst (invoke svc ev)) = [].
Proof.
  rewrite invoke_run.
  destruct (validate_input (init_state ev)) as [s0 r0] eqn:E0.
  pose proof E0 as Ho0. apply validate_input_outside in Ho0.
  unfold keeps in Ho0; cbn in Ho0. injection Ho0 as _ Hg0 Ht0.
  destruct r0 as [[]|e0]; [|cbn; rewrite Hg0; intros []].
  destruct (group_entities svc s0) as [s1 r1] eqn:E1.
  pose proof E1 as Ho1. apply group_entities_outside in Ho1.
  unfold keeps in Ho1; cbn in Ho1. injection Ho1 as _ Hg1 Ht1.
  destruct r1 as [main|e1]; [|cbn; rewrite Hg1, Hg0; intros []].
  destruct (create_main_entity svc main s1) as [s2 r2] eqn:E2.
  pose proof E2 as Ho2. apply create_main_entity_accumulators in Ho2.
  unfold keeps in Ho2; cbn in Ho2. injection Ho2 as _ _ Ht2.
  apply create_main_entity_trace in E2. destruct E2 as (calls & Hg2 & Htr).
  rewrite Hg1, Hg0 in Hg2. cbn in Hg2.
  destruct Htr as [e2|e2|l n a es e2|l n a es id e2|l n a es id].
  1-4: cbn; rewrite Hg2; intros Hin; split; [|congruence].
  - destruct Hin as [H|[]]; discriminate H.
  - destruct Hin as [H|[]]; discriminate H.
  - destruct Hin as [H|[H|[]]]; [discriminate H|]. now injection H as _ _ _ _ ->.
  - destruct Hin as [H|[H|[H|[]]]]; discriminate H.
  - destruct (store_results svc main id s2) as [s3 r3] eqn:E3.
    apply store_results_accumulators in E3.
    unfold keeps in E3; cbn in E3. injection E3 as _ _ _ Hg3.
    intros Hin. exfalso.
    assert (Hin2 : In (Upsert label name attributes edges (Raise e))
                      [Connect None; Upsert l n a es (Ok id); Close None])
      by (destruct r3; cbn in Hin; congruence).
    destruct Hin2 as [H|[H|[H|[]]]]; discriminate H.
Qed.

End GraphFailure.

Lemma graph_upsert_failure_is_fatal_witness :
  (exists label name attributes edges,
      In (Upsert label name attributes edges
            (Raise (OtherError (lit "GremlinServerError"))))
         (graph (fst (@invoke Sample.lib Sample.svc_graph_down Sample.batch))))
  /\ results (fst (@invoke Sample.lib Sample.svc_graph_down Sample.batch)) <> []
  /\ snd (@invoke Sample.lib Sample.svc_graph_down Sample.batch)
     = Raise (OtherError (lit "GremlinServerError"))
  /\ table (fst (@invoke Sample.lib Sample.svc_graph_down Sample.batch)) = [].
Proof.
  assert (Hin : exists label name attributes edges,
             In (Upsert label name attributes edges
                   (Raise (OtherError (lit "GremlinServerError"))))
                (graph (fst (@invoke Sample.lib Sample.svc_graph_down Sample.batch)))).
  { vm_compute. do 4 eexists. right. left. reflexivity. }
  split; [exact Hin|]. split; [vm_compute; discriminate|].
  destruct Hin as (label & name & attributes & edges & Hin).
  exact (@graph_upsert_failure_is_fatal Sample.lib Sample.svc_graph_down
           Sample.batch label name attributes edges _ Hin).
Defined.

(** ** References that do not resolve *)

Section Unresolved.
Context {lib : PyLib} (svc : services).



End Unresolved.


(** The payload under [id-3] is not JSON: the reference is skipped, and
    the invocation writes the bucket records of the other reference. *)
Example undecodable_payload_is_skipped :
  @unresolved Sample.lib Sample.svc (Sample.jstr "id-3")
    (ERROR, JSONDecodeFailure (Sample.jstr "id-3") JSONDecodeError)
  /\ snd (@invoke Sample.lib Sample.svc
            (JDict [(lit "Summary", Sample.summary);
                    (lit "output", JList [Sample.reference "id-3";
                                          Sample.reference "id-1"])]))
     = Ok [lit "uuid-0"; lit "uuid-1"].
Proof.
  split; [|vm_compute; reflexivity].
  eapply bad_payload; reflexivity.
Qed.


(** ** Batches that go through *)

Lemma succeeds_foreach A (l : list A) (body : A -> M unit) (I : state -> Prop) :
  (forall x, In x l -> succeeds I (body x)) -> succeeds I (foreach l body).
Proof.
  intros Hb. induction l as [|x l IH]; intros s Hs; simpl.
  - exists s, tt. now split.
  - destruct (Hb x (or_introl eq_refl) s Hs) as (s1 & [] & E1 & Hs1).
    destruct (IH (fun y Hy => Hb y (or_intror Hy)) s1 Hs1) as (s2 & [] & E2 & Hs2).
    exists s2, tt. split; [|exact Hs2]. now rewrite bind_ok with (1 := E1).
Qed.

Lemma dict_get_in k v d :
  In (k, v) d -> exists v', Py.dict_get k d = Some v' /\ In (k, v') d.
Proof.
  induction d as [|[k0 v0] d IH]; simpl; [intros []|].
  destruct (pystr_eqb k k0) eqn:E.
  - apply pystr_eqb_eq in E. subst k0. intros _. exists v0. split; [reflexivity | now left].
  - intros [H|H].
    + injection H as -> _. now rewrite pystr_eqb_refl in E.
    + destruct (IH H) as (v' & H1 & H2). exists v'. split; [exact H1 | now right].
Qed.

Lemma all_str_some l values : Py.all_str l = Some values -> l = map JStr values.
Proof.
  revert values. induction l as [|x l IH]; simpl; intros values.
  - now intros [= <-].
  - destruct x; try discriminate.
    destruct (Py.all_str l) as [r|]; [|discriminate].
    intros [= <-]. simpl. now rewrite (IH r eq_refl).
Qed.

Lemma strings_inv v : strings v = true -> exists values, v = JList (map JStr values).
Proof.
  destruct v; try discriminate. simpl.
  destruct (Py.all_str l) as [values|] eqn:E; [|discriminate].
  intros _. exists values. now rewrite (all_str_some _ E).
Qed.

Lemma bucket_append_new k x b r :
  bucket_get k r = None ->
  bucket_append k x (r ++ [(k, b)]) = r ++ [(k, b ++ [x])].
Proof.
  induction r as [|[k0 b0] r IH]; simpl.
  - now rewrite pystr_eqb_refl.
  - destruct (pystr_eqb k k0); [discriminate|]. intros H. now rewrite IH.
Qed.

Lemma buckets_nonempty_grouped k x r :
  buckets_nonempty r -> buckets_nonempty (grouped k x r).
Proof.
  intros H kb b Hb. unfold grouped, setdefault in Hb.
  destruct (bucket_get k r) eqn:E.
  - apply in_bucket_append in Hb. destruct Hb as [Hb|(b0 & Hb0 & ->)].
    + exact (H _ _ Hb).
    + now destruct b0.
  - rewrite bucket_append_new in Hb by exact E.
    apply in_app_iff in Hb. destruct Hb as [Hb|[Hb|[]]].
    + exact (H _ _ Hb).
    + injection Hb as _ <-. discriminate.
Qed.

Section GoesThrough.
Context {lib : PyLib} (svc : services).

Lemma process_edge_ok main data k v :
  Py.dict_get k data = Some v ->
  descriptor_ok v = true ->
  succeeds all_nonempty (process_edge (JStr main) (JDict data) (JStr k)).
Proof.
  intros Hk Hv s Hs. destruct v as [| | | | |d]; try discriminate Hv.
  unfold descriptor_ok in Hv.
  destruct (Py.dict_get (lit "TYPE") d) as [t|] eqn:Et.
  2:{ rewrite process_edge_untyped with (1 := Hk) (2 := Et). now exists s, tt. }
  destruct t as [| | |t| |]; try discriminate Hv.
  destruct (edge_mappings_get (JStr t)) as [[kind|]|e] eqn:Em.
  - destruct (Py.dict_get (kind_attribute kind) d) as [values|] eqn:Ea;
      [|discriminate Hv].
    apply strings_inv in Hv. destruct Hv as [vs ->].
    apply edge_mappings_get_some in Em. rewrite Em in Et.
    rewrite process_edge_recognized with (1 := Hk) (2 := Et) (3 := Ea).
    eexists _, tt. split; [reflexivity | exact Hs].
  - assert (Hn : forall kind, JStr t <> JStr (kind_name kind)).
    { intros kind Heq. rewrite Heq, edge_mappings_get_kind in Em. discriminate. }
    rewrite process_edge_unknown with (1 := Hk) (2 := Et) (4 := Hn)
      by (intros _; reflexivity).
    eexists _, tt. split; [reflexivity|]. now destruct (Py.truthy (JStr t)).
  - discriminate Em.
Qed.

Lemma process_key_ok main entities k v :
  record_ok (JDict entities) = true ->
  In (k, v) entities ->
  succeeds all_nonempty (process_key (JStr main) (JDict entities) (JStr k)).
Proof.
  intros Hrec Hin s Hs.
  destruct k as [|c rest]; [now exists s, tt|].
  destruct (dict_get_in _ _ _ Hin) as (v' & Hget & Hin').
  assert (Hv' : descriptor_ok v' = true).
  { unfold record_ok in Hrec. rewrite forallb_forall in Hrec.
    exact (Hrec _ Hin'). }
  rewrite process_key_str with (1 := eq_refl) (2 := Hget).
  apply process_edge_ok with (v := v'); [exact Hget | exact Hv' |].
  now apply buckets_nonempty_grouped.
Qed.

Lemma process_output_item_ok main obj :
  reference_ok svc obj = true ->
  succeeds all_nonempty (process_output_item svc (JStr main) obj).
Proof.
  intros Href s Hs. unfold reference_ok in Href.
  unfold process_output_item, try_except, table_get_item.
  unfold bind at 1. unfold lift at 1.
  destruct (first_value obj) as [item_id|]; [|discriminate Href].
  unfold bind at 1. unfold lift at 1.
  destruct (get_item svc item_id) as [[it|]|e].
  - unfold bind at 1. unfold lift at 1. simpl Py.subscript.
    destruct (Py.dict_get (lit "data") it) as [payload|]; [|discriminate Href].
    destruct payload as [| | |payload| |]; try discriminate Href.
    unfold bind at 1. unfold lift at 1. unfold loads.
    destruct (json_loads payload) as [data|].
    + destruct data as [| | | | |entities]; try discriminate Href.
      unfold bind at 1. unfold lift at 1. simpl Py.iter.
      destruct (@succeeds_foreach _
                  (map (fun kv : pystr * json => JStr (fst kv)) entities)
                  (process_key (JStr main) (JDict entities)) all_nonempty) with (s := s)
        as (s' & [] & E & Hs'); [|exact Hs|].
      * intros key Hkey. apply in_map_iff in Hkey.
        destruct Hkey as ([k v] & <- & Hkv). now apply process_key_ok with (v := v).
      * rewrite E. now exists s', tt.
    + eexists _, tt. split; [reflexivity | exact Hs].
  - eexists _, tt. split; [reflexivity | exact Hs].
  - destruct e; try discriminate Href.
    eexists _, tt. split; [reflexivity | exact Hs].
Qed.


Lemma summary_ok_inv summary :
  summary_ok summary = true ->
  exists d main_entity main attributes,
    summary = JDict d
    /\ Py.dict_get (lit "MAIN_ENTITY") d = Some (JDict main_entity)
    /\ Py.dict_get (lit "NAME") main_entity = Some (JStr main)
    /\ Py.dict_get (lit "ATTRIBUTES") main_entity = Some (JList attributes)
    /\ forallb attribute_ok attributes = true.
Proof.
  unfold summary_ok. destruct summary as [| | | | |d]; try discriminate.
  destruct (Py.dict_get (lit "MAIN_ENTITY") d) as [[| | | | |me]|] eqn:E1;
    try discriminate.
  destruct (Py.dict_get (lit "NAME") me) as [[| | |main| |]|] eqn:E2;
    try discriminate.
  destruct (Py.dict_get (lit "ATTRIBUTES") me) as [[| | | |attrs|]|] eqn:E3;
    try discriminate.
  intros H. now exists d, me, main, attrs.
Qed.

Lemma batch_ok_inv ev :
  batch_ok svc ev = true ->
  exists d summary obj objs,
    ev = JDict d
    /\ Py.dict_get (lit "Summary") d = Some summary
    /\ Py.dict_get (lit "output") d = Some (JList (obj :: objs))
    /\ summary_ok summary = true
    /\ forallb (reference_ok svc) (obj :: objs) = true.
Proof.
  unfold batch_ok. destruct ev as [| | | | |d]; try discriminate.
  destruct (Py.dict_get (lit "Summary") d) as [summary|] eqn:E1; [|discriminate].
  destruct (Py.dict_get (lit "output") d) as [[| | | |[|obj objs]|]|] eqn:E2;
    try discriminate.
  intros H. apply andb_true_iff in H. destruct H as [H1 H2].
  now exists d, summary, obj, objs.
Qed.

Lemma dict_get_truthy k d v : Py.dict_get k d = Some v -> Py.truthy (JDict d) = true.
Proof. destruct d; [discriminate | reflexivity]. Qed.

Lemma validate_input_ok d summary obj objs s :
  event s = JDict d ->
  Py.dict_get (lit "Summary") d = Some summary ->
  Py.dict_get (lit "output") d = Some (JList (obj :: objs)) ->
  Py.truthy summary = true ->
  validate_input s
  = (add_log INFO (ProcessingEvent (S (List.length objs))) s, Ok tt).
Proof.
  intros Hev Hs Ho Ht. unfold validate_input.
  unfold bind at 1. unfold gets at 1. rewrite Hev.
  unfold Py.get_default, Py.get. rewrite Ho, Hs.
  unfold bind, lift, logger, modify, ret. simpl Py.len. cbv beta iota.
  rewrite Ht. reflexivity.
Qed.

Lemma group_entities_ok d summary obj objs s :
  event s = JDict d ->
  Py.dict_get (lit "Summary") d = Some summary ->
  Py.dict_get (lit "output") d = Some (JList (obj :: objs)) ->
  summary_ok summary = true ->
  forallb (reference_ok svc) (obj :: objs) = true ->
  exists s' main,
    group_entities svc s = (s', Ok (JStr main)) /\ all_nonempty s'.
Proof.
  intros Hev Hs Ho Hsum Hrefs.
  destruct (summary_ok_inv _ Hsum) as (sd & me & main & attrs & -> & Hme & Hn & Ha & _).
  unfold group_entities.
  unfold bind at 1. unfold gets at 1. rewrite Hev.
  unfold bind at 1. unfold lift at 1. cbn [Py.subscript]. rewrite Hs.
  unfold bind at 1. unfold lift at 1. cbn [Py.subscript]. rewrite Hme.
  unfold bind at 1. unfold lift at 1. cbn [Py.subscript]. rewrite Hn.
  unfold bind at 1. unfold lift at 1.
  unfold bind at 1. unfold lift at 1. cbn [Py.subscript]. rewrite Ha.
  unfold bind at 1. unfold logger at 1. unfold modify at 1.
  unfold bind at 1. unfold modify at 1.
  unfold bind at 1. unfold modify at 1.
  unfold bind at 1. unfold lift at 1. rewrite Ho.
  unfold bind at 1. unfold lift at 1. cbn [Py.iter].
  set (s0 := set_results _ _).
  destruct (@succeeds_foreach _ (obj :: objs)
              (process_output_item svc (JStr main)) all_nonempty) with (s := s0)
    as (s' & [] & E & Hs').
  - intros x Hx. rewrite forallb_forall in Hrefs.
    apply process_output_item_ok. now apply Hrefs.
  - intros k b [].
  - exists s', main. unfold bind. rewrite E. now split.
Qed.


Lemma join_ok sep v : strings v = true -> exists joined, Py.join sep v = Ok joined.
Proof.
  intros H. apply strings_inv in H. destruct H as [values ->].
  rewrite join_strings. now eexists.
Qed.

Lemma process_attribute_ok i attribute :
  attribute_ok attribute = true -> succeeds all_nonempty (process_attribute i attribute).
Proof.
  intros Ha. destruct attribute as [| | | | |items]; try discriminate Ha.
  unfold attribute_ok in Ha. rewrite forallb_forall in Ha.
  unfold process_attribute. apply succeeds_foreach.
  intros [key value] Hin s Hs. specialize (Ha _ Hin). cbn [snd] in Ha.
  destruct value; try (now exists s, tt).
  destruct (join_ok (lit ",") _ Ha) as [joined Hj].
  unfold join_if_list. cbn [Py.is_list]. unfold bind, lift, modify. rewrite Hj.
  eexists _, tt. split; [reflexivity | exact Hs].
Qed.

Lemma process_attributes_ok attributes :
  forallb attribute_ok attributes = true ->
  forall i processed s, all_nonempty s ->
    exists s' ps, process_attributes i attributes processed s = (s', Ok ps) /\ all_nonempty s'.
Proof.
  induction attributes as [|a l IH]; intros Hall i processed s Hs; simpl.
  - exists s, processed. now split.
  - simpl in Hall. apply andb_true_iff in Hall. destruct Hall as [Ha Hl].
    destruct (@process_attribute_ok i a Ha s Hs) as (s1 & [] & E1 & Hs1).
    rewrite bind_ok with (1 := E1). now apply IH.
Qed.

Lemma create_main_entity_ok main attributes s :
  graph_ok svc ->
  lookup_path attributes_ref (event s) = Some (JList attributes) ->
  forallb attribute_ok attributes = true ->
  all_nonempty s ->
  exists s' main_entity_id,
    create_main_entity svc main s = (s', Ok main_entity_id) /\ all_nonempty s'.
Proof.
  intros (Hc & Hu & Hcl) Hattrs Hall Hs.
  unfold create_main_entity, try_except, graph_connect, graph_getOrCreateID,
    graph_close, logger, deref.
  unfold bind at 1. unfold modify at 1.
  unfold bind at 1. unfold bind at 1. unfold modify at 1. rewrite Hc.
  unfold ret at 1.
  unfold bind at 1. unfold gets at 1. cbn [event add_graph add_log].
  unfold value_at. rewrite Hattrs.
  unfold bind at 1. unfold lift at 1. cbn [Py.iter].
  set (s0 := add_graph _ _).
  destruct (@process_attributes_ok attributes Hall 0 [] s0 Hs)
    as (s1 & ps & E1 & Hs1).
  unfold bind at 1. rewrite E1.
  unfold bind at 1. unfold modify at 1.
  unfold bind at 1.
  destruct (deref_all_ok ps (add_log INFO CreatingMainEntity s1)) as [vs ->].
  unfold bind at 1. unfold gets at 1.
  destruct (Hu (lit "COMPANY") main vs (allEdges (add_log INFO CreatingMainEntity s1)))
    as [id Hid].
  unfold bind at 1. unfold bind at 1. unfold modify at 1. unfold lift at 1.
  rewrite Hid.
  unfold bind at 1. unfold modify at 1.
  unfold bind at 1. unfold bind at 1. unfold modify at 1. rewrite Hcl.
  unfold ret. eexists _, id. split; [reflexivity | exact Hs1].
Qed.


Lemma store_group_ok main id i key uuids bucket s :
  writes_ok svc ->
  bucket_get key (results s) = Some bucket ->
  exists it,
    store_group svc main id i key uuids s
    = (add_item it s, Ok (uuids ++ [uuid4 svc i]))
    /\ Item.id it = uuid4 svc i.
Proof.
  intros Hw Hb. unfold store_group, try_except, table_put_item, deref.
  unfold bind, gets, lift, modify, ret. rewrite Hb, Hw.
  eexists. split; reflexivity.
Qed.

Lemma store_groups_ok main id keys :
  writes_ok svc ->
  forall i uuids s,
    (forall k, In k keys -> bucket_get k (results s) <> None) ->
    exists s' ids,
      store_groups svc main id i keys uuids s = (s', Ok (uuids ++ ids))
      /\ List.length ids = List.length keys
      /\ results s' = results s
      /\ map Item.id (table s') = map Item.id (table s) ++ ids.
Proof.
  intros Hw. induction keys as [|k keys IH]; intros i uuids s Hk; simpl.
  - exists s, []. now rewrite !app_nil_r.
  - destruct (bucket_get k (results s)) as [bucket|] eqn:Eb;
      [|now destruct (Hk k (or_introl eq_refl))].
    destruct (@store_group_ok main id i k uuids bucket s Hw Eb) as (it & E & Hid).
    rewrite bind_ok with (1 := E).
    destruct (IH (S i) (uuids ++ [uuid4 svc i]) (add_item it s))
      as (s' & ids & E' & Hlen & Hres & Htab).
    { intros k' Hk'. apply Hk. now right. }
    exists s', (uuid4 svc i :: ids). rewrite E', <- app_assoc.
    repeat split; simpl; [congruence | exact Hres |].
    rewrite Htab. cbn [table add_item]. rewrite map_app, <- app_assoc.
    simpl. now rewrite Hid.
Qed.

Lemma bucket_get_of_in k b r : In (k, b) r -> bucket_get k r <> None.
Proof.
  induction r as [|[k0 b0] r IH]; simpl; [intros []|].
  destruct (pystr_eqb k k0) eqn:E; [discriminate|].
  intros [H|H]; [|now apply IH].
  injection H as -> _. now rewrite pystr_eqb_refl in E.
Qed.

Lemma store_results_ok main id s :
  writes_ok svc ->
  exists s' uuids,
    store_results svc main id s = (s', Ok uuids)
    /\ List.length uuids = List.length (results s)
    /\ results s' = results s
    /\ map Item.id (table s') = map Item.id (table s) ++ uuids.
Proof.
  intros Hw. unfold store_results.
  unfold bind at 1. unfold gets at 1.
  unfold bind at 1. unfold logger at 1. unfold modify at 1.
  destruct (@store_groups_ok main id (map fst (results s)) Hw 0 []
              (add_log INFO (StoringResults (List.length (results s))) s))
    as (s' & ids & E & Hlen & Hres & Htab).
  { intros k Hk. apply in_map_iff in Hk. destruct Hk as ([k' b] & <- & Hin).
    now apply bucket_get_of_in with (b := b). }
  unfold bind at 1. rewrite E. cbn [app].
  unfold bind, logger, modify, ret.
  exists (add_log INFO (ProcessedGroups (List.length ids)) s'), ids.
  rewrite length_map in Hlen. now repeat split.
Qed.

(** C6.  For every non-empty input batch whose references all resolve,
    with a graph store that answers and a table that accepts the records,
    the handler returns, without error, one identifier for each bucket
    that the partitioning produced; no bucket is empty, and the
    identifiers are those of the records written, in order.  When the
    partitioning produces no bucket the returned sequence is empty, and
    the outcome is a normal return all the same. *)
Theorem resolvable_batch_returns_one_id_per_bucket ev :
  batch_ok svc ev = true ->
  graph_ok svc ->
  writes_ok svc ->
  exists uuids,
    snd (invoke svc ev) = Ok uuids
    /\ List.length uuids = List.length (results (fst (invoke svc ev)))
    /\ buckets_nonempty (results (fst (invoke svc ev)))
    /\ map Item.id (table (fst (invoke svc ev))) = uuids.
Proof.
  intros Hbatch Hgraph Hwrites.
  destruct (@batch_ok_inv ev Hbatch) as (d & summary & obj & objs & -> & Hs & Ho & Hsum & Hrefs).
  destruct (@summary_ok_inv summary Hsum) as (sd & me & main & attrs & -> & Hme & Hn & Ha & Hall).
  rewrite invoke_run.
  rewrite validate_input_ok
    with (s := init_state (JDict d)) (1 := eq_refl) (2 := Hs) (3 := Ho)
    by exact (@dict_get_truthy _ _ _ Hme).
  set (s0 := add_log INFO _ (init_state (JDict d))).
  destruct (@group_entities_ok d (JDict sd) obj objs s0 eq_refl Hs Ho Hsum Hrefs)
    as (s1 & main' & E1 & Hs1).
  rewrite E1.
  pose proof E1 as Ho1. apply group_entities_outside in Ho1.
  unfold keeps in Ho1; cbn in Ho1. injection Ho1 as Hev1 _ Ht1.
  assert (Hattrs : lookup_path attributes_ref (event s1) = Some (JList attrs)).
  { rewrite Hev1. unfold attributes_ref. cbn [lookup_path].
    now rewrite Hs, Hme, Ha. }
  destruct (@create_main_entity_ok (JStr main') attrs s1 Hgraph Hattrs Hall Hs1)
    as (s2 & id & E2 & Hs2).
  rewrite E2.
  pose proof E2 as Ho2. apply create_main_entity_accumulators in Ho2.
  unfold keeps in Ho2; cbn in Ho2. injection Ho2 as _ _ Ht2.
  destruct (@store_results_ok (JStr main') id s2 Hwrites)
    as (s3 & uuids & E3 & Hlen & Hres & Htab).
  rewrite E3. exists uuids. cbn [fst snd].
  rewrite Hres. repeat split; [exact Hlen | exact Hs2 |].
  rewrite Htab, Ht2, Ht1. reflexivity.
Qed.

End GoesThrough.

Lemma resolvable_batch_returns_one_id_per_bucket_witness :
  @batch_ok Sample.lib Sample.svc Sample.batch = true
  /\ graph_ok Sample.svc
  /\ writes_ok Sample.svc
  /\ exists uuids,
       snd (@invoke Sample.lib Sample.svc Sample.batch) = Ok uuids
       /\ List.length uuids
          = List.length (results (fst (@invoke Sample.lib Sample.svc Sample.batch)))
       /\ buckets_nonempty (results (fst (@invoke Sample.lib Sample.svc Sample.batch)))
       /\ map Item.id (table (fst (@invoke Sample.lib Sample.svc Sample.batch)))
          = uuids.
Proof.
  assert (Hg : graph_ok Sample.svc).
  { split; [reflexivity|]. split; [|reflexivity]. intros; eexists; reflexivity. }
  assert (Hw : writes_ok Sample.svc) by (intros i it; reflexivity).
  split; [reflexivity|]. split; [exact Hg|]. split; [exact Hw|].
  exact (@resolvable_batch_returns_one_id_per_bucket Sample.lib Sample.svc
           Sample.batch eq_refl Hg Hw).
Defined.

(** The scenario: Bob goes to bucket [B], next to bert; 3M goes to [#];
    two records are written and their identifiers returned. *)
Example scenario_returns_two_identifiers :
  snd (@invoke Sample.lib Sample.svc Sample.batch) = Ok [lit "uuid-0"; lit "uuid-1"]
  /\ results (fst (@invoke Sample.lib Sample.svc Sample.batch))
     = [(lit "B", [pair (lit "Bob") (JDict Sample.bob);
                   pair (lit "bert") (JDict Sample.bert)]);
        (lit "#", [pair (lit "3M") (JDict Sample.three_m)])]
  /\ allEdges (fst (@invoke Sample.lib Sample.svc Sample.batch))
     = [lit "Bob is a director of (ROLE: CEO) Acme";
        lit "3M is a customer of (PRODUCTS_USED:glue,tape) Acme"].
Proof. split; [|split]; vm_compute; reflexivity. Qed.

(** A batch whose one reference has no stored record: no bucket, and the
    handler returns the empty sequence. *)
Example empty_result_is_success :
  @batch_ok Sample.lib Sample.svc
     (JDict [(lit "Summary", Sample.summary);
             (lit "output", JList [Sample.reference "id-2"])]) = true
  /\ snd (@invoke Sample.lib Sample.svc
            (JDict [(lit "Summary", Sample.summary);
                    (lit "output", JList [Sample.reference "id-2"])]))
     = Ok [].
Proof. split; vm_compute; reflexivity. Qed.

(** ** Paths *)

Lemma dict_update_ext k f g d :
  (forall v, Py.dict_get k d = Some v -> f v = g v) ->
  dict_update k f d = dict_update k g d.
Proof.
  induction d as [|[k0 v0] d IH]; simpl; intros H; [reflexivity|].
  destruct (pystr_eqb k k0).
  - now rewrite (H v0 eq_refl).
  - now rewrite IH.
Qed.

Lemma list_update_ext i f g l :
  (forall v, nth_error l i = Some v -> f v = g v) ->
  list_update i f l = list_update i g l.
Proof.
  revert i. induction l as [|x l IH]; intros [|i] H; simpl; try reflexivity.
  - now rewrite (H x eq_refl).
  - now rewrite (IH i H).
Qed.

Lemma dict_update_compose k f g d :
  dict_update k f (dict_update k g d) = dict_update k (fun v => f (g v)) d.
Proof.
  induction d as [|[k0 v0] d IH]; simpl; [reflexivity|].
  destruct (pystr_eqb k k0) eqn:E; simpl; rewrite E; [reflexivity|].
  now rewrite IH.
Qed.

Lemma list_update_compose i f g l :
  list_update i f (list_update i g l) = list_update i (fun v => f (g v)) l.
Proof.
  revert i. induction l as [|x l IH]; intros [|i]; simpl; try reflexivity.
  now rewrite IH.
Qed.

Lemma dict_get_update k f d :
  Py.dict_get k (dict_update k f d)
  = match Py.dict_get k d with Some v => Some (f v) | None => None end.
Proof.
  induction d as [|[k0 v0] d IH]; simpl; [reflexivity|].
  destruct (pystr_eqb k k0) eqn:E; simpl; rewrite E; [reflexivity | exact IH].
Qed.

Lemma nth_error_update i f l :
  nth_error (list_update i f l) i
  = match nth_error l i with Some v => Some (f v) | None => None end.
Proof.
  revert i. induction l as [|x l IH]; intros [|i]; simpl; try reflexivity.
  apply IH.
Qed.

(** Two changes at one place are one change. *)
Lemma update_path_compose p f g e :
  update_path p f (update_path p g e) = update_path p (fun v => f (g v)) e.
Proof.
  revert e. induction p as [|[k|i] p IH]; intros e; simpl; [reflexivity| |].
  - destruct e; try reflexivity. rewrite dict_update_compose.
    f_equal. apply dict_update_ext. intros v _. apply IH.
  - destruct e; try reflexivity. rewrite list_update_compose.
    f_equal. apply list_update_ext. intros v _. apply IH.
Qed.

(** A change is determined by what it does to the object that is there. *)
Lemma update_path_at p f g e x :
  lookup_path p e = Some x -> f x = g x ->
  update_path p f e = update_path p g e.
Proof.
  revert e. induction p as [|[k|i] p IH]; intros e; simpl.
  - now intros [= ->].
  - destruct e; try discriminate.
    destruct (Py.dict_get k d) as [c|] eqn:E; [|discriminate].
    intros Hl Hfg. f_equal. apply dict_update_ext.
    intros v Hv. rewrite E in Hv. injection Hv as <-. now apply IH.
  - destruct e; try discriminate.
    destruct (nth_error l i) as [c|] eqn:E; [|discriminate].
    intros Hl Hfg. f_equal. apply list_update_ext.
    intros v Hv. rewrite E in Hv. injection Hv as <-. now apply IH.
Qed.

Lemma dict_update_id k d : dict_update k (fun v => v) d = d.
Proof.
  induction d as [|[k0 v0] d IH]; simpl; [reflexivity|].
  destruct (pystr_eqb k k0); [reflexivity | now rewrite IH].
Qed.

Lemma list_update_id i l : list_update i (fun v => v) l = l.
Proof.
  revert i. induction l as [|x l IH]; intros [|i]; simpl; try reflexivity.
  now rewrite IH.
Qed.

Lemma update_path_id p e : update_path p (fun v => v) e = e.
Proof.
  revert e. induction p as [|[k|i] p IH]; intros e; simpl; [reflexivity| |].
  - destruct e; try reflexivity. f_equal.
    rewrite <- (dict_update_id k d) at 2. apply dict_update_ext.
    intros v _. apply IH.
  - destruct e; try reflexivity. f_equal.
    rewrite <- (list_update_id i l) at 2. apply list_update_ext.
    intros v _. apply IH.
Qed.

(** Writing back what is there changes nothing. *)
Lemma update_path_same p e x :
  lookup_path p e = Some x -> update_path p (fun _ => x) e = e.
Proof.
  intros H. rewrite update_path_at with (g := fun v => v) (x := x);
    [apply update_path_id | exact H | reflexivity].
Qed.

Lemma update_path_app p q f e :
  update_path (p ++ q) f e = update_path p (update_path q f) e.
Proof.
  revert e. induction p as [|[k|i] p IH]; intros e; simpl; [reflexivity| |].
  - destruct e; try reflexivity. f_equal. apply dict_update_ext.
    intros v _. apply IH.
  - destruct e; try reflexivity. f_equal. apply list_update_ext.
    intros v _. apply IH.
Qed.

Lemma lookup_path_app p q e :
  lookup_path (p ++ q) e
  = match lookup_path p e with Some x => lookup_path q x | None => None end.
Proof.
  revert e. induction p as [|[k|i] p IH]; intros e; simpl; [reflexivity| |].
  - destruct e; try reflexivity. destruct (Py.dict_get k d); [apply IH | reflexivity].
  - destruct e; try reflexivity. destruct (nth_error l i); [apply IH | reflexivity].
Qed.

Lemma lookup_update_path p f e x :
  lookup_path p e = Some x ->
  lookup_path p (update_path p f e) = Some (f x).
Proof.
  revert e. induction p as [|[k|i] p IH]; intros e; simpl.
  - now intros [= ->].
  - destruct e; try discriminate. rewrite dict_get_update.
    destruct (Py.dict_get k d); [apply IH | discriminate].
  - destruct e; try discriminate. rewrite nth_error_update.
    destruct (nth_error l i); [apply IH | discriminate].
Qed.

(** ** Attribute flattening *)

Lemma set_event_compose f g s :
  set_event f (set_event g s) = set_event (fun e => f (g e)) s.
Proof. reflexivity. Qed.

Lemma set_event_eq f g s :
  f (event s) = g (event s) -> set_event f s = set_event g s.
Proof. unfold set_event. now intros ->. Qed.

Lemma set_event_same f s : f (event s) = event s -> set_event f s = s.
Proof. destruct s; unfold set_event; simpl. now intros ->. Qed.

Lemma existsb_eqb_in k l : existsb (pystr_eqb k) l = true <-> In k l.
Proof.
  rewrite existsb_exists. split.
  - intros (x & Hx & E). apply pystr_eqb_eq in E. now subst.
  - intros H. exists k. split; [exact H | apply pystr_eqb_refl].
Qed.

Lemma distinct_app_notin l1 k l2 :
  distinct (l1 ++ k :: l2) = true -> ~ In k l1.
Proof.
  induction l1 as [|x l1 IH]; simpl; [tauto|].
  rewrite andb_true_iff, negb_true_iff. intros [Hx Hd] [->|Hin].
  - assert (H : existsb (pystr_eqb k) (l1 ++ k :: l2) = true)
      by (apply existsb_eqb_in, in_app_iff; right; now left).
    congruence.
  - now apply IH.
Qed.

Lemma dict_set_middle done k v x rest :
  ~ In k (map fst done) ->
  Py.dict_set k x (done ++ (k, v) :: rest) = done ++ (k, x) :: rest.
Proof.
  induction done as [|[k0 v0] done IH]; simpl; intros H.
  - now rewrite pystr_eqb_refl.
  - destruct (pystr_eqb k k0) eqn:E.
    + apply pystr_eqb_eq in E. subst. tauto.
    + rewrite IH; [reflexivity | tauto].
Qed.

Lemma map_fst_flatten l : map fst (map flatten_item l) = map fst l.
Proof. rewrite map_map. reflexivity. Qed.

Lemma list_update_middle done a f rest :
  list_update (List.length done) f (done ++ a :: rest) = done ++ f a :: rest.
Proof. induction done as [|x done IH]; simpl; [reflexivity | now rewrite IH]. Qed.

Lemma nth_error_middle (done : list json) a rest :
  nth_error (done ++ a :: rest) (List.length done) = Some a.
Proof. induction done as [|x done IH]; simpl; [reflexivity | exact IH]. Qed.

Lemma join_flatten l joined :
  Py.join (lit ",") (JList l) = Ok joined ->
  flatten_value (JList l) = JStr joined.
Proof.
  unfold Py.join, flatten_value. cbn [Py.iter].
  destruct (Py.all_str l); [now intros [= <-] | discriminate].
Qed.

Section Flattening.
Context {lib : PyLib} (svc : services).

Lemma flatten_loop p items rest :
  forall done s s',
    items = done ++ rest ->
    distinct (map fst items) = true ->
    lookup_path p (event s) = Some (JDict (map flatten_item done ++ rest)) ->
    foreach rest (join_if_list p) s = (s', Ok tt) ->
    s' = set_event (update_path p (fun _ => JDict (map flatten_item items))) s.
Proof.
  induction rest as [|[k v] rest IH]; intros done s s' Hitems Hd Hl Hrun.
  - simpl in Hrun. injection Hrun as <-. rewrite app_nil_r in *. subst done.
    symmetry. apply set_event_same. now apply update_path_same.
  - change (foreach ((k, v) :: rest) (join_if_list p) s)
      with (bind (join_if_list p (k, v)) (fun _ => foreach rest (join_if_list p)) s) in Hrun.
    unfold bind in Hrun.
    assert (Hnotin : ~ In k (map fst (map flatten_item done))).
    { rewrite map_fst_flatten. apply distinct_app_notin with (l2 := map fst rest).
      rewrite Hitems, map_app in Hd. exact Hd. }
    assert (Hitems' : items = (done ++ [(k, v)]) ++ rest)
      by (now rewrite <- app_assoc).
    destruct (join_if_list p (k, v) s) as [s1 [[]|e]] eqn:Eb; [|discriminate].
    assert (Hs1 : exists x, flatten_value v = x
                       /\ s1 = set_event (update_path p
                                 (fun o => match o with
                                           | JDict d => JDict (Py.dict_set k x d)
                                           | _ => o
                                           end)) s).
    { unfold join_if_list in Eb. destruct v; cbn [Py.is_list] in Eb;
        try (injection Eb as <-; eexists; split; [reflexivity|];
             symmetry; apply set_event_same;
             rewrite update_path_at with (g := fun o => o) (1 := Hl);
             [apply update_path_id | now rewrite dict_set_middle]).
      unfold bind, lift, modify in Eb.
      destruct (Py.join (lit ",") (JList l)) as [joined|] eqn:Ej;
        [|discriminate].
      injection Eb as <-. exists (JStr joined).
      split; [now apply join_flatten | reflexivity]. }
    destruct Hs1 as (x & Hx & ->).
    apply IH with (done := done ++ [(k, v)]) in Hrun; [|exact Hitems'|exact Hd|].
    + rewrite Hrun, set_event_compose. apply set_event_eq.
      now rewrite update_path_compose.
    + cbn [event set_event]. rewrite lookup_update_path with (1 := Hl).
      rewrite dict_set_middle by exact Hnotin.
      rewrite map_app, <- app_assoc. cbn [map app].
      unfold flatten_item at 2. cbn [fst snd]. now rewrite <- Hx.
Qed.

Lemma process_attribute_run i a s s' cur :
  keys_distinct a = true ->
  lookup_path attributes_ref (event s) = Some (JList cur) ->
  nth_error cur i = Some a ->
  process_attribute i a s = (s', Ok tt) ->
  s' = set_event (update_path (attributes_ref ++ [Idx i])
                    (fun _ => flatten_attribute a)) s.
Proof.
  intros Hd Hl Hn Hrun.
  destruct a as [| | | | |items]; try discriminate Hrun.
  apply flatten_loop with (rest := items) (done := []);
    [reflexivity | exact Hd | | exact Hrun].
  rewrite lookup_path_app, Hl. cbn [lookup_path]. now rewrite Hn.
Qed.

Lemma process_attributes_run elems rest :
  forall done i processed s s' ps,
    elems = done ++ rest ->
    i = List.length done ->
    forallb keys_distinct elems = true ->
    lookup_path attributes_ref (event s)
    = Some (JList (map flatten_attribute done ++ rest)) ->
    process_attributes i rest processed s = (s', Ok ps) ->
    s' = set_event (update_path attributes_ref
                      (fun _ => JList (map flatten_attribute elems))) s.
Proof.
  induction rest as [|a rest IH]; intros done i processed s s' ps He Hi Hd Hl Hrun.
  - simpl in Hrun. injection Hrun as <- _. rewrite app_nil_r in *. subst done.
    symmetry. apply set_event_same. now apply update_path_same.
  - cbn [process_attributes] in Hrun. unfold bind in Hrun.
    destruct (process_attribute i a s) as [s1 [[]|e]] eqn:Ea; [|discriminate].
    assert (Hda : keys_distinct a = true).
    { rewrite forallb_forall in Hd. apply Hd. rewrite He.
      apply in_app_iff. right. now left. }
    assert (Hn : nth_error (map flatten_attribute done ++ a :: rest) i = Some a).
    { rewrite Hi, <- (length_map flatten_attribute done). apply nth_error_middle. }
    apply process_attribute_run with (cur := map flatten_attribute done ++ a :: rest)
      in Ea; [|exact Hda|exact Hl|exact Hn].
    subst s1.
    assert (He' : elems = (done ++ [a]) ++ rest) by (now rewrite <- app_assoc).
    apply IH with (done := done ++ [a]) in Hrun;
      [|exact He'| |exact Hd|].
    + rewrite Hrun, set_event_compose. apply set_event_eq.
      now rewrite update_path_app, update_path_compose.
    + rewrite length_app. simpl. rewrite Hi. now rewrite Nat.add_1_r.
    + cbn [event set_event]. rewrite update_path_app.
      rewrite lookup_update_path with (1 := Hl). cbn [update_path].
      rewrite Hi, <- (length_map flatten_attribute done), list_update_middle.
      now rewrite map_app, <- app_assoc.
Qed.

End Flattening.

Section FlattenedSummary.
Context {lib : PyLib} (svc : services).

Lemma create_main_entity_event main elems s s' id :
  lookup_path attributes_ref (event s) = Some (JList elems) ->
  forallb keys_distinct elems = true ->
  create_main_entity svc main s = (s', Ok id) ->
  event s' = update_path attributes_ref
               (fun _ => JList (map flatten_attribute elems)) (event s).
Proof.
  intros Hl Hd.
  unfold create_main_entity, try_except, graph_connect, graph_getOrCreateID,
    graph_close, logger, deref.
  unfold bind, modify, gets, lift, raise, ret.
  destruct (GraphConnect svc) as [e|]; [discriminate|].
  cbn [event add_graph add_log]. unfold value_at. rewrite Hl. cbn [Py.iter].
  destruct (process_attributes 0 elems [] _) as [s1 [processed|e]] eqn:Ep;
    [|discriminate].
  apply process_attributes_run with (elems := elems) (done := []) in Ep;
    [|reflexivity|reflexivity|exact Hd|exact Hl].
  destruct (deref_all_ok processed (add_log INFO CreatingMainEntity s1))
    as [vs ->].
  destruct (getOrCreateID svc _ _ _ _) as [id'|e]; [|discriminate].
  destruct (connection_close svc) as [e|]; [discriminate|].
  intros H. injection H as <- _. subst s1. reflexivity.
Qed.

Lemma flattened_as_written ev elems :
  lookup_path attributes_ref ev = Some (JList elems) ->
  flattened ev
  = update_path attributes_ref (fun _ => JList (map flatten_attribute elems)) ev.
Proof.
  intros Hl. unfold flattened. now apply update_path_at with (x := JList elems).
Qed.

Lemma flatten_scalar a : no_list_value a = true -> flatten_attribute a = a.
Proof.
  destruct a as [| | | | |items]; try reflexivity.
  unfold no_list_value, flatten_attribute. intros H. f_equal.
  induction items as [|[k v] items IH]; [reflexivity|].
  simpl in H. apply andb_true_iff in H. destruct H as [Hv Hrest].
  simpl. rewrite (IH Hrest). unfold flatten_item. cbn [fst snd].
  now destruct v.
Qed.

Lemma flattened_scalar ev : attributes_scalar ev = true -> flattened ev = ev.
Proof.
  unfold attributes_scalar, flattened. intros H.
  destruct (lookup_path attributes_ref ev) as [x|] eqn:El.
  - rewrite update_path_at with (g := fun v => v) (x := x);
      [apply update_path_id | exact El |].
    destruct x; try reflexivity. f_equal. clear El.
    induction l as [|a l IH]; [reflexivity|].
    simpl in H. apply andb_true_iff in H. destruct H as [Ha Hl].
    simpl. rewrite (IH Hl). f_equal. now apply flatten_scalar.
  - clear H. revert ev El. unfold attributes_ref.
    generalize [Key (lit "Summary"); Key (lit "MAIN_ENTITY"); Key (lit "ATTRIBUTES")].
    intros p. induction p as [|[k|i] p IH]; intros ev; simpl; [discriminate| |].
    + destruct ev; try reflexivity.
      destruct (Py.dict_get k d) as [c|] eqn:E.
      * intros Hc. f_equal. rewrite <- (dict_update_id k d) at 2.
        apply dict_update_ext. intros v Hv. rewrite E in Hv.
        injection Hv as <-. now apply IH.
      * intros _. f_equal. rewrite <- (dict_update_id k d) at 2.
        apply dict_update_ext. intros v Hv. congruence.
    + destruct ev; try reflexivity.
      destruct (nth_error l i) as [c|] eqn:E.
      * intros Hc. f_equal. rewrite <- (list_update_id i l) at 2.
        apply list_update_ext. intros v Hv. rewrite E in Hv.
        injection Hv as <-. now apply IH.
      * intros _. f_equal. rewrite <- (list_update_id i l) at 2.
        apply list_update_ext. intros v Hv. congruence.
Qed.

Lemma store_group_carries e main id i key uuids :
  stable (preserves (records_carry e)) (store_group svc main id i key uuids).
Proof.
  intros s s' r E [Hev Htab].
  unfold store_group, try_except, table_put_item, deref, logger in E.
  unfold bind, gets, lift, modify, raise, ret in E.
  destruct (bucket_get key (results s)) as [bucket|].
  - destruct (put_item svc i _) as [x|] eqn:Ep.
    + destruct x; inversion E; subst; now split.
    + inversion E; subst. split; [reflexivity|].
      intros it Hit. cbn in Hit. apply in_app_iff in Hit.
      destruct Hit as [Hit|[<-|[]]]; [now apply Htab | reflexivity].
  - inversion E; subst. now split.
Qed.

Lemma store_results_carries e main id :
  stable (preserves (records_carry e)) (store_results svc main id).
Proof.
  apply stable_store_results; [exact _ | repeat intro; assumption |].
  intros. apply store_group_carries.
Qed.

(** Lines 90-112, whatever their outcome: once the upsert is called the
    attribute records have all been rewritten. *)
Lemma create_main_entity_flattens main elems s s' r :
  lookup_path attributes_ref (event s) = Some (JList elems) ->
  forallb keys_distinct elems = true ->
  graph s = [] ->
  create_main_entity svc main s = (s', r) ->
  (forall label name attributes edges r',
      ~ In (Upsert label name attributes edges r') (graph s'))
  \/ event s' = update_path attributes_ref
                  (fun _ => JList (map flatten_attribute elems)) (event s).
Proof.
  intros Hl Hd Hg0.
  unfold create_main_entity, try_except, graph_connect, graph_getOrCreateID,
    graph_close, logger, deref.
  unfold bind, modify, gets, lift, raise, ret.
  destruct (GraphConnect svc) as [e|].
  { intros H; injection H as <- _. left. cbn. rewrite Hg0. cbn.
    intros label name attributes edges r' [H|[]]; discriminate H. }
  cbn [event add_graph add_log]. unfold value_at. rewrite Hl. cbn [Py.iter].
  destruct (process_attributes 0 elems [] _) as [s1 [processed|e]] eqn:Ep.
  2:{ apply process_attributes_outside in Ep; unfold keeps in Ep; cbn in Ep.
      injection Ep as _ _ _ Hg _.
      intros H; injection H as <- _. left. cbn. rewrite Hg, Hg0. cbn.
      intros label name attributes edges r' [H|[]]; discriminate H. }
  apply process_attributes_run with (elems := elems) (done := []) in Ep;
    [|reflexivity|reflexivity|exact Hd|exact Hl].
  destruct (deref_all_ok processed (add_log INFO CreatingMainEntity s1))
    as [vs ->].
  destruct (getOrCreateID svc _ _ _ _) as [id'|e].
  2:{ intros H; injection H as <- _. right. subst s1. reflexivity. }
  destruct (connection_close svc) as [e|];
    intros H; injection H as <- _; right; subst s1; reflexivity.
Qed.

(** C4, as amended.  The attribute-flattening step writes to the batch.
    For a batch whose main entity has a list of attribute records, in
    every invocation that gets to the upsert, whether the upsert returns
    or raises and whether or not a record is written afterwards, the
    event object is at the end the event received with every attribute
    value that is a list of strings replaced by the strings joined with
    commas; the summary field of every record written is the
    serialization of the summary of that event.  It is the summary as
    received when no attribute of the main entity has a list for its
    value. *)
Theorem record_summary_is_flattened_summary ev :
  attributes_distinct ev = true ->
  (forall label name attributes edges r,
      In (Upsert label name attributes edges r) (graph (fst (invoke svc ev))) ->
      event (fst (invoke svc ev)) = flattened ev)
  /\ (forall it,
        In it (table (fst (invoke svc ev))) ->
        event (fst (invoke svc ev)) = flattened ev
        /\ Item.summary it
           = Dumps.json_dumps (value_at summary_ref (flattened ev)))
  /\ (attributes_scalar ev = true -> flattened ev = ev).
Proof.
  intros Hd. split; [|split; [|apply flattened_scalar]].
  all: unfold attributes_distinct in Hd.
  all: destruct (lookup_path attributes_ref ev) as [[| | | |elems|]|] eqn:El;
    try discriminate Hd.
  all: rewrite invoke_run.
  all: destruct (validate_input (init_state ev)) as [s0 r0] eqn:E0.
  all: pose proof E0 as Ho0; apply validate_input_outside in Ho0.
  all: unfold keeps in Ho0; cbn in Ho0; injection Ho0 as Hv0 Hg0 Ht0.
  all: destruct r0 as [[]|e0]; [|cbn; rewrite ?Hg0, ?Ht0; intros; contradiction].
  all: destruct (group_entities svc s0) as [s1 r1] eqn:E1.
  all: pose proof E1 as Ho1; apply group_entities_outside in Ho1.
  all: unfold keeps in Ho1; cbn in Ho1; injection Ho1 as Hv1 Hg1 Ht1.
  all: destruct r1 as [main|e1];
    [|cbn; rewrite ?Hg1, ?Hg0, ?Ht1, ?Ht0; intros; contradiction].
  all: assert (Hev1 : event s1 = ev) by congruence.
  all: assert (Hgr1 : graph s1 = []) by congruence.
  all: destruct (create_main_entity svc main s1) as [s2 r2] eqn:E2.
  all: pose proof E2 as Ho2; apply create_main_entity_accumulators in Ho2.
  all: unfold keeps in Ho2; cbn in Ho2; injection Ho2 as _ _ Ht2.
  - pose proof E2 as Hfl.
    apply create_main_entity_flattens with (elems := elems) in Hfl;
      [|now rewrite Hev1|exact Hd|exact Hgr1].
    rewrite Hev1, <- flattened_as_written in Hfl by exact El.
    destruct r2 as [id|e2].
    + destruct (store_results svc main id s2) as [s3 r3] eqn:E3.
      apply store_results_accumulators in E3.
      unfold keeps in E3; cbn in E3. injection E3 as _ _ Hev3 Hg3.
      intros label name attributes edges r Hin.
      assert (Hin2 : In (Upsert label name attributes edges r) (graph s2))
        by (destruct r3; cbn [fst graph add_log] in Hin; congruence).
      destruct Hfl as [Hno|Hev2]; [now destruct (Hno _ _ _ _ _ Hin2)|].
      destruct r3; cbn [fst event add_log]; congruence.
    + cbn [fst graph event add_log]. intros label name attributes edges r Hin.
      destruct Hfl as [Hno|Hev2]; [now destruct (Hno _ _ _ _ _ Hin) | exact Hev2].
  - destruct r2 as [id|e2]; [|cbn; rewrite Ht2, Ht1, Ht0; intros it []].
    apply create_main_entity_event with (elems := elems) in E2;
      [|now rewrite Hev1|exact Hd].
    rewrite Hev1, <- flattened_as_written in E2 by exact El.
    assert (Hc2 : records_carry (flattened ev) s2).
    { split; [exact E2|]. rewrite Ht2, Ht1, Ht0. intros x []. }
    destruct (store_results svc main id s2) as [s3 r3] eqn:E3.
    apply store_results_carries with (e := flattened ev) in E3.
    destruct (E3 Hc2) as [Hev3 Htab3].
    intros it Hin.
    assert (Hin3 : In it (table s3)) by (destruct r3; exact Hin).
    split; [destruct r3; exact Hev3 | now apply Htab3].
Qed.

End FlattenedSummary.

Lemma record_summary_is_flattened_summary_witness :
  attributes_distinct Sample.batch = true
  /\ table (fst (@invoke Sample.lib Sample.svc Sample.batch)) <> []
  /\ (forall label name attributes edges r,
        In (Upsert label name attributes edges r)
           (graph (fst (@invoke Sample.lib Sample.svc Sample.batch))) ->
        event (fst (@invoke Sample.lib Sample.svc Sample.batch))
        = flattened Sample.batch)
  /\ (forall it,
        In it (table (fst (@invoke Sample.lib Sample.svc Sample.batch))) ->
        event (fst (@invoke Sample.lib Sample.svc Sample.batch))
        = flattened Sample.batch
        /\ Item.summary it
           = Dumps.json_dumps (value_at summary_ref (flattened Sample.batch)))
  /\ (attributes_scalar Sample.batch = true ->
      flattened Sample.batch = Sample.batch).
Proof.
  split; [reflexivity|]. split; [vm_compute; discriminate|].
  exact (@record_summary_is_flattened_summary Sample.lib Sample.svc
           Sample.batch eq_refl).
Defined.

(** The scenario with a graph store whose upsert raises: no record is
    written, and the event has been rewritten all the same. *)
Example failed_upsert_leaves_event_rewritten :
  table (fst (@invoke Sample.lib Sample.svc_graph_down Sample.batch)) = []
  /\ event (fst (@invoke Sample.lib Sample.svc_graph_down Sample.batch))
     = flattened Sample.batch
  /\ flattened Sample.batch <> Sample.batch.
Proof.
  split; [vm_compute; reflexivity|]. split; [vm_compute; reflexivity|].
  vm_compute. discriminate.
Qed.

(** C4 as worded does not hold: the batch of the scenario has an
    attribute, INDUSTRY, whose value is a list; the event is not what it
    was after the invocation, and the summary of the records written is
    not the serialization of the summary received. *)
Lemma flattening_reaches_the_summary :
  ~ @summary_untouched Sample.lib Sample.svc.
Proof.
  intros H.
  assert (Hall : Forall (fun it => Item.summary it
                                   = Dumps.json_dumps
                                       (value_at summary_ref (flattened Sample.batch)))
                        (table (fst (@invoke Sample.lib Sample.svc Sample.batch))))
    by (vm_compute; repeat constructor).
  assert (Hin : exists it,
             In it (table (fst (@invoke Sample.lib Sample.svc Sample.batch))))
    by (vm_compute; eexists; left; reflexivity).
  destruct Hin as [it Hin].
  destruct (H Sample.batch Sample.summary it eq_refl Hin) as [_ Hsum].
  rewrite Forall_forall in Hall. rewrite (Hall it Hin) in Hsum.
  vm_compute in Hsum. discriminate Hsum.
Qed.

(** The INDUSTRY attribute is received as a list of two strings and is
    stored, in the summary of each record, as one string. *)
Example scenario_summary_is_rewritten :
  value_at attributes_ref Sample.batch
  = JList [JDict [(lit "INDUSTRY", JList [Sample.jstr "retail"; Sample.jstr "logistics"]);
                  (lit "FOUNDED", JInt 1999)]]
  /\ value_at attributes_ref (event (fst (@invoke Sample.lib Sample.svc Sample.batch)))
     = JList [JDict [(lit "INDUSTRY", Sample.jstr "retail,logistics");
                     (lit "FOUNDED", JInt 1999)]]
  /\ map Item.summary (table (fst (@invoke Sample.lib Sample.svc Sample.batch)))
     = [Dumps.json_dumps (value_at summary_ref (flattened Sample.batch));
        Dumps.json_dumps (value_at summary_ref (flattened Sample.batch))]
  /\ Dumps.json_dumps (value_at summary_ref (flattened Sample.batch))
     <> Dumps.json_dumps Sample.summary.
Proof.
  split; [vm_compute; reflexivity|]. split; [vm_compute; reflexivity|].
  split; [vm_compute; reflexivity|]. vm_compute. discriminate.
Qed.

(** * Further properties of the handler *)

Section StorePhase.
Context {lib : PyLib} (svc : services).

(** One bucket, case by case. *)
Lemma store_group_run main id i key uuids s :
  store_group svc main id i key uuids s
  = match bucket_get key (results s) with
    | None => (s, Raise (KeyError (JStr key)))
    | Some bucket =>
        match put_item svc i (record_of svc main id i key bucket s) with
        | None => (add_item (record_of svc main id i key bucket s) s,
                   Ok (uuids ++ [uuid4 svc i]))
        | Some e =>
            if is_client_error e
            then (add_log ERROR (StoreFailed key e) s, Ok uuids)
            else (s, Raise e)
        end
    end.
Proof.
  unfold store_group, try_except, table_put_item, deref, record_of.
  unfold bind, gets, lift, modify, ret, raise, logger.
  destruct (bucket_get key (results s)) as [bucket|]; [|reflexivity].
  destruct (put_item svc i _) as [[]|]; reflexivity.
Qed.

Lemma store_groups_ids main id keys :
  forall i uuids s s' r,
    store_groups svc main id i keys uuids s = (s', r) ->
    exists ids,
      map Item.id (table s') = map Item.id (table s) ++ ids
      /\ (forall uuids', r = Ok uuids' -> uuids' = uuids ++ ids).
Proof.
  induction keys as [|k keys IH]; intros i uuids s s' r; simpl.
  - unfold ret. intros [= <- <-]. exists []. rewrite !app_nil_r.
    split; [reflexivity|]. now intros ? [= <-].
  - unfold bind. rewrite store_group_run.
    destruct (bucket_get k (results s)) as [bucket|].
    2:{ cbv beta iota. intros [= <- <-]. exists []. rewrite app_nil_r.
        split; [reflexivity|discriminate]. }
    destruct (put_item svc i _) as [e|].
    + destruct (is_client_error e); cbv beta iota.
      * intros E. apply IH in E. destruct E as (ids & Ht & Hr).
        exists ids. split; [exact Ht | exact Hr].
      * intros [= <- <-]. exists []. rewrite app_nil_r.
        split; [reflexivity|discriminate].
    + cbv beta iota. intros E. apply IH in E. destruct E as (ids & Ht & Hr).
      exists (uuid4 svc i :: ids). cbn [table add_item] in Ht.
      rewrite map_app, <- app_assoc in Ht. split; [exact Ht|].
      intros u Hu. rewrite (Hr u Hu). now rewrite <- app_assoc.
Qed.

Lemma store_results_ids main id s s' r :
  store_results svc main id s = (s', r) ->
  exists ids,
    map Item.id (table s') = map Item.id (table s) ++ ids
    /\ (forall uuids, r = Ok uuids -> uuids = ids).
Proof.
  unfold store_results. unfold bind at 1. unfold gets at 1.
  unfold bind at 1. unfold logger at 1. unfold modify at 1.
  unfold bind at 1.
  destruct (store_groups svc main id 0 (map fst (results s)) [] _)
    as [s1 r1] eqn:E.
  apply store_groups_ids in E. destruct E as (ids & Ht & Hr).
  intros H. exists ids. destruct r1 as [uuids|e].
  - unfold bind, logger, modify, ret in H. injection H as <- <-.
    split; [exact Ht|]. intros u [= <-]. exact (Hr uuids eq_refl).
  - injection H as <- <-. split; [exact Ht | discriminate].
Qed.

End StorePhase.

Section WrittenRecords.
Context {lib : PyLib} (svc : services).

(** Nothing is written ahead of the storing loop. *)
Lemma table_before_store ev s0 s1 s2 main id :
  validate_input (init_state ev) = (s0, Ok tt) ->
  group_entities svc s0 = (s1, Ok main) ->
  create_main_entity svc main s1 = (s2, Ok id) ->
  table s2 = [].
Proof.
  intros E0 E1 E2.
  apply validate_input_outside in E0. apply group_entities_outside in E1.
  apply create_main_entity_accumulators in E2.
  unfold keeps in *. cbn in *.
  injection E0 as _ _ H0. injection E1 as _ _ H1. injection E2 as _ _ H2.
  now rewrite H2, H1, H0.
Qed.

(** X1.  Whenever an invocation returns, the identifiers it returns are
    the [id]s of the records that it wrote to the table, one for one and
    in the order of writing. *)
Theorem returned_ids_are_written_records ev uuids :
  snd (invoke svc ev) = Ok uuids ->
  map Item.id (table (fst (invoke svc ev))) = uuids.
Proof.
  rewrite invoke_run.
  destruct (validate_input (init_state ev)) as [s0 [[]|e]] eqn:E0;
    [|discriminate].
  destruct (group_entities svc s0) as [s1 [main|e]] eqn:E1; [|discriminate].
  destruct (create_main_entity svc main s1) as [s2 [id|e]] eqn:E2;
    [|discriminate].
  destruct (store_results svc main id s2) as [s3 [u|e]] eqn:E3;
    [|discriminate].
  cbn [fst snd]. intros [= <-].
  apply store_results_ids in E3. destruct E3 as (ids & Ht & Hr).
  rewrite Ht, (table_before_store _ E0 E1 E2). simpl.
  symmetry. now apply Hr.
Qed.

End WrittenRecords.

Lemma returned_ids_are_written_records_witness :
  snd (@invoke Sample.lib Sample.svc Sample.batch)
  = Ok [lit "uuid-0"; lit "uuid-1"]
  /\ map Item.id (table (fst (@invoke Sample.lib Sample.svc Sample.batch)))
     = [lit "uuid-0"; lit "uuid-1"].
Proof.
  assert (H : snd (@invoke Sample.lib Sample.svc Sample.batch)
              = Ok [lit "uuid-0"; lit "uuid-1"])
    by (vm_compute; reflexivity).
  split; [exact H|].
  exact (@returned_ids_are_written_records Sample.lib Sample.svc
           Sample.batch _ H).
Defined.

Section FailingWrites.
Context {lib : PyLib} (svc : services).

Lemma keys_have_buckets (r : buckets) k :
  In k (map fst r) -> bucket_get k r <> None.
Proof.
  intros Hk. apply in_map_iff in Hk. destruct Hk as ([k' b] & <- & Hin).
  exact (bucket_get_of_in _ _ _ Hin).
Qed.

(** The storing loop when the table refuses some records with a client
    error: those buckets are passed over. *)
Lemma store_groups_skipping fail main id keys :
  (forall i it, put_item svc i it = option_map ClientError (fail i)) ->
  forall i uuids s,
    (forall k, In k keys -> bucket_get k (results s) <> None) ->
    exists s',
      store_groups svc main id i keys uuids s
      = (s', Ok (uuids ++ map (uuid4 svc)
                            (stored_indices fail i (List.length keys))))
      /\ results s' = results s
      /\ map Item.id (table s')
         = map Item.id (table s)
           ++ map (uuid4 svc) (stored_indices fail i (List.length keys)).
Proof.
  intros Hput. induction keys as [|k keys IH]; intros i uuids s Hk.
  - exists s. simpl. unfold stored_indices. simpl. now rewrite !app_nil_r.
  - cbn [store_groups]. unfold bind. rewrite store_group_run.
    destruct (bucket_get k (results s)) as [bucket|] eqn:Eb;
      [|now destruct (Hk k (or_introl eq_refl))].
    rewrite Hput. unfold stored_indices. cbn [List.length seq filter].
    fold (stored_indices fail (S i) (List.length keys)).
    destruct (fail i) as [c|]; cbn [option_map is_client_error].
    + destruct (IH (S i) uuids (add_log ERROR (StoreFailed k (ClientError c)) s))
        as (s' & E & Hr & Ht).
      { intros k' Hk'. apply Hk. now right. }
      exists s'. rewrite E. now repeat split.
    + destruct (IH (S i) (uuids ++ [uuid4 svc i])
                  (add_item (record_of svc main id i k bucket s) s))
        as (s' & E & Hr & Ht).
      { intros k' Hk'. apply Hk. now right. }
      exists s'. rewrite E, <- app_assoc. split; [reflexivity|].
      split; [exact Hr|]. rewrite Ht. cbn [table add_item].
      rewrite map_app, <- app_assoc. reflexivity.
Qed.

(** The storing loop when the [j]-th write breaks with an exception that
    line 137 does not catch: the loop ends there, and the records of the
    buckets before it stay written. *)
Lemma store_groups_breaking e j main id keys :
  is_client_error e = false ->
  (forall it, put_item svc j it = Some e) ->
  forall i uuids s,
    (forall i' it, i <= i' < j -> put_item svc i' it = None) ->
    (forall k, In k keys -> bucket_get k (results s) <> None) ->
    i <= j < i + List.length keys ->
    exists s',
      store_groups svc main id i keys uuids s = (s', Raise e)
      /\ results s' = results s
      /\ map Item.id (table s')
         = map Item.id (table s) ++ map (uuid4 svc) (seq i (j - i)).
Proof.
  intros He Hj. induction keys as [|k keys IH]; intros i uuids s Hput Hk Hij.
  - simpl in Hij. lia.
  - cbn [store_groups]. unfold bind. rewrite store_group_run.
    destruct (bucket_get k (results s)) as [bucket|] eqn:Eb;
      [|now destruct (Hk k (or_introl eq_refl))].
    destruct (Nat.eq_dec i j) as [->|Hne].
    + rewrite Hj, He. exists s. rewrite Nat.sub_diag. simpl.
      now rewrite app_nil_r.
    + rewrite Hput by lia.
      destruct (IH (S i) (uuids ++ [uuid4 svc i])
                  (add_item (record_of svc main id i k bucket s) s))
        as (s' & E & Hr & Ht).
      { intros i' it Hi'. apply Hput. lia. }
      { intros k' Hk'. apply Hk. now right. }
      { simpl in Hij. lia. }
      exists s'. rewrite E. split; [reflexivity|]. split; [exact Hr|].
      rewrite Ht. cbn [table add_item]. rewrite map_app, <- app_assoc.
      replace (j - i) with (S (j - S i)) by lia. reflexivity.
Qed.

Lemma store_results_skipping fail main id s :
  (forall i it, put_item svc i it = option_map ClientError (fail i)) ->
  exists s',
    store_results svc main id s
    = (s', Ok (map (uuid4 svc)
                 (stored_indices fail 0 (List.length (results s)))))
    /\ results s' = results s
    /\ map Item.id (table s')
       = map Item.id (table s)
         ++ map (uuid4 svc) (stored_indices fail 0 (List.length (results s))).
Proof.
  intros Hput. unfold store_results.
  unfold bind at 1. unfold gets at 1.
  unfold bind at 1. unfold logger at 1. unfold modify at 1.
  unfold bind at 1.
  destruct (@store_groups_skipping fail main id (map fst (results s)) Hput 0 []
              (add_log INFO (StoringResults (List.length (results s))) s))
    as (s3 & E & Hr & Ht).
  { intros k Hk. now apply keys_have_buckets. }
  rewrite E. unfold bind, logger, modify, ret.
  rewrite length_map in *. cbn [app].
  eexists. split; [reflexivity|]. split; [exact Hr | exact Ht].
Qed.

Lemma store_results_breaking e j main id s :
  is_client_error e = false ->
  (forall i it, i < j -> put_item svc i it = None) ->
  (forall it, put_item svc j it = Some e) ->
  j < List.length (results s) ->
  exists s',
    store_results svc main id s = (s', Raise e)
    /\ results s' = results s
    /\ map Item.id (table s')
       = map Item.id (table s) ++ map (uuid4 svc) (seq 0 j).
Proof.
  intros He Hbefore Hj Hlt. unfold store_results.
  unfold bind at 1. unfold gets at 1.
  unfold bind at 1. unfold logger at 1. unfold modify at 1.
  unfold bind at 1.
  destruct (@store_groups_breaking e j main id (map fst (results s)) He Hj 0 []
              (add_log INFO (StoringResults (List.length (results s))) s))
    as (s3 & E & Hr & Ht).
  { intros i' it Hi'. apply Hbefore. lia. }
  { intros k Hk. now apply keys_have_buckets. }
  { rewrite length_map. lia. }
  rewrite E. rewrite Nat.sub_0_r in Ht.
  eexists. split; [reflexivity|]. split; [exact Hr | exact Ht].
Qed.


(** A batch of the data model's shape, with a graph store that answers,
    reaches the storing loop with an empty table. *)
Lemma batch_reaches_store ev :
  batch_ok svc ev = true ->
  graph_ok svc ->
  exists s2 main id,
    table s2 = []
    /\ (forall s3 r, store_results svc main id s2 = (s3, r) ->
                    results (fst (invoke svc ev)) = results s3)
    /\ invoke svc ev
       = match store_results svc main id s2 with
         | (s3, Raise e) => (add_log ERROR (FatalError e) s3, Raise e)
         | (s3, Ok uuids) => (s3, Ok uuids)
         end.
Proof.
  intros Hbatch Hgraph.
  destruct (@batch_ok_inv _ svc ev Hbatch)
    as (d & summary & obj & objs & -> & Hs & Ho & Hsum & Hrefs).
  destruct (@summary_ok_inv summary Hsum)
    as (sd & me & main & attrs & -> & Hme & Hn & Ha & Hall).
  rewrite invoke_run.
  pose proof (@validate_input_ok d (JDict sd) obj objs (init_state (JDict d))
                eq_refl Hs Ho (@dict_get_truthy _ _ _ Hme)) as E0.
  rewrite E0.
  set (s0 := add_log INFO _ (init_state (JDict d))) in *.
  destruct (@group_entities_ok _ svc d (JDict sd) obj objs s0 eq_refl Hs Ho Hsum Hrefs)
    as (s1 & main' & E1 & Hs1).
  rewrite E1.
  pose proof E1 as Ho1. apply group_entities_outside in Ho1.
  unfold keeps in Ho1; cbn in Ho1. injection Ho1 as Hev1 _ Ht1.
  assert (Hattrs : lookup_path attributes_ref (event s1) = Some (JList attrs)).
  { rewrite Hev1. unfold attributes_ref. cbn [lookup_path].
    now rewrite Hs, Hme, Ha. }
  destruct (create_main_entity_ok (JStr main') Hgraph Hattrs Hall Hs1)
    as (s2 & id & E2 & Hs2).
  rewrite E2.
  exists s2, (JStr main'), id. split; [|split; [|reflexivity]].
  - eapply table_before_store; eassumption.
  - intros s3 r E3. rewrite E3.
    now destruct r.
Qed.

End FailingWrites.

Section FailingWritesRun.
Context {lib : PyLib} (svc : services).

(** X2.  Lines 137-139.  For a batch of the data model's shape and a
    graph store that answers, when the table refuses some of the records
    with a client error the invocation still returns normally: the
    refused buckets are passed over, and the identifiers returned are
    those of the other buckets, in order, which are also the records
    found in the table. *)
Theorem refused_records_are_skipped ev fail :
  batch_ok svc ev = true ->
  graph_ok svc ->
  (forall i it, put_item svc i it = option_map ClientError (fail i)) ->
  snd (invoke svc ev)
  = Ok (map (uuid4 svc)
          (stored_indices fail 0
             (List.length (results (fst (invoke svc ev))))))
  /\ map Item.id (table (fst (invoke svc ev)))
     = map (uuid4 svc)
         (stored_indices fail 0
            (List.length (results (fst (invoke svc ev))))).
Proof.
  intros Hbatch Hgraph Hput.
  edestruct batch_reaches_store as (s2 & main & id & Ht2 & Hres & E);
    [exact Hbatch | exact Hgraph |].
  edestruct store_results_skipping as (s3 & E3 & Hr & Ht); [exact Hput|].
  rewrite (Hres _ _ E3), E, E3. cbn [fst snd].
  rewrite Hr, Ht, Ht2. split; reflexivity.
Qed.

(** X3.  Lines 118-146.  For a batch of the data model's shape and a
    graph store that answers, when the write of the [j]-th bucket breaks
    with an exception other than a client error, the invocation raises
    that exception, and the records of the [j] buckets before it stay in
    the table. *)
Theorem broken_write_keeps_earlier_records ev e j :
  batch_ok svc ev = true ->
  graph_ok svc ->
  is_client_error e = false ->
  (forall i it, i < j -> put_item svc i it = None) ->
  (forall it, put_item svc j it = Some e) ->
  j < List.length (results (fst (invoke svc ev))) ->
  snd (invoke svc ev) = Raise e
  /\ map Item.id (table (fst (invoke svc ev)))
     = map (uuid4 svc) (seq 0 j).
Proof.
  intros Hbatch Hgraph He Hbefore Hj.
  edestruct batch_reaches_store as (s2 & main & id & Ht2 & Hres & E);
    [exact Hbatch | exact Hgraph |].
  destruct (store_results svc main id s2) as [s3 r3] eqn:E3.
  rewrite (Hres _ _ eq_refl). intros Hlt.
  assert (Hr3 : results s3 = results s2).
  { apply store_results_accumulators in E3. unfold keeps in E3.
    now injection E3. }
  rewrite Hr3 in Hlt.
  edestruct store_results_breaking as (s3' & E3' & _ & Ht);
    [exact He | exact Hbefore | exact Hj | exact Hlt |].
  rewrite E3 in E3'. injection E3' as <- ->.
  rewrite E. cbn [fst snd table add_log]. rewrite Ht, Ht2.
  split; reflexivity.
Qed.

End FailingWritesRun.

Lemma sample_graph_answers (put : nat -> Item.t -> option exn) :
  graph_ok {| get_item := Sample.lookup;
              put_item := put;
              GraphConnect := None;
              getOrCreateID := fun _ _ _ _ => Ok (Sample.jstr "node-1");
              connection_close := None;
              uuid4 := fun i => lit "uuid-" ++ [N.add 48 (N.of_nat i)];
              time_now := fun _ => 1700000000%Z |}.
Proof.
  split; [reflexivity|]. split; [|reflexivity]. intros; eexists; reflexivity.
Qed.

Lemma refused_records_are_skipped_witness :
  @batch_ok Sample.lib SampleFaults.svc_throttled Sample.batch = true
  /\ graph_ok SampleFaults.svc_throttled
  /\ (forall i it,
        put_item SampleFaults.svc_throttled i it
        = option_map ClientError (SampleFaults.throttled i))
  /\ snd (@invoke Sample.lib SampleFaults.svc_throttled Sample.batch)
     = Ok (map (uuid4 SampleFaults.svc_throttled)
             (stored_indices SampleFaults.throttled 0
                (List.length
                   (results (fst (@invoke Sample.lib SampleFaults.svc_throttled
                                    Sample.batch))))))
  /\ map Item.id
       (table (fst (@invoke Sample.lib SampleFaults.svc_throttled Sample.batch)))
     = map (uuid4 SampleFaults.svc_throttled)
         (stored_indices SampleFaults.throttled 0
            (List.length
               (results (fst (@invoke Sample.lib SampleFaults.svc_throttled
                                Sample.batch))))).
Proof.
  assert (Hp : forall i it,
             put_item SampleFaults.svc_throttled i it
             = option_map ClientError (SampleFaults.throttled i))
    by (intros [|i] it; reflexivity).
  split; [vm_compute; reflexivity|].
  split; [apply sample_graph_answers|]. split; [exact Hp|].
  apply (@refused_records_are_skipped Sample.lib SampleFaults.svc_throttled
           Sample.batch SampleFaults.throttled);
    [vm_compute; reflexivity | apply sample_graph_answers | exact Hp].
Defined.

(** The scenario with the first write refused: only the second bucket's
    record is written and returned, and the refusal is logged. *)
Example scenario_first_write_refused :
  snd (@invoke Sample.lib SampleFaults.svc_throttled Sample.batch)
  = Ok [lit "uuid-1"]
  /\ map Item.key
       (table (fst (@invoke Sample.lib SampleFaults.svc_throttled Sample.batch)))
     = [lit "#"]
  /\ In (ERROR,
         StoreFailed (lit "B")
           (ClientError (lit "ProvisionedThroughputExceededException")))
        (log (fst (@invoke Sample.lib SampleFaults.svc_throttled Sample.batch))).
Proof.
  split; [vm_compute; reflexivity|]. split; [vm_compute; reflexivity|].
  vm_compute. tauto.
Qed.

Lemma broken_write_keeps_earlier_records_witness :
  @batch_ok Sample.lib SampleFaults.svc_broken_write Sample.batch = true
  /\ graph_ok SampleFaults.svc_broken_write
  /\ is_client_error (OtherError (lit "EndpointConnectionError")) = false
  /\ (forall i it, i < 1 -> put_item SampleFaults.svc_broken_write i it = None)
  /\ (forall it,
        put_item SampleFaults.svc_broken_write 1 it
        = Some (OtherError (lit "EndpointConnectionError")))
  /\ 1 < List.length
           (results (fst (@invoke Sample.lib SampleFaults.svc_broken_write
                            Sample.batch)))
  /\ snd (@invoke Sample.lib SampleFaults.svc_broken_write Sample.batch)
     = Raise (OtherError (lit "EndpointConnectionError"))
  /\ map Item.id
       (table (fst (@invoke Sample.lib SampleFaults.svc_broken_write
                      Sample.batch)))
     = map (uuid4 SampleFaults.svc_broken_write) (seq 0 1).
Proof.
  assert (Hb : forall i it,
             i < 1 -> put_item SampleFaults.svc_broken_write i it = None)
    by (intros [|i] it Hi; [reflexivity | lia]).
  assert (Hn : List.length
                 (results (fst (@invoke Sample.lib SampleFaults.svc_broken_write
                                  Sample.batch))) = 2)
    by (vm_compute; reflexivity).
  split; [vm_compute; reflexivity|].
  split; [apply sample_graph_answers|]. split; [reflexivity|].
  split; [exact Hb|]. split; [reflexivity|]. split; [rewrite Hn; lia|].
  apply (@broken_write_keeps_earlier_records Sample.lib
           SampleFaults.svc_broken_write Sample.batch
           (OtherError (lit "EndpointConnectionError")) 1);
    [ vm_compute; reflexivity | apply sample_graph_answers | reflexivity
    | exact Hb | reflexivity | rewrite Hn; lia ].
Defined.

Section GraphCalls.
Context {lib : PyLib} (svc : services).

(** What the first two phases leave behind. *)
Lemma before_graph ev s0 s1 main :
  validate_input (init_state ev) = (s0, Ok tt) ->
  group_entities svc s0 = (s1, Ok main) ->
  event s1 = ev /\ graph s1 = [] /\ table s1 = [].
Proof.
  intros E0 E1.
  apply validate_input_outside in E0. apply group_entities_outside in E1.
  unfold keeps in *. cbn in *.
  injection E0 as He0 Hg0 Ht0. injection E1 as He1 Hg1 Ht1.
  repeat split; congruence.
Qed.

(** The graph calls of an invocation are those of lines 90-112. *)
Lemma invoke_graph_phase ev :
  graph (fst (invoke svc ev)) = []
  \/ exists s0 s1 main s2 r2,
       validate_input (init_state ev) = (s0, Ok tt)
       /\ group_entities svc s0 = (s1, Ok main)
       /\ create_main_entity svc main s1 = (s2, r2)
       /\ graph (fst (invoke svc ev)) = graph s2
       /\ allEdges (fst (invoke svc ev)) = allEdges s1.
Proof.
  rewrite invoke_run.
  destruct (validate_input (init_state ev)) as [s0 r0] eqn:E0.
  pose proof E0 as Ho0. apply validate_input_outside in Ho0.
  unfold keeps in Ho0; cbn in Ho0. injection Ho0 as _ Hg0 _.
  destruct r0 as [[]|e0]; [|left; exact Hg0].
  destruct (group_entities svc s0) as [s1 r1] eqn:E1.
  pose proof E1 as Ho1. apply group_entities_outside in Ho1.
  unfold keeps in Ho1; cbn in Ho1. injection Ho1 as _ Hg1 _.
  destruct r1 as [main|e1]; [|left; cbn; congruence].
  destruct (create_main_entity svc main s1) as [s2 r2] eqn:E2.
  pose proof E2 as Ho2. apply create_main_entity_accumulators in Ho2.
  unfold keeps in Ho2; cbn in Ho2. injection Ho2 as _ He2 _.
  right. exists s0, s1, main, s2, r2.
  repeat split; try reflexivity; try assumption.
  - destruct r2 as [id|e2]; [|reflexivity].
    destruct (store_results svc main id s2) as [s3 r3] eqn:E3.
    apply store_results_accumulators in E3.
    unfold keeps in E3; cbn in E3. injection E3 as _ _ _ Hg3.
    destruct r3; exact Hg3.
  - destruct r2 as [id|e2]; [|exact He2].
    destruct (store_results svc main id s2) as [s3 r3] eqn:E3.
    apply store_results_accumulators in E3.
    unfold keeps in E3; cbn in E3. injection E3 as _ He3 _ _.
    destruct r3; cbn; congruence.
Qed.


(** X5.  Lines 104-112.  The connection is closed only after an upsert
    that returned: when the attributes or the upsert raise, the
    exception handler logs and raises again, and the connection that
    line 93 opened is left as it is. *)
Theorem connection_closed_only_after_upsert ev c :
  In (Close c) (graph (fst (invoke svc ev))) ->
  exists label name attributes edges main_entity_id,
    graph (fst (invoke svc ev))
    = [Connect None;
       Upsert label name attributes edges (Ok main_entity_id);
       Close c].
Proof.
  destruct (invoke_graph_phase ev)
    as [H|(s0 & s1 & main & s2 & r2 & E0 & E1 & E2 & Hg & _)].
  { rewrite H. intros []. }
  destruct (before_graph _ E0 E1) as (_ & Hg1 & _).
  apply create_main_entity_trace in E2. destruct E2 as (calls & Hg2 & Htr).
  rewrite Hg, Hg2, Hg1. cbn [app].
  destruct Htr as [e2|e2|l n a es e2|l n a es id e2|l n a es id]; intros Hin.
  - destruct Hin as [H|[]]; discriminate H.
  - destruct Hin as [H|[]]; discriminate H.
  - destruct Hin as [H|[H|[]]]; discriminate H.
  - destruct Hin as [H|[H|[H|[]]]]; try discriminate H.
    injection H as <-. now exists l, n, a, es, id.
  - destruct Hin as [H|[H|[H|[]]]]; try discriminate H.
    injection H as <-. now exists l, n, a, es, id.
Qed.

End GraphCalls.

Lemma connection_closed_only_after_upsert_witness :
  In (Close None) (graph (fst (@invoke Sample.lib Sample.svc Sample.batch)))
  /\ exists label name attributes edges main_entity_id,
       graph (fst (@invoke Sample.lib Sample.svc Sample.batch))
       = [Connect None;
          Upsert label name attributes edges (Ok main_entity_id);
          Close None].
Proof.
  assert (H : In (Close None)
                (graph (fst (@invoke Sample.lib Sample.svc Sample.batch))))
    by (vm_compute; tauto).
  split; [exact H|].
  exact (@connection_closed_only_after_upsert Sample.lib Sample.svc
           Sample.batch None H).
Defined.

Section UpsertArguments.
Context {lib : PyLib} (svc : services).

Lemma subscript_key v k x :
  Py.subscript v (JStr k) = Ok x -> lookup_path [Key k] v = Some x.
Proof.
  destruct v; try discriminate. cbn [Py.subscript lookup_path].
  destruct (Py.dict_get k d) as [y|]; [|discriminate]. now intros [= ->].
Qed.

(** The name that the grouping phase hands on is the one of the summary. *)
Lemma group_entities_name s s' main :
  group_entities svc s = (s', Ok main) ->
  lookup_path [Key (lit "Summary"); Key (lit "MAIN_ENTITY"); Key (lit "NAME")]
              (event s) = Some main.
Proof.
  unfold group_entities, bind, gets, lift, logger, modify, ret.
  destruct (Py.subscript (event s) (JStr (lit "Summary")))
    as [summary|e] eqn:Es; [|discriminate].
  destruct (Py.subscript summary (JStr (lit "MAIN_ENTITY")))
    as [me|e] eqn:Em; [|discriminate].
  destruct (Py.subscript me (JStr (lit "NAME")))
    as [name|e] eqn:En; [|discriminate].
  destruct (Py.subscript me (JStr (lit "ATTRIBUTES"))); [|discriminate].
  destruct (Py.subscript (event s) (JStr (lit "output"))) as [output|e];
    [|discriminate].
  destruct (Py.iter output); [|discriminate].
  destruct (foreach _ _ _) as [s1 [[]|e]]; [|discriminate].
  intros [= _ <-].
  apply subscript_key in Es, Em, En.
  change [Key (lit "Summary"); Key (lit "MAIN_ENTITY"); Key (lit "NAME")]
    with ([Key (lit "Summary")] ++ [Key (lit "MAIN_ENTITY")] ++ [Key (lit "NAME")]).
  now rewrite lookup_path_app, Es, lookup_path_app, Em.
Qed.

Lemma process_attributes_paths rest :
  forall i processed s s' ps,
    process_attributes i rest processed s = (s', Ok ps) ->
    ps = processed
         ++ map (fun j => attributes_ref ++ [Idx j]) (seq i (List.length rest)).
Proof.
  induction rest as [|a rest IH]; intros i processed s s' ps Hrun.
  - simpl in Hrun. injection Hrun as _ <-. simpl. now rewrite app_nil_r.
  - cbn [process_attributes] in Hrun. unfold bind in Hrun.
    destruct (process_attribute i a s) as [s1 [[]|e]]; [|discriminate].
    apply IH in Hrun. rewrite Hrun, <- app_assoc. reflexivity.
Qed.

Lemma deref_all_values ps s :
  deref_all ps s = (s, Ok (map (fun p => value_at p (event s)) ps)).
Proof.
  induction ps as [|p ps IH]; simpl; [reflexivity|].
  unfold bind, deref, gets, ret. now rewrite IH.
Qed.

Lemma values_of_indices p e rest :
  forall done,
    lookup_path p e = Some (JList (done ++ rest)) ->
    map (fun q => value_at q e)
        (map (fun j => p ++ [Idx j])
             (seq (List.length done) (List.length rest)))
    = rest.
Proof.
  induction rest as [|a rest IH]; intros done Hl; [reflexivity|].
  cbn [List.length seq map]. f_equal.
  - unfold value_at. rewrite lookup_path_app, Hl. cbn [lookup_path].
    now rewrite nth_error_middle.
  - specialize (IH (done ++ [a])). rewrite length_app, Nat.add_1_r in IH.
    apply IH. now rewrite <- app_assoc.
Qed.

(** Line 104: what the upsert is called with. *)
Lemma create_main_entity_upsert main elems s s' r label name attrs edges r' :
  lookup_path attributes_ref (event s) = Some (JList elems) ->
  forallb keys_distinct elems = true ->
  graph s = [] ->
  create_main_entity svc main s = (s', r) ->
  In (Upsert label name attrs edges r') (graph s') ->
  label = lit "COMPANY" /\ name = main
  /\ attrs = map flatten_attribute elems /\ edges = allEdges s.
Proof.
  intros Hl Hd Hg0.
  unfold create_main_entity, try_except, graph_connect, graph_getOrCreateID,
    graph_close, logger, deref.
  unfold bind, modify, gets, lift, raise, ret.
  destruct (GraphConnect svc) as [e|].
  { intros H; injection H as <- _. cbn. rewrite Hg0. cbn.
    intros [H|[]]; discriminate H. }
  cbn [event add_graph add_log]. unfold value_at at 1. rewrite Hl. cbn [Py.iter].
  destruct (process_attributes 0 elems [] _) as [s1 [processed|e]] eqn:Ep.
  2:{ apply process_attributes_outside in Ep; unfold keeps in Ep; cbn in Ep.
      injection Ep as _ _ _ Hg _.
      intros H; injection H as <- _. cbn. rewrite Hg, Hg0. cbn.
      intros [H|[]]; discriminate H. }
  pose proof Ep as Hps. apply process_attributes_paths in Hps.
  pose proof Ep as Hout. apply process_attributes_outside in Hout.
  unfold keeps in Hout; cbn in Hout. injection Hout as _ He _ Hg _.
  apply process_attributes_run with (elems := elems) (done := []) in Ep;
    [|reflexivity|reflexivity|exact Hd|exact Hl].
  rewrite deref_all_values.
  assert (Hvals : map (fun p => value_at p (event (add_log INFO CreatingMainEntity s1)))
                      processed
                  = map flatten_attribute elems).
  { rewrite Hps. cbn [app event add_log]. rewrite Ep.
    cbn [event set_event add_log add_graph].
    rewrite <- (length_map flatten_attribute elems).
    apply values_of_indices with (done := []).
    cbn [app].
    now rewrite lookup_update_path with (x := JList elems). }
  rewrite Hvals. cbn [allEdges add_log]. rewrite He.
  assert (Hcalls : forall s'' calls,
             In (Upsert label name attrs edges r') (graph s'') ->
             graph s'' = Connect None
                           :: Upsert (lit "COMPANY") main
                                (map flatten_attribute elems) (allEdges s)
                                (getOrCreateID svc (lit "COMPANY") main
                                   (map flatten_attribute elems) (allEdges s))
                           :: calls ->
             (forall c, In c calls -> exists x, c = Close x) ->
             label = lit "COMPANY" /\ name = main
             /\ attrs = map flatten_attribute elems /\ edges = allEdges s).
  { intros s'' calls Hin Heq Hc. rewrite Heq in Hin. destruct Hin as [H|[H|H]]; [discriminate H| |].
    - injection H as <- <- <- <- _. now repeat split.
    - destruct (Hc _ H) as [x Hx]. discriminate Hx. }
  destruct (getOrCreateID svc _ _ _ _) as [id|e] eqn:Eu.
  2:{ intros H; injection H as <- _. intros Hin.
      apply Hcalls with (1 := Hin) (calls := []); [|intros c []].
      cbn. rewrite Hg, Hg0. reflexivity. }
  destruct (connection_close svc) as [e|].
  - intros H; injection H as <- _. intros Hin.
    apply Hcalls with (1 := Hin) (calls := [Close (Some e)]).
    + cbn. rewrite Hg, Hg0. reflexivity.
    + intros c [<-|[]]. now eexists.
  - intros H; injection H as <- _. intros Hin.
    apply Hcalls with (1 := Hin) (calls := [Close None]).
    + cbn. rewrite Hg, Hg0. reflexivity.
    + intros c [<-|[]]. now eexists.
Qed.

(** X6.  Line 104.  When the attributes of the main entity are a list of
    records, each with distinct keys as a dictionary has them, the
    upsert, if the invocation gets to it, is called with the label
    [COMPANY], the name of the main entity as the summary has it, the
    attribute records with every list of strings joined with commas, and
    the edges collected while grouping. *)
Theorem upsert_receives_flattened_attributes
    ev elems label name attrs edges r :
  lookup_path attributes_ref ev = Some (JList elems) ->
  forallb keys_distinct elems = true ->
  In (Upsert label name attrs edges r) (graph (fst (invoke svc ev))) ->
  label = lit "COMPANY"
  /\ lookup_path [Key (lit "Summary"); Key (lit "MAIN_ENTITY"); Key (lit "NAME")]
                 ev = Some name
  /\ attrs = map flatten_attribute elems
  /\ edges = allEdges (fst (invoke svc ev)).
Proof.
  intros Hl Hd.
  destruct (invoke_graph_phase svc ev)
    as [H|(s0 & s1 & main & s2 & r2 & E0 & E1 & E2 & Hg & He)].
  { rewrite H. intros []. }
  destruct (before_graph _ _ E0 E1) as (Hev1 & Hg1 & _).
  assert (Hev0 : event s0 = ev).
  { apply validate_input_outside in E0. unfold keeps in E0; cbn in E0.
    now injection E0. }
  apply group_entities_name in E1. rewrite Hev0 in E1.
  rewrite Hg, He. intros Hin. rewrite <- Hev1 in Hl.
  eapply create_main_entity_upsert in Hin;
    [|exact Hl | exact Hd | exact Hg1 | exact E2].
  destruct Hin as (-> & -> & -> & ->).
  now repeat split.
Qed.

End UpsertArguments.

Lemma upsert_receives_flattened_attributes_witness :
  lookup_path attributes_ref Sample.batch
  = Some (JList [JDict [(lit "INDUSTRY",
                         JList [Sample.jstr "retail"; Sample.jstr "logistics"]);
                        (lit "FOUNDED", JInt 1999)]])
  /\ forallb keys_distinct
       [JDict [(lit "INDUSTRY",
                JList [Sample.jstr "retail"; Sample.jstr "logistics"]);
               (lit "FOUNDED", JInt 1999)]] = true
  /\ In (Upsert (lit "COMPANY") (Sample.jstr "Acme")
           [JDict [(lit "INDUSTRY", Sample.jstr "retail,logistics");
                   (lit "FOUNDED", JInt 1999)]]
           [lit "Bob is a director of (ROLE: CEO) Acme";
            lit "3M is a customer of (PRODUCTS_USED:glue,tape) Acme"]
           (Ok (Sample.jstr "node-1")))
        (graph (fst (@invoke Sample.lib Sample.svc Sample.batch)))
  /\ lit "COMPANY" = lit "COMPANY"
  /\ lookup_path
       [Key (lit "Summary"); Key (lit "MAIN_ENTITY"); Key (lit "NAME")]
       Sample.batch = Some (Sample.jstr "Acme")
  /\ [JDict [(lit "INDUSTRY", Sample.jstr "retail,logistics");
             (lit "FOUNDED", JInt 1999)]]
     = map flatten_attribute
         [JDict [(lit "INDUSTRY",
                  JList [Sample.jstr "retail"; Sample.jstr "logistics"]);
                 (lit "FOUNDED", JInt 1999)]]
  /\ [lit "Bob is a director of (ROLE: CEO) Acme";
      lit "3M is a customer of (PRODUCTS_USED:glue,tape) Acme"]
     = allEdges (fst (@invoke Sample.lib Sample.svc Sample.batch)).
Proof.
  assert (Hl : lookup_path attributes_ref Sample.batch
               = Some (JList [JDict [(lit "INDUSTRY",
                         JList [Sample.jstr "retail"; Sample.jstr "logistics"]);
                        (lit "FOUNDED", JInt 1999)]]))
    by (vm_compute; reflexivity).
  assert (Hin : In (Upsert (lit "COMPANY") (Sample.jstr "Acme")
           [JDict [(lit "INDUSTRY", Sample.jstr "retail,logistics");
                   (lit "FOUNDED", JInt 1999)]]
           [lit "Bob is a director of (ROLE: CEO) Acme";
            lit "3M is a customer of (PRODUCTS_USED:glue,tape) Acme"]
           (Ok (Sample.jstr "node-1")))
        (graph (fst (@invoke Sample.lib Sample.svc Sample.batch))))
    by (vm_compute; tauto).
  split; [exact Hl|]. split; [reflexivity|]. split; [exact Hin|].
  exact (@upsert_receives_flattened_attributes Sample.lib Sample.svc
           Sample.batch _ _ _ _ _ _ Hl eq_refl Hin).
Defined.

Section Records.
Context {lib : PyLib} (svc : services).

Lemma record_of_ext main id i key bucket s s' :
  event s' = event s -> allEdges s' = allEdges s ->
  record_of svc main id i key bucket s' = record_of svc main id i key bucket s.
Proof. unfold record_of. now intros -> ->. Qed.

(** The records that the storing loop adds, one by one. *)
Lemma store_groups_records main id keys :
  forall i uuids s s' r,
    store_groups svc main id i keys uuids s = (s', r) ->
    exists new,
      table s' = table s ++ new
      /\ forall it, In it new ->
           exists j bucket,
             nth_error keys j = Some (Item.key it)
             /\ bucket_get (Item.key it) (results s) = Some bucket
             /\ it = record_of svc main id (i + j) (Item.key it) bucket s.
Proof.
  induction keys as [|k keys IH]; intros i uuids s s' r; simpl.
  - unfold ret. intros [= <- <-]. exists []. rewrite app_nil_r.
    split; [reflexivity | intros it []].
  - unfold bind. rewrite store_group_run.
    destruct (bucket_get k (results s)) as [bucket|] eqn:Eb.
    2:{ cbv beta iota. intros [= <- <-]. exists []. rewrite app_nil_r.
        split; [reflexivity | intros it []]. }
    destruct (put_item svc i _) as [e|].
    + destruct (is_client_error e); cbv beta iota.
      * intros E. apply IH in E. destruct E as (new & Ht & Hnew).
        exists new. split; [exact Ht|].
        intros it Hit. destruct (Hnew it Hit) as (j & b & Hj & Hb & Hrec).
        exists (S j), b. rewrite Nat.add_succ_r. now repeat split.
      * intros [= <- <-]. exists []. rewrite app_nil_r.
        split; [reflexivity | intros it []].
    + cbv beta iota. intros E. apply IH in E. destruct E as (new & Ht & Hnew).
      exists (record_of svc main id i k bucket s :: new).
      cbn [table add_item] in Ht. rewrite <- app_assoc in Ht.
      split; [exact Ht|].
      intros it [<-|Hit].
      * exists 0, bucket. rewrite Nat.add_0_r. now repeat split.
      * destruct (Hnew it Hit) as (j & b & Hj & Hb & Hrec).
        exists (S j), b. rewrite Nat.add_succ_r. now repeat split.
Qed.

Lemma store_results_records main id s s' r :
  store_results svc main id s = (s', r) ->
  exists new,
    table s' = table s ++ new
    /\ forall it, In it new ->
         exists j bucket,
           nth_error (map fst (results s')) j = Some (Item.key it)
           /\ bucket_get (Item.key it) (results s') = Some bucket
           /\ it = record_of svc main id j (Item.key it) bucket s'.
Proof.
  intros H. pose proof H as Hacc. apply store_results_accumulators in Hacc.
  unfold keeps in Hacc. injection Hacc as Hr Hed Hev _.
  revert H. unfold store_results. unfold bind at 1. unfold gets at 1.
  unfold bind at 1. unfold logger at 1. unfold modify at 1.
  unfold bind at 1.
  destruct (store_groups svc main id 0 (map fst (results s)) [] _)
    as [s1 r1] eqn:E.
  apply store_groups_records in E. destruct E as (new & Ht & Hnew).
  intros H.
  assert (Hts : table s' = table s1).
  { destruct r1 as [uuids|e].
    - unfold bind, logger, modify, ret in H. now injection H as <- _.
    - now injection H as <- _. }
  exists new. rewrite Hts. split; [exact Ht|].
  intros it Hit. destruct (Hnew it Hit) as (j & b & Hj & Hb & Hrec).
  exists j, b. rewrite Hr. cbn [results add_log] in Hb.
  split; [exact Hj|]. split; [exact Hb|].
  etransitivity; [exact Hrec|].
  symmetry. apply record_of_ext; [exact Hev | exact Hed].
Qed.

(** Lines 90-112 when they go through. *)
Lemma create_main_entity_done main s s' id :
  graph s = [] ->
  create_main_entity svc main s = (s', Ok id) ->
  exists attributes,
    graph s'
    = [Connect None;
       Upsert (lit "COMPANY") main attributes (allEdges s) (Ok id);
       Close None].
Proof.
  intros Hg0.
  unfold create_main_entity, try_except, graph_connect, graph_getOrCreateID,
    graph_close, logger, deref.
  unfold bind, modify, gets, lift, raise, ret.
  destruct (GraphConnect svc) as [e|]; [discriminate|].
  destruct (Py.iter _) as [elems|e]; [|discriminate].
  destruct (process_attributes 0 elems [] _) as [s1 [processed|e]] eqn:Ep;
    [|discriminate].
  apply process_attributes_outside in Ep; unfold keeps in Ep; cbn in Ep.
  injection Ep as _ He _ Hg _.
  rewrite deref_all_values. cbn [allEdges add_log]. rewrite He.
  destruct (getOrCreateID svc _ _ _ _) as [id'|e] eqn:Eu; [|discriminate].
  destruct (connection_close svc) as [e|]; [discriminate|].
  intros H. injection H as <- <-. cbn. rewrite Hg, Hg0. cbn.
  now eexists.
Qed.

(** X7.  Lines 117-136.  Every record found in the table after an
    invocation was built from the state the invocation ends in: it is
    the record of one bucket, with the bucket's key and its pairs
    serialized, the summary and the edges as they are at the end, the
    identifier and the expiry drawn for the bucket's position, and the
    name and the graph identifier that the one successful upsert was
    called with and returned. *)
Theorem written_record_describes_the_run ev it :
  In it (table (fst (invoke svc ev))) ->
  exists i bucket attributes,
    nth_error (map fst (results (fst (invoke svc ev)))) i = Some (Item.key it)
    /\ bucket_get (Item.key it) (results (fst (invoke svc ev))) = Some bucket
    /\ it = record_of svc (Item.main_entity it) (Item.main_entity_id it)
              i (Item.key it) bucket (fst (invoke svc ev))
    /\ graph (fst (invoke svc ev))
       = [Connect None;
          Upsert (lit "COMPANY") (Item.main_entity it) attributes
            (allEdges (fst (invoke svc ev)))
            (Ok (Item.main_entity_id it));
          Close None].
Proof.
  rewrite invoke_run.
  destruct (validate_input (init_state ev)) as [s0 r0] eqn:E0.
  pose proof E0 as Ho0. apply validate_input_outside in Ho0.
  unfold keeps in Ho0; cbn in Ho0. injection Ho0 as _ _ Ht0.
  destruct r0 as [[]|e0]; [|cbn; rewrite Ht0; intros []].
  destruct (group_entities svc s0) as [s1 r1] eqn:E1.
  pose proof E1 as Ho1. apply group_entities_outside in Ho1.
  unfold keeps in Ho1; cbn in Ho1. injection Ho1 as _ _ Ht1.
  destruct r1 as [main|e1]; [|cbn; rewrite Ht1, Ht0; intros []].
  destruct (before_graph _ _ E0 E1) as (_ & Hg1 & _).
  destruct (create_main_entity svc main s1) as [s2 r2] eqn:E2.
  pose proof E2 as Ho2. apply create_main_entity_accumulators in Ho2.
  unfold keeps in Ho2; cbn in Ho2. injection Ho2 as _ Hed2 Ht2.
  destruct r2 as [id|e2]; [|cbn; rewrite Ht2, Ht1, Ht0; intros []].
  destruct (@create_main_entity_done main s1 s2 id Hg1 E2) as (attrs & Hg2).
  destruct (store_results svc main id s2) as [s3 r3] eqn:E3.
  pose proof E3 as Ho3. apply store_results_accumulators in Ho3.
  unfold keeps in Ho3; cbn in Ho3. injection Ho3 as _ Hed3 _ Hg3.
  apply store_results_records in E3. destruct E3 as (new & Ht3 & Hnew).
  rewrite Ht2, Ht1, Ht0 in Ht3. cbn [app] in Ht3.
  assert (Hgoal : In it (table s3) ->
            exists i bucket attributes,
              nth_error (map fst (results s3)) i = Some (Item.key it)
              /\ bucket_get (Item.key it) (results s3) = Some bucket
              /\ it = record_of svc (Item.main_entity it) (Item.main_entity_id it)
                        i (Item.key it) bucket s3
              /\ graph s3
                 = [Connect None;
                    Upsert (lit "COMPANY") (Item.main_entity it) attributes
                      (allEdges s3) (Ok (Item.main_entity_id it));
                    Close None]).
  { rewrite Ht3. intros Hit.
    destruct (Hnew it Hit) as (j & b & Hj & Hb & Hrec).
    exists j, b, attrs. split; [exact Hj|]. split; [exact Hb|].
    assert (Hm : Item.main_entity it = main) by (rewrite Hrec; reflexivity).
    assert (Hi : Item.main_entity_id it = id) by (rewrite Hrec; reflexivity).
    rewrite Hm, Hi. split; [exact Hrec|].
    rewrite Hg3, Hg2, Hed3, Hed2. reflexivity. }
  destruct r3 as [uuids|e3]; exact Hgoal.
Qed.

End Records.

Lemma written_record_describes_the_run_witness :
  In (record_of Sample.svc (Sample.jstr "Acme") (Sample.jstr "node-1") 1
        (lit "#") [pair (lit "3M") (JDict Sample.three_m)]
        (fst (@invoke Sample.lib Sample.svc Sample.batch)))
     (table (fst (@invoke Sample.lib Sample.svc Sample.batch)))
  /\ exists i bucket attributes,
       nth_error
         (map fst (results (fst (@invoke Sample.lib Sample.svc Sample.batch))))
         i = Some (lit "#")
       /\ bucket_get (lit "#")
            (results (fst (@invoke Sample.lib Sample.svc Sample.batch)))
          = Some bucket
       /\ record_of Sample.svc (Sample.jstr "Acme") (Sample.jstr "node-1") 1
            (lit "#") [pair (lit "3M") (JDict Sample.three_m)]
            (fst (@invoke Sample.lib Sample.svc Sample.batch))
          = record_of Sample.svc (Sample.jstr "Acme") (Sample.jstr "node-1") i
              (lit "#") bucket
              (fst (@invoke Sample.lib Sample.svc Sample.batch))
       /\ graph (fst (@invoke Sample.lib Sample.svc Sample.batch))
          = [Connect None;
             Upsert (lit "COMPANY") (Sample.jstr "Acme") attributes
               (allEdges (fst (@invoke Sample.lib Sample.svc Sample.batch)))
               (Ok (Sample.jstr "node-1"));
             Close None].
Proof.
  assert (Hin : In (record_of Sample.svc (Sample.jstr "Acme")
                      (Sample.jstr "node-1") 1
                      (lit "#") [pair (lit "3M") (JDict Sample.three_m)]
                      (fst (@invoke Sample.lib Sample.svc Sample.batch)))
                   (table (fst (@invoke Sample.lib Sample.svc Sample.batch))))
    by (vm_compute; right; left; reflexivity).
  split; [exact Hin|].
  exact (@written_record_describes_the_run Sample.lib Sample.svc Sample.batch
           _ Hin).
Defined.

Section OneRecord.
Context {lib : PyLib}.

Lemma bucket_of_grouped k fc x r :
  bucket_of fc (grouped k x r)
  = bucket_of fc r ++ (if pystr_eqb k fc then [x] else []).
Proof.
  destruct (pystr_eqb k fc) eqn:E.
  - apply pystr_eqb_eq in E. subst fc. unfold bucket_of at 1.
    now rewrite bucket_get_grouped.
  - unfold bucket_of. rewrite bucket_get_grouped_other, app_nil_r; [reflexivity|].
    intros ->. now rewrite pystr_eqb_refl in E.
Qed.

(** One key of a record that the loop gets past. *)
Lemma process_key_grouped main data k s s1 :
  process_key main (JDict data) (JStr k) s = (s1, Ok tt) ->
  forall fc,
    bucket_of fc (results s1)
    = bucket_of fc (results s) ++ pairs_under fc data [k].
Proof.
  intros Hrun fc. unfold pairs_under. cbn [flat_map]. rewrite app_nil_r.
  destruct k as [|c rest].
  { injection Hrun as <-. now rewrite app_nil_r. }
  destruct (Py.dict_get (c :: rest) data) as [v|] eqn:Ev.
  - rewrite process_key_str with (1 := eq_refl) (2 := Ev) in Hrun.
    apply process_edge_keeps_results in Hrun. unfold keeps in Hrun.
    rewrite Hrun. cbn [results set_results]. apply bucket_of_grouped.
  - exfalso. unfold process_key in Hrun. cbn [Py.truthy negb] in Hrun.
    unfold bind in Hrun.
    destruct (group_record (JDict data) (JStr (c :: rest)) s)
      as [s0 r0] eqn:Eg.
    apply group_record_cases in Eg.
    destruct Eg as [(fc' & k' & value & _ & _ & _ & Hsub & _)|(e & -> & _)];
      [|discriminate Hrun].
    cbn [Py.subscript] in Hsub. rewrite Ev in Hsub. discriminate Hsub.
Qed.

Lemma pairs_under_app fc data l1 l2 :
  pairs_under fc data (l1 ++ l2)
  = pairs_under fc data l1 ++ pairs_under fc data l2.
Proof. unfold pairs_under. apply flat_map_app. Qed.

Lemma keys_grouped main data keys :
  forall s s',
    foreach (map JStr keys) (process_key main (JDict data)) s = (s', Ok tt) ->
    forall fc,
      bucket_of fc (results s')
      = bucket_of fc (results s) ++ pairs_under fc data keys.
Proof.
  induction keys as [|k keys IH]; intros s s' Hrun fc.
  - injection Hrun as <-. unfold pairs_under. simpl. now rewrite app_nil_r.
  - cbn [map foreach] in Hrun. unfold bind in Hrun.
    destruct (process_key main (JDict data) (JStr k) s) as [s1 [[]|e]] eqn:Ek;
      [|discriminate Hrun].
    rewrite (IH _ _ Hrun fc), (process_key_grouped _ _ _ _ Ek fc).
    change (k :: keys) with ([k] ++ keys).
    now rewrite pairs_under_app, app_assoc.
Qed.

(** X8.  Lines 64-71.  When the loop over the keys of a record returns,
    every bucket is what it was followed by the record's pairs that
    belong under its key, in the order of the record's keys: grouping
    is a stable partition by first character. *)
Theorem record_is_partitioned_in_order main data keys s s' :
  Py.iter (JDict data) = Ok keys ->
  foreach keys (process_key main (JDict data)) s = (s', Ok tt) ->
  forall first_char,
    bucket_of first_char (results s')
    = bucket_of first_char (results s)
      ++ pairs_under first_char data (map fst data).
Proof.
  cbn [Py.iter]. intros [= <-]. rewrite <- (map_map fst JStr).
  apply keys_grouped.
Qed.

End OneRecord.

Lemma record_is_partitioned_in_order_witness :
  exists s',
    Py.iter (JDict Sample.entities)
    = Ok [Sample.jstr "Bob"; Sample.jstr "3M"; Sample.jstr "bert"]
    /\ foreach [Sample.jstr "Bob"; Sample.jstr "3M"; Sample.jstr "bert"]
         (@process_key Sample.lib (Sample.jstr "Acme") (JDict Sample.entities))
         (init_state JNull) = (s', Ok tt)
    /\ forall first_char,
         bucket_of first_char (results s')
         = bucket_of first_char (results (init_state JNull))
           ++ @pairs_under Sample.lib first_char Sample.entities
                (map fst Sample.entities).
Proof.
  eexists. split; [reflexivity|].
  assert (H : foreach [Sample.jstr "Bob"; Sample.jstr "3M"; Sample.jstr "bert"]
                (@process_key Sample.lib (Sample.jstr "Acme")
                   (JDict Sample.entities))
                (init_state JNull)
              = (fst (foreach [Sample.jstr "Bob"; Sample.jstr "3M";
                               Sample.jstr "bert"]
                        (@process_key Sample.lib (Sample.jstr "Acme")
                           (JDict Sample.entities))
                        (init_state JNull)), Ok tt))
    by (vm_compute; reflexivity).
  split; [exact H|].
  exact (@record_is_partitioned_in_order Sample.lib (Sample.jstr "Acme")
           Sample.entities _ _ _ eq_refl H).
Defined.

Section RecordEdges.
Context {lib : PyLib}.

(** One key of a record of the data model's shape. *)
Lemma process_key_edges main entities k v s :
  record_ok (JDict entities) = true ->
  In (k, v) entities ->
  exists s1,
    process_key (JStr main) (JDict entities) (JStr k) s = (s1, Ok tt)
    /\ allEdges s1 = allEdges s ++ edge_of main entities k.
Proof.
  intros Hrec Hin. unfold edge_of.
  destruct k as [|c rest].
  { exists s. split; [reflexivity | now rewrite app_nil_r]. }
  destruct (dict_get_in _ _ _ Hin) as (v' & Hget & Hin').
  assert (Hv' : descriptor_ok v' = true).
  { unfold record_ok in Hrec. rewrite forallb_forall in Hrec.
    exact (Hrec _ Hin'). }
  rewrite process_key_str with (1 := eq_refl) (2 := Hget). rewrite Hget.
  set (s0 := set_results _ s).
  change (allEdges s) with (allEdges s0).
  destruct v' as [| | | | |d]; try discriminate Hv'.
  unfold descriptor_ok in Hv'.
  destruct (Py.dict_get (lit "TYPE") d) as [t|] eqn:Et.
  2:{ rewrite process_edge_untyped with (1 := Hget) (2 := Et).
      exists s0. now rewrite app_nil_r. }
  destruct t as [| | |t| |]; try discriminate Hv'.
  destruct (edge_mappings_get (JStr t)) as [[kind|]|e] eqn:Em.
  - destruct (Py.dict_get (kind_attribute kind) d) as [values|] eqn:Ea;
      [|discriminate Hv'].
    apply strings_inv in Hv'. destruct Hv' as [vs ->].
    apply edge_mappings_get_some in Em. rewrite Em in Et.
    rewrite process_edge_recognized with (1 := Hget) (2 := Et) (3 := Ea).
    rewrite all_str_map. eexists. split; reflexivity.
  - assert (Hn : forall kind, JStr t <> JStr (kind_name kind)).
    { intros kind Heq. rewrite Heq, edge_mappings_get_kind in Em. discriminate. }
    rewrite process_edge_unknown with (1 := Hget) (2 := Et) (4 := Hn)
      by (intros _; reflexivity).
    eexists. split; [reflexivity|]. rewrite app_nil_r.
    now destruct (Py.truthy (JStr t)).
  - discriminate Em.
Qed.

Lemma keys_edges main entities keys :
  record_ok (JDict entities) = true ->
  (forall k, In k keys -> exists v, In (k, v) entities) ->
  forall s,
    exists s',
      foreach (map JStr keys) (process_key (JStr main) (JDict entities)) s
      = (s', Ok tt)
      /\ allEdges s' = allEdges s ++ flat_map (edge_of main entities) keys.
Proof.
  intros Hrec. induction keys as [|k keys IH]; intros Hk s.
  - exists s. simpl. now rewrite app_nil_r.
  - destruct (Hk k (or_introl eq_refl)) as [v Hin].
    destruct (process_key_edges main _ _ _ s Hrec Hin) as (s1 & E1 & He1).
    destruct (IH (fun k' Hk' => Hk k' (or_intror Hk')) s1) as (s' & E & He).
    exists s'. cbn [map foreach]. rewrite bind_ok with (1 := E1).
    split; [exact E|]. rewrite He, He1. cbn [flat_map].
    now rewrite app_assoc.
Qed.

(** X9.  Lines 64-80.  For a record of the data model's shape the loop
    over its keys returns, and it adds to the edges, in the order of the
    record's keys, one edge for each descriptor of a recognized type
    with a non-empty key, and nothing else. *)
Theorem record_edges_in_order main entities keys s :
  record_ok (JDict entities) = true ->
  Py.iter (JDict entities) = Ok keys ->
  exists s',
    foreach keys (process_key (JStr main) (JDict entities)) s = (s', Ok tt)
    /\ allEdges s'
       = allEdges s ++ flat_map (edge_of main entities) (map fst entities).
Proof.
  intros Hrec. cbn [Py.iter]. intros [= <-]. rewrite <- (map_map fst JStr).
  apply keys_edges; [exact Hrec|].
  intros k Hk. apply in_map_iff in Hk. destruct Hk as ([k' v] & <- & Hin).
  now exists v.
Qed.

End RecordEdges.

Lemma record_edges_in_order_witness :
  record_ok (JDict Sample.entities) = true
  /\ Py.iter (JDict Sample.entities)
     = Ok [Sample.jstr "Bob"; Sample.jstr "3M"; Sample.jstr "bert"]
  /\ exists s',
       foreach [Sample.jstr "Bob"; Sample.jstr "3M"; Sample.jstr "bert"]
         (@process_key Sample.lib (Sample.jstr "Acme") (JDict Sample.entities))
         (init_state JNull) = (s', Ok tt)
       /\ allEdges s'
          = allEdges (init_state JNull)
            ++ flat_map (edge_of (lit "Acme") Sample.entities)
                 (map fst Sample.entities).
Proof.
  split; [reflexivity|]. split; [reflexivity|].
  exact (@record_edges_in_order Sample.lib (lit "Acme") Sample.entities _
           (init_state JNull) eq_refl eq_refl).
Defined.

(** The edges of the scenario's record: one for Bob, one for 3M, none
    for bert, whose type is not one of the four. *)
Example scenario_record_edges :
  flat_map (edge_of (lit "Acme") Sample.entities) (map fst Sample.entities)
  = [lit "Bob is a director of (ROLE: CEO) Acme";
     lit "3M is a customer of (PRODUCTS_USED:glue,tape) Acme"]
  /\ @pairs_under Sample.lib (lit "B") Sample.entities (map fst Sample.entities)
     = [pair (lit "Bob") (JDict Sample.bob);
        pair (lit "bert") (JDict Sample.bert)].
Proof. split; vm_compute; reflexivity. Qed.

Section DistinctKeys.
Context {lib : PyLib} (svc : services).

Lemma map_fst_bucket_append k x r :
  map fst (bucket_append k x r) = map fst r.
Proof.
  induction r as [|[k0 b0] r IH]; simpl; [reflexivity|].
  destruct (pystr_eqb k k0); simpl; [reflexivity | now rewrite IH].
Qed.

Lemma bucket_get_none_notin k r :
  bucket_get k r = None -> ~ In k (map fst r).
Proof.
  intros Hn Hin. apply in_map_iff in Hin. destruct Hin as ([k' b] & <- & Hin).
  exact (bucket_get_of_in _ _ _ Hin Hn).
Qed.

Lemma NoDup_setdefault k r :
  NoDup (map fst r) -> NoDup (map fst (setdefault k r)).
Proof.
  intros H. unfold setdefault. destruct (bucket_get k r) eqn:E; [exact H|].
  rewrite map_app. simpl. apply NoDup_app; [exact H | | ].
  - constructor; [intros [] | constructor].
  - intros x Hx [<-|[]]. exact (bucket_get_none_notin _ _ E Hx).
Qed.

Lemma NoDup_grouped k x r :
  NoDup (map fst r) -> NoDup (map fst (grouped k x r)).
Proof.
  intros H. unfold grouped. rewrite map_fst_bucket_append.
  now apply NoDup_setdefault.
Qed.

Lemma process_key_distinct main data key :
  stable (preserves distinct_buckets) (process_key main data key).
Proof.
  unfold process_key. destruct (negb (Py.truthy key)).
  - apply stable_ret; exact _.
  - apply stable_bind; [exact _ | | intros _].
    + intros s s1 r E Hres. apply group_record_cases in E.
      destruct E as [(fc & k & value & _ & _ & Hk & _ & ->)
                    |(e & _ & [-> | (fc & ->)])].
      * now apply NoDup_grouped.
      * exact Hres.
      * now apply NoDup_setdefault.
    + apply stable_process_edge; [exact _ | |]; repeat intro; assumption.
Qed.

Lemma lambda_handler_distinct :
  stable (preserves distinct_buckets) (lambda_handler svc).
Proof.
  assert (HL : log_closed (preserves distinct_buckets))
    by (repeat intro; assumption).
  assert (HE : edges_closed (preserves distinct_buckets))
    by (repeat intro; assumption).
  assert (HV : event_closed (preserves distinct_buckets))
    by (repeat intro; assumption).
  assert (HG : graph_closed (preserves distinct_buckets))
    by (repeat intro; assumption).
  assert (HT : table_closed (preserves distinct_buckets))
    by (repeat intro; assumption).
  unfold lambda_handler. stable_steps; auto.
  - apply stable_validate_input; [exact _ | assumption].
  - apply stable_group_entities; try assumption; try exact _.
    + intros s _. constructor.
    + intros. apply process_key_distinct.
  - apply stable_create_main_entity; try assumption; exact _.
  - apply stable_store_results; try assumption; try exact _.
    intros. apply stable_store_group; try assumption; exact _.
Qed.

(** The keys of the records that the storing loop adds. *)
Lemma store_groups_keys main id keys :
  NoDup keys ->
  forall i uuids s s' r,
    store_groups svc main id i keys uuids s = (s', r) ->
    exists new,
      table s' = table s ++ new
      /\ NoDup (map Item.key new)
      /\ incl (map Item.key new) keys.
Proof.
  induction 1 as [|k keys Hk Hnd IH]; intros i uuids s s' r; simpl.
  - unfold ret. intros [= <- <-]. exists []. rewrite app_nil_r.
    split; [reflexivity|]. split; [constructor | intros x []].
  - assert (Hnone : exists new : list Item.t,
               table s = table s ++ new /\ NoDup (map Item.key new)
               /\ incl (map Item.key new) (k :: keys)).
    { exists []. rewrite app_nil_r. split; [reflexivity|].
      split; [constructor | intros x []]. }
    unfold bind. rewrite store_group_run.
    destruct (bucket_get k (results s)) as [bucket|] eqn:Eb.
    2:{ cbv beta iota. intros [= <- <-]. exact Hnone. }
    destruct (put_item svc i _) as [e|].
    + destruct (is_client_error e); cbv beta iota.
      * intros E. apply IH in E. destruct E as (new & Ht & Hn & Hi).
        exists new. split; [exact Ht|]. split; [exact Hn|].
        intros x Hx. right. now apply Hi.
      * intros [= <- <-]. exact Hnone.
    + cbv beta iota. intros E. apply IH in E.
      destruct E as (new & Ht & Hn & Hi).
      exists (record_of svc main id i k bucket s :: new).
      cbn [table add_item] in Ht. rewrite <- app_assoc in Ht.
      split; [exact Ht|]. cbn [map Item.key record_of].
      split.
      * constructor; [|exact Hn]. intros Hin. apply Hk. now apply Hi.
      * intros x [<-|Hx]; [now left | right; now apply Hi].
Qed.

(** X10.  Lines 66-68 and 117-136.  In every invocation the bucket keys
    are distinct, and at most one record is written for a bucket key. *)
Theorem one_record_per_bucket_key ev :
  distinct_buckets (fst (invoke svc ev))
  /\ NoDup (map Item.key (table (fst (invoke svc ev)))).
Proof.
  split.
  { unfold invoke.
    destruct (lambda_handler svc (init_state ev)) as [s r] eqn:E.
    apply lambda_handler_distinct in E. apply E. constructor. }
  rewrite invoke_run.
  destruct (validate_input (init_state ev)) as [s0 r0] eqn:E0.
  pose proof E0 as Ho0. apply validate_input_outside in Ho0.
  unfold keeps in Ho0; cbn in Ho0. injection Ho0 as _ _ Ht0.
  destruct r0 as [[]|e0]; [|cbn; rewrite Ht0; constructor].
  destruct (group_entities svc s0) as [s1 r1] eqn:E1.
  pose proof E1 as Ho1. apply group_entities_outside in Ho1.
  unfold keeps in Ho1; cbn in Ho1. injection Ho1 as _ _ Ht1.
  destruct r1 as [main|e1]; [|cbn; rewrite Ht1, Ht0; constructor].
  destruct (create_main_entity svc main s1) as [s2 r2] eqn:E2.
  pose proof E2 as Ho2. apply create_main_entity_accumulators in Ho2.
  unfold keeps in Ho2; cbn in Ho2. injection Ho2 as _ _ Ht2.
  destruct r2 as [id|e2]; [|cbn; rewrite Ht2, Ht1, Ht0; constructor].
  assert (Hd2 : distinct_buckets s2).
  { assert (H0 : distinct_buckets s0).
    { apply stable_validate_input with (R := preserves distinct_buckets) in E0;
        [apply E0; constructor | exact _ | repeat intro; assumption]. }
    assert (H1 : distinct_buckets s1).
    { apply stable_group_entities with (R := preserves distinct_buckets) in E1;
        [exact (E1 H0) | exact _ | repeat intro; assumption
        | repeat intro; assumption | intros s _; constructor
        | intros; apply process_key_distinct]. }
    apply create_main_entity_accumulators in E2. unfold keeps in E2.
    unfold distinct_buckets. injection E2 as -> _ _. exact H1. }
  assert (Hstore : forall s3 r3,
             store_results svc main id s2 = (s3, r3) ->
             NoDup (map Item.key (table s3))).
  { intros s3 r3. unfold store_results, bind at 1, gets at 1.
    unfold bind at 1, logger at 1, modify at 1. unfold bind at 1.
    destruct (store_groups svc main id 0 (map fst (results s2)) [] _)
      as [s3' r3'] eqn:E3.
    apply store_groups_keys in E3; [|exact Hd2].
    destruct E3 as (new & Ht & Hn & _).
    cbn [table add_log] in Ht. rewrite Ht2, Ht1, Ht0 in Ht. cbn [app] in Ht.
    intros H.
    assert (Hts : table s3 = table s3').
    { destruct r3' as [uuids|e].
      - unfold bind, logger, modify, ret in H. now injection H as <- _.
      - now injection H as <- _. }
    now rewrite Hts, Ht. }
  destruct (store_results svc main id s2) as [s3 r3] eqn:E3.
  specialize (Hstore s3 r3 eq_refl). now destruct r3.
Qed.

End DistinctKeys.

Section References.
Context {lib : PyLib} (svc : services).

(** X11.  Lines 82-84.  A reference whose lookup raises a client error
    is skipped: processing it raises nothing and changes nothing but the
    log, which gets one error record, and the loop goes on with the
    remaining references. *)
Theorem failed_lookup_is_skipped main obj item_id code s :
  first_value obj = Ok item_id ->
  get_item svc item_id = Raise (ClientError code) ->
  process_output_item svc main obj s
  = (add_log ERROR (DynamoDBError item_id (ClientError code)) s, Ok tt)
  /\ forall before after s0,
       foreach before (process_output_item svc main) s0 = (s, Ok tt) ->
       foreach (before ++ obj :: after) (process_output_item svc main) s0
       = foreach after (process_output_item svc main)
           (add_log ERROR (DynamoDBError item_id (ClientError code)) s).
Proof.
  intros Hid Hg.
  assert (Hskip : process_output_item svc main obj s
                  = (add_log ERROR (DynamoDBError item_id (ClientError code)) s,
                     Ok tt)).
  { unfold process_output_item, try_except, table_get_item.
    unfold bind at 1. unfold lift at 1. rewrite Hid.
    unfold bind, lift. rewrite Hg. reflexivity. }
  split; [exact Hskip|].
  intros before after s0 Hbefore.
  rewrite foreach_app with (1 := Hbefore). simpl.
  now rewrite bind_ok with (1 := Hskip).
Qed.

Lemma process_output_item_malformed main obj e s :
  malformed svc obj e ->
  process_output_item svc main obj s = (s, Raise e).
Proof.
  intros Hm. unfold process_output_item, try_except, table_get_item.
  unfold bind at 1. unfold lift at 1.
  destruct Hm as [e Hid | item_id e Hid Hg Hc | item_id it Hid Hg Hd
                 | item_id it v Hid Hg Hd Hv
                 | item_id it payload data e Hid Hg Hd Hl Hi]; rewrite Hid.
  - reflexivity.
  - unfold bind, lift. rewrite Hg. now destruct e.
  - unfold bind, lift. rewrite Hg. simpl Py.subscript. now rewrite Hd.
  - unfold bind, lift. rewrite Hg. simpl Py.subscript. rewrite Hd.
    destruct v; try reflexivity. now destruct (Hv s0).
  - unfold bind, lift. rewrite Hg. simpl Py.subscript. rewrite Hd.
    unfold loads. rewrite Hl, Hi.
    destruct data; try discriminate Hi; simpl in Hi; injection Hi as <-;
      reflexivity.
Qed.

(** X12.  Lines 50-62.  The other faults of a reference are not
    skipped: a reference that is no mapping or an empty one, a lookup
    that raises anything but a client error, a stored item without
    [data] or whose [data] is not text, a payload that decodes to
    something that cannot be iterated, each ends the loop with its
    exception, with the state as the references before it left it. *)
Theorem malformed_reference_is_fatal main obj e s :
  malformed svc obj e ->
  process_output_item svc main obj s = (s, Raise e)
  /\ forall before after s0,
       foreach before (process_output_item svc main) s0 = (s, Ok tt) ->
       foreach (before ++ obj :: after) (process_output_item svc main) s0
       = (s, Raise e).
Proof.
  intros Hm.
  pose proof (process_output_item_malformed main s Hm) as Hraise.
  split; [exact Hraise|].
  intros before after s0 Hbefore.
  rewrite foreach_app with (1 := Hbefore). simpl.
  unfold bind. now rewrite Hraise.
Qed.

End References.

Lemma failed_lookup_is_skipped_witness :
  first_value (JDict [(lit "id", JInt 7)]) = Ok (JInt 7)
  /\ get_item Sample.svc (JInt 7)
     = Raise (ClientError (lit "ValidationException"))
  /\ @process_output_item Sample.lib Sample.svc (Sample.jstr "Acme")
       (JDict [(lit "id", JInt 7)]) (init_state Sample.batch)
     = (add_log ERROR
          (DynamoDBError (JInt 7) (ClientError (lit "ValidationException")))
          (init_state Sample.batch),
        Ok tt).
Proof.
  split; [reflexivity|]. split; [reflexivity|].
  exact (proj1 (@failed_lookup_is_skipped Sample.lib Sample.svc
                  (Sample.jstr "Acme") (JDict [(lit "id", JInt 7)])
                  (JInt 7) (lit "ValidationException")
                  (init_state Sample.batch) eq_refl eq_refl)).
Defined.

Lemma malformed_reference_is_fatal_witness :
  @malformed Sample.lib SampleFaults.svc_no_payload (Sample.reference "id-5")
    (KeyError (JStr (lit "data")))
  /\ @process_output_item Sample.lib SampleFaults.svc_no_payload
       (Sample.jstr "Acme") (Sample.reference "id-5") (init_state Sample.batch)
     = (init_state Sample.batch, Raise (KeyError (JStr (lit "data")))).
Proof.
  assert (Hm : @malformed Sample.lib SampleFaults.svc_no_payload
                 (Sample.reference "id-5") (KeyError (JStr (lit "data"))))
    by (eapply no_payload; reflexivity).
  split; [exact Hm|].
  exact (proj1 (@malformed_reference_is_fatal Sample.lib
                  SampleFaults.svc_no_payload (Sample.jstr "Acme")
                  (Sample.reference "id-5") _ (init_state Sample.batch) Hm)).
Defined.

(** A stored item without [data] ends the invocation, though the
    reference before it resolved: nothing reaches the graph or the
    table. *)
Example item_without_data_is_fatal :
  snd (@invoke Sample.lib SampleFaults.svc_no_payload
         (JDict [(lit "Summary", Sample.summary);
                 (lit "output", JList [Sample.reference "id-1";
                                       Sample.reference "id-5"])]))
  = Raise (KeyError (JStr (lit "data")))
  /\ graph (fst (@invoke Sample.lib SampleFaults.svc_no_payload
         (JDict [(lit "Summary", Sample.summary);
                 (lit "output", JList [Sample.reference "id-1";
                                       Sample.reference "id-5"])]))) = []
  /\ table (fst (@invoke Sample.lib SampleFaults.svc_no_payload
         (JDict [(lit "Summary", Sample.summary);
                 (lit "output", JList [Sample.reference "id-1";
                                       Sample.reference "id-5"])]))) = [].
Proof. split; [|split]; vm_compute; reflexivity. Qed.

Section UnjoinableAttribute.
Context {lib : PyLib} (svc : services).

Lemma flatten_items_bad p items :
  forallb (fun kv : pystr * json =>
             match snd kv with
             | JList _ => strings (snd kv)
             | _ => true
             end) items = false ->
  forall s, exists s' e, foreach items (join_if_list p) s = (s', Raise e).
Proof.
  induction items as [|[k v] items IH]; [discriminate|].
  intros Hbad s. cbn [foreach]. unfold bind.
  destruct (join_if_list p (k, v) s) as [s1 [[]|e]] eqn:E1;
    [|now exists s1, e].
  apply IH. cbn [forallb snd] in Hbad.
  apply andb_false_iff in Hbad. destruct Hbad as [Hv|Hrest]; [|exact Hrest].
  exfalso. destruct v as [| | | |l|]; try discriminate Hv.
  unfold join_if_list in E1. cbn [Py.is_list] in E1.
  unfold bind, lift, Py.join in E1. cbn [Py.iter] in E1.
  unfold strings in Hv. destruct (Py.all_str l); discriminate.
Qed.

Lemma process_attributes_bad elems :
  forallb attribute_ok elems = false ->
  forall i processed s,
    exists s' e, process_attributes i elems processed s = (s', Raise e).
Proof.
  induction elems as [|a elems IH]; [discriminate|].
  intros Hbad i processed s. cbn [process_attributes]. unfold bind.
  destruct (process_attribute i a s) as [s1 [[]|e]] eqn:E1;
    [|now exists s1, e].
  apply IH. cbn [forallb] in Hbad.
  apply andb_false_iff in Hbad. destruct Hbad as [Ha|Hrest]; [|exact Hrest].
  exfalso. destruct a as [| | | | |items]; try discriminate E1.
  destruct (flatten_items_bad (attributes_ref ++ [Idx i]) items Ha s)
    as (s' & e & E).
  unfold process_attribute in E1. rewrite E in E1. discriminate E1.
Qed.

(** Lines 90-112 on attributes that cannot be joined. *)
Lemma create_main_entity_bad main elems s :
  lookup_path attributes_ref (event s) = Some (JList elems) ->
  forallb attribute_ok elems = false ->
  exists s' e c,
    create_main_entity svc main s = (s', Raise e)
    /\ graph s' = graph s ++ [Connect c].
Proof.
  intros Hl Hbad.
  unfold create_main_entity, try_except, graph_connect, graph_getOrCreateID,
    graph_close, logger, deref.
  unfold bind, modify, gets, lift, raise, ret.
  destruct (GraphConnect svc) as [e|].
  { do 3 eexists. split; reflexivity. }
  cbn [event add_graph add_log]. unfold value_at at 1. rewrite Hl. cbn [Py.iter].
  destruct (process_attributes_bad elems Hbad 0 []
              (add_graph (Connect None) (add_log INFO EstablishingConnection s)))
    as (s1 & e & E).
  rewrite E.
  apply process_attributes_outside in E. unfold keeps in E; cbn in E.
  injection E as _ _ _ Hg _.
  do 3 eexists. split; [reflexivity|]. cbn. exact Hg.
Qed.

(** X13.  Lines 96-100, 109-111.  When an attribute record of the main
    entity is not a mapping, or has a list with an element that is not a
    string, the invocation raises, whatever the references hold: the
    upsert is never attempted and no record is written. *)
Theorem unjoinable_attribute_is_fatal ev elems :
  lookup_path attributes_ref ev = Some (JList elems) ->
  forallb attribute_ok elems = false ->
  (exists e, snd (invoke svc ev) = Raise e)
  /\ table (fst (invoke svc ev)) = []
  /\ forall c, In c (graph (fst (invoke svc ev))) -> exists r, c = Connect r.
Proof.
  intros Hl Hbad. rewrite invoke_run.
  destruct (validate_input (init_state ev)) as [s0 r0] eqn:E0.
  pose proof E0 as Ho0. apply validate_input_outside in Ho0.
  unfold keeps in Ho0; cbn in Ho0. injection Ho0 as He0 Hg0 Ht0.
  destruct r0 as [[]|e0].
  2:{ cbn. rewrite Hg0, Ht0. split; [now exists e0|]. split; [reflexivity|].
      intros c []. }
  destruct (group_entities svc s0) as [s1 r1] eqn:E1.
  pose proof E1 as Ho1. apply group_entities_outside in Ho1.
  unfold keeps in Ho1; cbn in Ho1. injection Ho1 as He1 Hg1 Ht1.
  destruct r1 as [main|e1].
  2:{ cbn. rewrite Hg1, Hg0, Ht1, Ht0. split; [now exists e1|].
      split; [reflexivity|]. intros c []. }
  assert (Hl1 : lookup_path attributes_ref (event s1) = Some (JList elems))
    by (now rewrite He1, He0).
  destruct (create_main_entity_bad main s1 Hl1 Hbad) as (s2 & e & c & E2 & Hg2).
  rewrite E2. cbn.
  pose proof E2 as Ho2. apply create_main_entity_accumulators in Ho2.
  unfold keeps in Ho2; cbn in Ho2. injection Ho2 as _ _ Ht2.
  rewrite Hg2, Hg1, Hg0, Ht2, Ht1, Ht0. cbn.
  split; [now exists e|]. split; [reflexivity|].
  intros c' [<-|[]]. now exists c.
Qed.

End UnjoinableAttribute.

Lemma unjoinable_attribute_is_fatal_witness :
  lookup_path attributes_ref SampleFaults.batch_with_mixed_attribute
  = Some (JList SampleFaults.mixed_attributes)
  /\ forallb attribute_ok SampleFaults.mixed_attributes = false
  /\ (exists e,
        snd (@invoke Sample.lib Sample.svc
               SampleFaults.batch_with_mixed_attribute) = Raise e)
  /\ table (fst (@invoke Sample.lib Sample.svc
                   SampleFaults.batch_with_mixed_attribute)) = []
  /\ forall c,
       In c (graph (fst (@invoke Sample.lib Sample.svc
                           SampleFaults.batch_with_mixed_attribute))) ->
       exists r, c = Connect r.
Proof.
  split; [reflexivity|]. split; [reflexivity|].
  exact (@unjoinable_attribute_is_fatal Sample.lib Sample.svc
           SampleFaults.batch_with_mixed_attribute
           SampleFaults.mixed_attributes eq_refl eq_refl).
Defined.

(** The scenario with a number among the tags: the connection is
    opened and the join raises a type error. *)
Example scenario_mixed_attribute :
  snd (@invoke Sample.lib Sample.svc SampleFaults.batch_with_mixed_attribute)
  = Raise TypeError
  /\ graph (fst (@invoke Sample.lib Sample.svc
                   SampleFaults.batch_with_mixed_attribute))
     = [Connect None].
Proof. split; vm_compute; reflexivity. Qed.

Section LastLogRecord.
Context {lib : PyLib} (svc : services).

Lemma store_results_last_log main id s s' uuids :
  store_results svc main id s = (s', Ok uuids) ->
  exists l, log s' = l ++ [(INFO, ProcessedGroups (List.length uuids))].
Proof.
  unfold store_results. unfold bind at 1. unfold gets at 1.
  unfold bind at 1. unfold logger at 1. unfold modify at 1.
  unfold bind at 1.
  destruct (store_groups svc main id 0 (map fst (results s)) [] _)
    as [s1 [u|e]]; [|discriminate].
  unfold bind, logger, modify, ret. intros [= <- <-].
  now exists (log s1).
Qed.

(** X14.  Lines 141-146.  The last record of the log tells how the
    invocation ended: the error record of the exception it raised, or
    the count of the identifiers it returned. *)
Theorem outcome_is_logged_last ev :
  exists l,
    log (fst (invoke svc ev))
    = l ++ [match snd (invoke svc ev) with
            | Raise e => (ERROR, FatalError e)
            | Ok uuids => (INFO, ProcessedGroups (List.length uuids))
            end].
Proof.
  rewrite invoke_run.
  destruct (validate_input (init_state ev)) as [s0 [[]|e]];
    [|now exists (log s0)].
  destruct (group_entities svc s0) as [s1 [main|e]]; [|now exists (log s1)].
  destruct (create_main_entity svc main s1) as [s2 [id|e]];
    [|now exists (log s2)].
  destruct (store_results svc main id s2) as [s3 [uuids|e]] eqn:E3;
    [|now exists (log s3)].
  exact (store_results_last_log _ _ _ E3).
Qed.

End LastLogRecord.

Section EventFootprint.
Context {lib : PyLib} (svc : services).

#[export] Instance attributes_only_preorder : PreOrder attributes_only.
Proof.
  split.
  - intros s. exists (fun v => v). now rewrite update_path_id.
  - intros s1 s2 s3 [f Hf] [g Hg]. exists (fun v => g (f v)).
    now rewrite Hg, Hf, update_path_compose.
Qed.

Lemma attributes_only_same s s' : event s' = event s -> attributes_only s s'.
Proof. intros H. exists (fun v => v). now rewrite update_path_id. Qed.

Lemma process_attributes_footprint i attributes processed :
  stable attributes_only (process_attributes i attributes processed).
Proof.
  revert i processed.
  induction attributes as [|a l IH]; intros i processed; simpl.
  - stable_steps.
  - unfold process_attribute. stable_steps; auto.
    unfold join_if_list. destruct x as [k v]. stable_steps.
    unfold attributes_only, assign_key. cbn [event set_event].
    rewrite update_path_app. now eexists.
Qed.

Lemma create_main_entity_footprint main :
  stable attributes_only (create_main_entity svc main).
Proof.
  unfold create_main_entity, graph_connect, graph_getOrCreateID, graph_close,
    deref.
  stable_steps; try (now apply attributes_only_same).
  - apply process_attributes_footprint.
  - apply stable_deref_all. exact _.
Qed.

Lemma lambda_handler_footprint :
  stable attributes_only (lambda_handler svc).
Proof.
  assert (HL : log_closed attributes_only)
    by (intros l m s; now apply attributes_only_same).
  assert (HE : edges_closed attributes_only)
    by (intros f s; now apply attributes_only_same).
  assert (HR : results_closed attributes_only)
    by (intros f s; now apply attributes_only_same).
  assert (HT : table_closed attributes_only)
    by (intros f s; now apply attributes_only_same).
  unfold lambda_handler. stable_steps; auto.
  - apply stable_validate_input; [exact _ | assumption].
  - apply stable_group_entities; try assumption; try exact _.
    + intros s. apply HR.
    + intros. apply stable_process_key; try assumption; exact _.
  - apply create_main_entity_footprint.
  - apply stable_store_results; try assumption; try exact _.
    intros. apply stable_store_group; try assumption; exact _.
Qed.

Lemma dict_get_update_other k k' f d :
  pystr_eqb k' k = false ->
  Py.dict_get k' (dict_update k f d) = Py.dict_get k' d.
Proof.
  intros Hne. induction d as [|[k0 v0] d IH]; simpl; [reflexivity|].
  destruct (pystr_eqb k k0) eqn:E; simpl.
  - apply pystr_eqb_eq in E. subst k0. now rewrite Hne.
  - destruct (pystr_eqb k' k0); [reflexivity | exact IH].
Qed.

(** A change below one key of a dictionary is not seen below another. *)
Lemma lookup_update_apart p k q k' q' f e :
  pystr_eqb k' k = false ->
  lookup_path (p ++ Key k' :: q') (update_path (p ++ Key k :: q) f e)
  = lookup_path (p ++ Key k' :: q') e.
Proof.
  intros Hne. revert e. induction p as [|[k0|i] p IH]; intros e.
  - cbn [app lookup_path update_path]. destruct e; try reflexivity.
    now rewrite dict_get_update_other.
  - cbn [app lookup_path update_path]. destruct e; try reflexivity.
    rewrite dict_get_update.
    destruct (Py.dict_get k0 d); [apply IH | reflexivity].
  - cbn [app lookup_path update_path]. destruct e; try reflexivity.
    rewrite nth_error_update.
    destruct (nth_error l i); [apply IH | reflexivity].
Qed.

(** X15.  Lines 28-146.  The one thing an invocation changes in the
    event it is given is the object under
    [Summary.MAIN_ENTITY.ATTRIBUTES]: the references of [output] and the
    name of the main entity are at the end what they were. *)
Theorem event_changes_only_attributes ev :
  (exists f, event (fst (invoke svc ev)) = update_path attributes_ref f ev)
  /\ lookup_path [Key (lit "output")] (event (fst (invoke svc ev)))
     = lookup_path [Key (lit "output")] ev
  /\ lookup_path [Key (lit "Summary"); Key (lit "MAIN_ENTITY"); Key (lit "NAME")]
       (event (fst (invoke svc ev)))
     = lookup_path
         [Key (lit "Summary"); Key (lit "MAIN_ENTITY"); Key (lit "NAME")] ev.
Proof.
  assert (H : exists f,
             event (fst (invoke svc ev)) = update_path attributes_ref f ev).
  { unfold invoke.
    destruct (lambda_handler svc (init_state ev)) as [s r] eqn:E.
    apply lambda_handler_footprint in E. exact E. }
  split; [exact H|]. destruct H as [f ->]. split.
  - apply lookup_update_apart
      with (p := []) (k := lit "Summary")
           (q := [Key (lit "MAIN_ENTITY"); Key (lit "ATTRIBUTES")])
           (k' := lit "output") (q' := []).
    reflexivity.
  - apply lookup_update_apart
      with (p := [Key (lit "Summary"); Key (lit "MAIN_ENTITY")])
           (k := lit "ATTRIBUTES") (q := [])
           (k' := lit "NAME") (q' := []).
    reflexivity.
Qed.

End EventFootprint.

Section TextAttribute.
Context {lib : PyLib}.

Lemma all_str_characters text :
  Py.all_str (map (fun c => JStr [c]) text) = Some (characters text).
Proof.
  unfold characters. induction text as [|c text IH]; simpl; [reflexivity|].
  now rewrite IH.
Qed.

(** X16.  Lines 148-164.  When the attribute of a recognized type holds
    a string where the data model has a list of strings, the edge is
    derived all the same, with the characters of the string joined by
    commas. *)
Theorem text_attribute_is_joined_by_character kind key d text main s :
  Py.dict_get (kind_attribute kind) d = Some (JStr text) ->
  create_edge (JStr key) (JDict d) (JStr main) (JStr (kind_name kind)) s
  = (s, Ok (Some (edge_template key kind (characters text) main))).
Proof.
  intros Hattr. unfold create_edge, edge_creator, bind, lift, ret.
  rewrite edge_mappings_get_kind. simpl Py.subscript. rewrite Hattr.
  unfold Py.join. cbn [Py.iter]. rewrite all_str_characters.
  unfold format, edge_template. now rewrite template_of_kind.
Qed.

End TextAttribute.

Lemma text_attribute_is_joined_by_character_witness :
  Py.dict_get (kind_attribute DIRECTOR) SampleFaults.carol
  = Some (JStr (lit "CEO"))
  /\ @create_edge Sample.lib (JStr (lit "Carol")) (JDict SampleFaults.carol)
       (JStr (lit "Acme")) (JStr (kind_name DIRECTOR)) (init_state JNull)
     = (init_state JNull,
        Ok (Some (edge_template (lit "Carol") DIRECTOR
                    (characters (lit "CEO")) (lit "Acme")))).
Proof.
  split; [reflexivity|].
  exact (@text_attribute_is_joined_by_character Sample.lib DIRECTOR
           (lit "Carol") SampleFaults.carol (lit "CEO") (lit "Acme")
           (init_state JNull) eq_refl).
Defined.

(** Carol, whose role is the string [CEO]. *)
Example scenario_text_role :
  edge_template (lit "Carol") DIRECTOR (characters (lit "CEO")) (lit "Acme")
  = lit "Carol is a director of (ROLE: C,E,O) Acme".
Proof. vm_compute. reflexivity. Qed.

Section ValidationAccepts.
Context {lib : PyLib}.

Lemma validate_input_accepts (d : dict) summary output s :
  event s = JDict d ->
  Py.dict_get (lit "Summary") d = Some summary ->
  Py.truthy summary = true ->
  Py.dict_get (lit "output") d = Some output ->
  Py.truthy output = true ->
  sized output = true ->
  exists n, validate_input s = (add_log INFO (ProcessingEvent n) s, Ok tt).
Proof.
  intros Hev Hs Hts Ho Hto Hsz.
  unfold validate_input.
  remember (lit "Summary") as kS eqn:EkS.
  remember (lit "output") as kO eqn:EkO. clear EkS EkO.
  unfold bind at 1. unfold gets at 1. rewrite Hev.
  unfold Py.get_default, Py.get. rewrite Ho.
  assert (Hlen : exists n, Py.len output = Ok n)
    by (destruct output; try discriminate Hsz; eexists; reflexivity).
  destruct Hlen as [n Hlen]. exists n.
  unfold bind, lift, logger, modify, ret, raise. rewrite Hlen, Hs.
  cbn [event add_log]. rewrite Hts. cbn [negb]. rewrite Hto. reflexivity.
Qed.

(** X17.  Lines 31-36.  On an event that is a mapping whose [output],
    when present, has a length, validation lets the invocation go on
    exactly when both [Summary] and [output] are present and not empty;
    it then leaves one record in the log and nothing else. *)
Theorem validation_accepts_exactly_complete_events (d : dict) s :
  event s = JDict d ->
  (forall v, Py.dict_get (lit "output") d = Some v -> sized v = true) ->
  (snd (validate_input s) = Ok tt
   <-> missing_or_empty (lit "Summary") d = false
       /\ missing_or_empty (lit "output") d = false)
  /\ (snd (validate_input s) = Ok tt ->
      exists n, fst (validate_input s) = add_log INFO (ProcessingEvent n) s).
Proof.
  intros Hev Hsized.
  assert (Hacc : missing_or_empty (lit "Summary") d = false
                 /\ missing_or_empty (lit "output") d = false ->
                 exists n,
                   validate_input s = (add_log INFO (ProcessingEvent n) s, Ok tt)).
  { unfold missing_or_empty. intros [H1 H2].
    destruct (Py.dict_get (lit "Summary") d) as [summary|] eqn:Es;
      [|discriminate H1].
    destruct (Py.dict_get (lit "output") d) as [output|] eqn:Eo;
      [|discriminate H2].
    apply negb_false_iff in H1, H2.
    exact (validate_input_accepts s Hev Es H1 Eo H2 (Hsized _ eq_refl)). }
  assert (Hiff : snd (validate_input s) = Ok tt
                 <-> missing_or_empty (lit "Summary") d = false
                     /\ missing_or_empty (lit "output") d = false).
  { split.
    - intros Hok.
      destruct (missing_or_empty (lit "Summary") d) eqn:E1.
      + destruct (@validate_input_rejects d s Hev Hsized (or_introl E1))
          as [n Hv].
        rewrite Hv in Hok. discriminate Hok.
      + destruct (missing_or_empty (lit "output") d) eqn:E2; [|now split].
        destruct (@validate_input_rejects d s Hev Hsized (or_intror E2))
          as [n Hv].
        rewrite Hv in Hok. discriminate Hok.
    - intros H. destruct (Hacc H) as [n ->]. reflexivity. }
  split; [exact Hiff|].
  intros Hok. apply Hiff in Hok. destruct (Hacc Hok) as [n ->]. now exists n.
Qed.

End ValidationAccepts.

Lemma validation_accepts_exactly_complete_events_witness :
  event (init_state Sample.batch)
  = JDict [(lit "Summary", Sample.summary);
           (lit "output", JList [Sample.reference "id-1"])]
  /\ (forall v,
        Py.dict_get (lit "output")
          [(lit "Summary", Sample.summary);
           (lit "output", JList [Sample.reference "id-1"])] = Some v ->
        sized v = true)
  /\ (snd (validate_input (init_state Sample.batch)) = Ok tt
      <-> missing_or_empty (lit "Summary")
            [(lit "Summary", Sample.summary);
             (lit "output", JList [Sample.reference "id-1"])] = false
          /\ missing_or_empty (lit "output")
               [(lit "Summary", Sample.summary);
                (lit "output", JList [Sample.reference "id-1"])] = false)
  /\ (snd (validate_input (init_state Sample.batch)) = Ok tt ->
      exists n,
        fst (validate_input (init_state Sample.batch))
        = add_log INFO (ProcessingEvent n) (init_state Sample.batch)).
Proof.
  assert (H1 : forall v,
             Py.dict_get (lit "output")
               [(lit "Summary", Sample.summary);
                (lit "output", JList [Sample.reference "id-1"])] = Some v ->
             sized v = true).
  { intros v H. vm_compute in H. injection H as <-. reflexivity. }
  split; [reflexivity|]. split; [exact H1|].
  exact (@validation_accepts_exactly_complete_events _
           (init_state Sample.batch) eq_refl H1).
Defined.
